(* ===== verification/_CoqProject ===== *)
-Q . S2P
Prelude.v
Godot.v
GeneratedCache.v
RegionIndex.v
RegionMap.v
Storage.v
Registration.v
Machine.v
Passes.v
RegionInvariant.v
Layers.v
Shader.v
Accessors.v
Persistence.v
