(* ===== verification/Prelude.v ===== *)
(** * Terrain3D storage: a verification development

    The program is [Terrain3DStorage] ([src/src/terrain_storage.cpp] and
    its header [src/unnamed/part_000]), the resource of the Terrain3D
    plug-in for the Godot engine that owns the terrain data:

    - a sparse list of regions, each located at a unique integer grid
      offset and owning a height image and a control image
      ([region_offsets], [height_maps], [control_maps]);
    - five [Generated] caches of GPU resources derived from that data
      (height array, control array, region lookup map, albedo and normal
      texture arrays), each a RID of the [RenderingServer] and a dirty
      flag;
    - the ordered list of material layers;
    - a material and a shader, created through the [RenderingServer],
      whose parameters publish the caches' handles and the scalar
      settings.

    The methods mutate the arrays, invalidate caches with
    [Generated::clear], and call [_update_regions], which rebuilds the
    dirty caches through the server and publishes their RIDs on the
    material; the shader then reads the region map to find the region of
    a world position.

    ** Files, in dependency order

    - [Prelude.v] (this file): the state-and-crash monad [st] in which
      the C++ methods are written (an [outcome] is [Ok] with a result and
      the new state, or [Crash] on a null dereference or an unchecked
      out-of-range read), the judgement [runs R c] (from every state [c]
      returns without crashing, into a state related by [R]) with its
      composition lemmas, its partial-correctness companion [keeps R c]
      (every run that returns is related by [R]), the notation
      [ERR_FAIL_COND] (scope
      [t3d_scope]), [lookup_Z] for Godot's [int]-indexed arrays, list
      lemmas, and the hint databases [t3d] and [t3d_run].
    - [Godot.v]: the engine collaborators, which are not in [src/] and
      are modelled from the specification (section 6) and the engine's
      documented checks: [Image] as a sparse pixel grid with [RH], [RG8]
      and [RGBA8] quantisation ([Image::create], [fill], [set_pixelv],
      [get_pixel]); the [RenderingServer] as a table of live RIDs
      ([texture_2d_create], [texture_2d_layered_create], [free_rid],
      [material_create], [material_set_param], [shader_set_code], ...)
      with the output log of printed errors and emitted signals.
    - [GeneratedCache.v], Module [Generated]: the struct [Generated] and
      its methods [create] (both overloads) and [clear] (lines 9-33); the
      specification's lifecycle Empty/Dirty/Clean (section 4.3) and the
      refinement of it by the code.
    - [RegionIndex.v], Module [RegionIndex]: [_get_offset_from],
      [get_region_index], [has_region]; the grid snap, the search loop
      against stdpp's [list_find], and lemmas on the offset list.
    - [RegionMap.v], Module [RegionMap]: the region-map branch of
      [_update_regions] (lines 358-372) and the shader's decoding of a
      cell (lines 438-448).
    - [Storage.v], Module [Storage]: the object's fields as the record
      [Terrain3DStorage], the [World] it lives in (the storage, a heap of
      [Image] objects standing for [Ref<Image>], and the server), and one
      definition per method in the source's order: constructor,
      destructor, [_clear], [set_region_size], [set_max_height],
      [add_region], [remove_region], [set_region_offsets], [get_map],
      [force_update_maps], [set_height_maps], [set_control_maps],
      [set_shader_override], the noise setters, [_update_regions] and
      [_update_material].  Each method calls the others as the C++ code
      does.
    - [Registration.v], Modules [ClassDB] and [Bindings]:
      [_bind_methods] (lines 512-576) as one registration program over
      godot-cpp's ClassDB (its checks on methods and properties, and
      [vformat] as [String::sprintf]), the method pointers and parameter
      counts of the header's declarations (lines 75-129), and the names
      ClassDB can call ([bound_methods], used by [Layers.v]);
      [registered] is the class as [GDCLASS]'s [initialize_class]
      leaves it, [_bind_methods] run once on a new class entry.  The
      editor's reading of hint strings ([String::to_int], [to_float]) is
      modelled from Godot.
    - [Machine.v], Module [Machine]: the public methods (the ones
      [_bind_methods] registers that change state) and a client's edits
      of shared images as the labels [call] of a step relation [step];
      [reachable] worlds are those reached from the constructed storage.
      The ownership invariant [own_inv] is proved by rule induction.
    - [Passes.v], Module [Passes]: properties of the update pass:
      idempotence, cache isolation, and the loading of a saved storage.
    - [RegionInvariant.v], Module [RegionInvariant]: unique offsets and
      arrays in lockstep under the region-editing calls, and how the bulk
      setters break them.
    - [Layers.v], Modules [Layers] and [LayerProps]: the layer registry
      (lines 257-347): [set_layer], [get_layer], [set_layers],
      [get_layers], [get_layer_count], [_update_layers], [_update_arrays]
      and [_update_textures].  Its world [LWorld] adds to [World] the
      heap of [TerrainLayerMaterial3D] objects (a class outside [src/],
      modelled from the specification) and the signal connections from
      a layer to a method name; Storage's methods run on the inner world
      through [lift].  The program with layers is the step relation
      [lstep] over [lcall] (a Machine call, a layer method, or a layer
      edit).  A signal calls a method through ClassDB, which knows only
      the names [_bind_methods] registers.
    - [Shader.v], Module [Shader]: the GLSL text of [_update_material]
      (lines 392-501) line by line, the uniforms it declares, and the
      invariant that every material of the server holds only the
      parameters the storage's [material_set_param] calls name.
    - [Accessors.v], Module [Accessors]: the getters, the frame
      judgement [same_field f] (a call leaves the field [f] alone), and
      the round trip of the persisted properties.
    - [Persistence.v], Module [Persistence]: how Godot saves and loads the
      resource: getters and setters called through the method binds by
      property name ([ClassDB::get_property], [set_property]), the text
      saver (which skips values equal to a fresh instance's, compared
      with [Variant]'s [==], a setoid [≡] on [Value]), and the loader on
      a new instance; the invariant [linv] (region size in range, live
      layers) of the program with layers.

    ** What the theorems show

    - Region editing (Storage.v): [add_region] at a free position appends
      to the three arrays and the position gets the last index;
      [add_region] at an occupied position and [remove_region] at a free
      one only print an error; [remove_region] never removes the last
      region; removing slot [i] compacts the arrays and shifts the later
      regions down one slot.  The scenario of section 8 is evaluated.
    - Region index and map (RegionIndex.v, RegionMap.v): the grid snap,
      the equivalence of the search loop with [list_find], and the round
      trip between a region's index and what the shader reads from the
      region map, with its limits (255 regions, 16x16 grid).
    - Ownership (Machine.v): in every reachable world the storage's RIDs
      are distinct and exactly the server's live RIDs (no leak), a dirty
      cache holds no RID, and no free of a dead RID was ever printed; the
      destructor then frees every RID exactly once.  On the way, every
      method except [get_map] is proved never to crash.
    - The update pass (Passes.v): a second pass does nothing; a forced
      update of one map type leaves a clean cache of the other type
      alone.
    - Region arrays (RegionInvariant.v): every call but the three bulk
      setters keeps offsets unique and the arrays in lockstep.
    - Termination and liveness (Machine.v, Passes.v): every call but
      [get_map] and the client's [set_pixel] returns from every world;
      from every world with the ownership invariant one call reaches a
      settled world.
    - Layers (Layers.v): [set_layers] over live layers refines section
      4.3 (both signals of each layer connected, the albedo array Clean
      holding the layers' albedo textures in order); [set_layer] on live
      layers and an index >= 0 refines section 4.5 ([set_layer_spec]:
      remove and compact, replace, or append); [set_layer] with a
      negative index, or with null past the end, crashes; every world
      of the program with layers keeps the ownership invariant and
      connects no layer to [_update_arrays].
    - Shader (Shader.v): every parameter the material holds is a uniform
      of the shader text; the shader's layer uniforms are never set.
    - Properties (Accessors.v): every property registered with
      [ADD_PROPERTY] reads back the value its setter was given; the
      shader override is applied only at the next rebuild of the
      material.
    - Registration and persistence (Registration.v, Persistence.v):
      [_bind_methods] registers every property without a ClassDB error,
      but leaves [get_region_count], [get_layer_count] and [get_material]
      unbound and gives [region_offsets] a hint string that is a format
      error message; from every world of the program with layers, saving
      and loading the resource gives back every property's value, up to
      [Variant] equality; the setters do not enforce the registered
      hints.

    Findings of the modelling, each proved as a theorem: a loaded storage
    never builds its region map ([Passes.load_never_builds_region_map]);
    the bulk setters accept arrays out of lockstep, after which [get_map]
    reads out of range for an existing region; the 256th region is read
    back as the 255th; [set_region_size] accepts sizes that are not
    powers of two; [force_update_maps] rebuilds at once instead of
    marking the cache dirty; a region whose offset lies outside the
    16x16 map is never visible to the shader; no edit of a layer
    reaches the storage, because its signals are connected to method
    names ClassDB does not know ([LayerProps.layer_edit_not_propagated]);
    removing a layer disconnects a connection that was never made and
    leaves it connected to ["_update_values"]
    ([LayerProps.removed_layer_leak]); [set_layer(null, i)] past the end
    appends a null layer and crashes; [set_layers] accepts more than
    the 256 layers the shader's arrays hold; the layer uniforms of the
    shader are never set, so the albedo and normal arrays never reach
    it ([Shader.layer_uniforms_never_set]); a shader override waits for
    the next rebuild of the material ([Accessors.shader_override_deferred]);
    the hint string of [region_offsets] is ["not enough arguments for
    format string"] and three public getters are not bound
    ([Bindings.bind_methods_registers]); the setters store values the
    hints exclude ([Persistence.hints_not_enforced]).

    ** Modelling choices

    - Godot [int] values are [Z]; arrays are Rocq lists, read with
      [lookup_Z], which is [None] out of range: the C++ code does not
      check these indices, and an out-of-range read is a [Crash].
    - Floating-point world positions are exact rationals [Q]; float
      rounding is not modelled.  Colour channels are rationals stored
      with the quantisation of the image format.
    - [ERR_FAIL_*] macros print an error and return: they are an event of
      the log and an early return, never a crash.
    - [Ref<Image>] is an object id into the world's image heap, so an
      image shared between the storage and the editor is one object.
    - No definition needs fuel: every loop of the source runs over a
      list and is structural recursion, and [run_calls] and [run_lcalls] recurse on the
      list of calls.  Concrete worlds (the constructed storage, one and
      two regions, the load sequence) are evaluated with [vm_compute];
      images are sparse, so a 1024x1024 region costs nothing to build.
    - [LOG(INFO, ...)] debug printing is not modelled (see below).

    ** Not modelled

    - The fields of [TerrainLayerMaterial3D] other than the two
      textures, the uv scale and the albedo colour the storage reads;
      its own setters are modelled only as "change the field, emit the
      signal".
    - The arrays [_update_arrays] builds: the code builds them and drops
      them, so only the [changed] signal it emits is observable.
    - The meaning of the GLSL text: the text of [_update_material] is
      modelled, and its uniforms read off it, but only the region lookup
      of [get_height] is given a meaning ([RegionMap.region_index_at]).
    - Godot's side of registration and persistence is modelled only as
      far as the storage uses it: the [Variant] types of the eleven
      properties (an argument of another type is refused, except [INT]
      to [float]), [sprintf]'s [%s] and [%%] directives, decimal hint
      strings without exponents, the numbers [Variant::Type] and
      [PropertyHint] had in Godot 4.0, and the properties of the class
      itself (not those [Resource] adds, such as [resource_name]).  The
      text of a [.tres] file is not modelled: a saved resource is the
      list of (name, value) pairs the saver writes.  [int] and [float]
      parameters are unbounded integers and exact rationals.
    - [LOG(INFO, ...)].  Every other line of [terrain_storage.cpp] and
      of the header is the translation of some definition above; what
      is left are the includes, the include guard, the [WIN32] include,
      [using namespace godot] and the two [VARIANT_ENUM_CAST] lines,
      which only let the enums pass through a [Variant] as their integer
      values (the model passes them as such: [Bindings.map_type_value]).
      Nothing more of the two source files remains to be modelled. *)

From stdpp Require Export base list gmap strings.
From Stdlib Require Export ZArith QArith Qround.

Declare Scope t3d_scope.
Delimit Scope t3d_scope with t3d.
Open Scope t3d_scope.
Close Scope Q_scope.

Create HintDb t3d.
Create Rewrite HintDb t3d_rw.

(** ** Crashes and the state monad *)

(** What the C++ code does when it dereferences a null [Ref] or reads an
    array out of range: the process has undefined behaviour; the model
    stops with a [Crash]. *)
Inductive fault :=
  | NullDeref
  | IndexOutOfRange (i : Z).

Inductive outcome (S A : Type) :=
  | Ok (a : A) (s : S)
  | Crash (f : fault).
Arguments Ok {S A} a s.
Arguments Crash {S A} f.

(** A C++ method of an object whose world is [S] and which returns [A]. *)
Definition st (S A : Type) : Type := S -> outcome S A.

Section Monad.
Context {S : Type}.

Definition st_ret {A} (a : A) : st S A := fun s => Ok a s.

Definition st_bind {A B} (c : st S A) (k : A -> st S B) : st S B :=
  fun s => match c s with
           | Ok a s' => k a s'
           | Crash f => Crash f
           end.

Definition st_get : st S S := fun s => Ok s s.
Definition st_put (s : S) : st S unit := fun _ => Ok tt s.
Definition st_modify (f : S -> S) : st S unit := fun s => Ok tt (f s).
Definition st_crash {A} (f : fault) : st S A := fun _ => Crash f.

(** A [st] computation that does not crash, returning the final state. *)
Definition exec {A} (c : st S A) (s : S) : option S :=
  match c s with Ok _ s' => Some s' | Crash _ => None end.

Lemma st_bind_ok {A B} (c : st S A) (k : A -> st S B) s a s' :
  c s = Ok a s' -> st_bind c k s = k a s'.
Proof. intros H. unfold st_bind. by rewrite H. Qed.

Lemma st_bind_crash {A B} (c : st S A) (k : A -> st S B) s f :
  c s = Crash f -> st_bind c k s = Crash f.
Proof. intros H. unfold st_bind. by rewrite H. Qed.

Lemma st_bind_assoc {A B C} (c : st S A) (k : A -> st S B) (k' : B -> st S C) s :
  st_bind (st_bind c k) k' s = st_bind c (fun a => st_bind (k a) k') s.
Proof. unfold st_bind. by destruct (c s). Qed.
End Monad.

#[export] Instance st_mret {S} : MRet (st S) := @st_ret S.
#[export] Instance st_mbind {S} : MBind (st S) := fun A B k c => @st_bind S A B c k.

#[export] Hint Resolve st_bind_ok st_bind_crash : t3d.

(** [if (b) { c }]. *)
Definition when {S} (b : bool) (c : st S unit) : st S unit := if b then c else mret tt.


(** ** Computations that never crash

    [runs R c]: from every state, [c] returns without crashing, and the
    final state is related to the first by [R].  With [R] a preorder,
    [runs R] is closed under the monad's operations, so a method's
    property follows from those of the calls it makes.  [runs_at R c s]
    is the same from the one state [s]. *)
Section Runs.
Context {S : Type} (R : relation S) `{!PreOrder R}.

Definition runs_at {A} (c : st S A) (s : S) : Prop :=
  exists a s', c s = Ok a s' /\ R s s'.

Definition runs {A} (c : st S A) : Prop := forall s, runs_at c s.

Lemma runs_at_bind {A B} (c : st S A) (k : A -> st S B) s :
  (exists a s1, c s = Ok a s1 /\ R s s1 /\ runs_at (k a) s1) ->
  runs_at (c ≫= k) s.
Proof.
  intros (a & s1 & Hc & Hr & b & s2 & Hk & Hr2). exists b, s2.
  unfold mbind, st_mbind, st_bind. rewrite Hc. split; [done|]. by etransitivity.
Qed.

Lemma runs_bind {A B} (c : st S A) (k : A -> st S B) :
  runs c -> (forall a, runs (k a)) -> runs (c ≫= k).
Proof.
  intros Hc Hk s. apply runs_at_bind. destruct (Hc s) as (a & s1 & ? & ?).
  exists a, s1. split; [done|]. split; [done|]. apply Hk.
Qed.

(** After [st_get], the continuation runs from the state it was given. *)
Lemma runs_get {B} (k : S -> st S B) :
  (forall s, runs_at (k s) s) -> runs (st_get ≫= k).
Proof. intros Hk s. apply runs_at_bind. exists s, s. split; [done|]. by split. Qed.

(** A first call known to run from [s], then calls that run from anywhere. *)
Lemma runs_at_seq {A B} (c : st S A) (k : A -> st S B) s :
  runs_at c s -> (forall a, runs (k a)) -> runs_at (c ≫= k) s.
Proof.
  intros (a & s1 & Hc & Hr) Hk. apply runs_at_bind. exists a, s1. split; [done|].
  split; [done|]. apply Hk.
Qed.

Lemma runs_ret {A} (a : A) : runs (mret a).
Proof. intros s. by exists a, s. Qed.

Lemma runs_modify (f : S -> S) : (forall s, R s (f s)) -> runs (st_modify f).
Proof. intros Hf s. by exists tt, (f s). Qed.

Lemma runs_runs_at {A} (c : st S A) s : runs c -> runs_at c s.
Proof. done. Qed.

Lemma runs_if {A} (b : bool) (c1 c2 : st S A) :
  runs c1 -> runs c2 -> runs (if b then c1 else c2).
Proof. by destruct b. Qed.
End Runs.

(** ** Computations that keep a relation when they return

    [keeps R c]: whenever [c] returns, the final state is related to the
    first by [R]; a crash ends the program and is allowed.  This is the
    judgement of invariants of code that may crash. *)
Section Keeps.
Context {S : Type} (R : relation S) `{!PreOrder R}.

Definition keeps_at {A} (c : st S A) (s : S) : Prop :=
  forall a s', c s = Ok a s' -> R s s'.

Definition keeps {A} (c : st S A) : Prop := forall s, keeps_at c s.

Lemma keeps_at_seq {A B} (c : st S A) (k : A -> st S B) s :
  keeps_at c s -> (forall a, keeps (k a)) -> keeps_at (c ≫= k) s.
Proof.
  intros Hc Hk b s2. unfold mbind, st_mbind, st_bind.
  destruct (c s) as [a s1|] eqn:E; [|done]. intros Hs2.
  etransitivity; [by apply (Hc a)|]. by apply (Hk a s1 b).
Qed.

Lemma keeps_bind {A B} (c : st S A) (k : A -> st S B) :
  keeps c -> (forall a, keeps (k a)) -> keeps (c ≫= k).
Proof. intros Hc Hk s. by apply keeps_at_seq. Qed.

Lemma keeps_get {B} (k : S -> st S B) :
  (forall s, keeps_at (k s) s) -> keeps (st_get ≫= k).
Proof. intros Hk s b s'. apply Hk. Qed.

Lemma keeps_ret {A} (a : A) : keeps (mret a).
Proof. intros s b s' [= _ <-]. reflexivity. Qed.

Lemma keeps_crash {A} f : keeps (@st_crash S A f).
Proof. by intros s b s'. Qed.

Lemma keeps_modify (f : S -> S) : (forall s, R s (f s)) -> keeps (st_modify f).
Proof. intros Hf s b s' [= _ <-]. apply Hf. Qed.

Lemma keeps_if {A} (b : bool) (c1 c2 : st S A) : keeps c1 -> keeps c2 -> keeps (if b then c1 else c2).
Proof. by destruct b. Qed.

Lemma keeps_when b (c : st S unit) : keeps c -> keeps (when b c).
Proof. intros Hc. destruct b; [done|apply keeps_ret]. Qed.

Lemma keeps_at_keeps {A} (c : st S A) s : keeps c -> keeps_at c s.
Proof. done. Qed.

(** A computation that runs keeps its relation. *)
Lemma runs_at_keeps_at {A} (c : st S A) s : runs_at R c s -> keeps_at c s.
Proof. intros (a & s' & Hc & Hr) b s'' Hc'. rewrite Hc in Hc'. by injection Hc' as _ <-. Qed.

Lemma runs_keeps {A} (c : st S A) : runs R c -> keeps c.
Proof. intros Hc s. by apply runs_at_keeps_at. Qed.
End Keeps.

#[export] Hint Resolve keeps_bind keeps_ret keeps_crash keeps_if keeps_when keeps_at_keeps : t3d.

(** A weaker relation follows. *)
Lemma runs_weaken {S A} (R R' : relation S) (c : st S A) :
  (forall s s', R s s' -> R' s s') -> runs R c -> runs R' c.
Proof. intros HR Hc s. destruct (Hc s) as (a & s' & ? & ?). exists a, s'. eauto. Qed.

#[export] Hint Resolve runs_bind runs_ret runs_runs_at runs_if : t3d.

(** Stepping through the first call of a method. *)
Lemma bind_get {S B} (k : S -> st S B) s : (st_get ≫= k) s = k s s.
Proof. reflexivity. Qed.

Lemma bind_modify {S B} (f : S -> S) (k : unit -> st S B) s :
  (st_modify f ≫= k) s = k tt (f s).
Proof. reflexivity. Qed.

Lemma bind_ok {S A B} (c : st S A) (k : A -> st S B) s a s' :
  c s = Ok a s' -> (c ≫= k) s = k a s'.
Proof. apply st_bind_ok. Qed.

Lemma bind_crash {S A B} (c : st S A) (k : A -> st S B) s f :
  c s = Crash f -> (c ≫= k) s = Crash f.
Proof. apply st_bind_crash. Qed.

Lemma bind_ret {S A B} (a : A) (k : A -> st S B) s : (mret a ≫= k) s = k a s.
Proof. reflexivity. Qed.

Create Rewrite HintDb t3d_run.
#[export] Hint Rewrite @bind_get @bind_modify @bind_ret : t3d_run.

(** Godot's [ERR_FAIL_COND(c)]: when [c] holds, [on_fail] reports the
    error and the method returns; otherwise the method goes on. *)
Notation "'ERR_FAIL_COND' c 'then' on_fail 'else' k" :=
  (if c then on_fail else k)
  (at level 10, c at level 100, on_fail at level 100, k at level 200) : t3d_scope.

(** ** Arrays indexed by Godot [int] *)

(** [arr[i]] of a Godot array, with [i : int]: [None] when [i] is
    negative or past the end. *)
Definition lookup_Z {A} (l : list A) (i : Z) : option A :=
  if (i <? 0)%Z then None else l !! Z.to_nat i.

(** [arr.size()] as an [int]. *)
Definition size_Z {A} (l : list A) : Z := Z.of_nat (length l).

Lemma lookup_Z_nat {A} (l : list A) (n : nat) :
  lookup_Z l (Z.of_nat n) = l !! n.
Proof.
  unfold lookup_Z. destruct (Z.ltb_spec (Z.of_nat n) 0); [lia|].
  by rewrite Nat2Z.id.
Qed.

Lemma lookup_Z_Some_range {A} (l : list A) i x :
  lookup_Z l i = Some x -> (0 <= i < size_Z l)%Z.
Proof.
  unfold lookup_Z, size_Z. destruct (Z.ltb_spec i 0); [done|].
  intros Hl%lookup_lt_Some. lia.
Qed.

Lemma lookup_Z_in_range {A} (l : list A) i :
  (0 <= i < size_Z l)%Z -> is_Some (lookup_Z l i).
Proof.
  unfold lookup_Z, size_Z. intros Hi.
  destruct (Z.ltb_spec i 0); [lia|]. apply lookup_lt_is_Some_2. lia.
Qed.

Lemma lookup_Z_out_of_range {A} (l : list A) i :
  (i < 0 \/ size_Z l <= i)%Z -> lookup_Z l i = None.
Proof.
  unfold lookup_Z, size_Z. intros Hi.
  destruct (Z.ltb_spec i 0); [done|]. apply lookup_ge_None_2. lia.
Qed.

Lemma size_Z_app_one {A} (l : list A) x : size_Z (l ++ [x]) = (size_Z l + 1)%Z.
Proof. unfold size_Z. rewrite length_app. simpl. lia. Qed.

#[export] Hint Rewrite @lookup_Z_nat @size_Z_app_one : t3d_rw.

(** ** Lists without duplicates: the removal of one entry *)

Lemma NoDup_delete {A} (l : list A) i : NoDup l -> NoDup (delete i l).
Proof. intros H. eapply sublist_NoDup; [exact H | apply sublist_delete]. Qed.

Lemma NoDup_snoc {A} (l : list A) x : NoDup l -> x ∉ l -> NoDup (l ++ [x]).
Proof.
  intros Hl Hx. apply NoDup_app. split; [done|]. split; [|apply NoDup_singleton].
  intros y Hy ->%list_elem_of_singleton. done.
Qed.

#[export] Hint Resolve NoDup_delete NoDup_snoc : t3d.

(** ** Tactics shared by the components *)

(** Unfold the monad of a method body and compute what does not depend
    on the symbolic state. *)
Ltac st_unfold :=
  cbn [mbind mret st_mbind st_mret st_bind st_ret st_get st_put st_modify st_crash] in *.

(** Case on every boolean test that blocks the computation. *)
Ltac case_bools :=
  repeat match goal with
         | |- context [if ?b then _ else _] =>
             lazymatch b with
             | context [if _ then _ else _] => fail
             | _ => destruct b eqn:?
             end
         end.
