(* ===== verification/Godot.v ===== *)
(** * The engine collaborators of [Terrain3DStorage]

    The storage calls three parts of the Godot engine, which are not in
    this repository and are modelled from their documented behaviour (the
    "pixel-grid abstraction" and the "GPU resource backend" of the
    specification, section 6):
    - [Image]: a width x height grid of colours in one pixel format, with
      [Image::create], [fill], [set_pixelv] and [get_pixel];
    - [RenderingServer]: a table from RIDs to the resources it holds, with
      the creation, release and material-parameter calls the storage
      makes; RID [0] is the invalid [RID()];
    - the engine's output: the errors printed by [ERR_FAIL_*] and the
      signals the storage emits, in order.
    The [Engine] record below gathers the server's table and the output
    log. *)

From S2P Require Import Prelude.

(** ** Colours and pixel formats *)

Record Color := mkColor { c_r : Q; c_g : Q; c_b : Q; c_a : Q }.

Inductive Format := FORMAT_RH | FORMAT_RG8 | FORMAT_RGBA8.

#[export] Instance Format_eq_dec : EqDecision Format.
Proof. solve_decision. Defined.

(** The conversion of a float channel to an 8-bit channel:
    [uint8_t(CLAMP(c * 255.0, 0, 255))]. *)
Definition to_byte (c : Q) : Z := Z.max 0 (Z.min 255 (Qfloor (c * 255))).

Definition of_byte (b : Z) : Q := (b # 255)%Q.

(** The colour a pixel of format [fmt] holds after [c] is written to it:
    an 8-bit format quantises its channels, formats without alpha read
    back an alpha of 1, and [FORMAT_RH] keeps the red channel only (the
    rounding to a half float is not modelled). *)
Definition store (fmt : Format) (c : Color) : Color :=
  match fmt with
  | FORMAT_RH => mkColor (c_r c) 0 0 1
  | FORMAT_RG8 => mkColor (of_byte (to_byte (c_r c))) (of_byte (to_byte (c_g c))) 0 1
  | FORMAT_RGBA8 => mkColor (of_byte (to_byte (c_r c))) (of_byte (to_byte (c_g c)))
                            (of_byte (to_byte (c_b c))) (of_byte (to_byte (c_a c)))
  end.

Lemma to_byte_range c : (0 <= to_byte c <= 255)%Z.
Proof. unfold to_byte. lia. Qed.

(** A channel written as [n / 255] with [0 <= n <= 255] is stored as the
    byte [n]. *)
Lemma to_byte_of_byte n : (0 <= n <= 255)%Z -> to_byte (of_byte n) = n.
Proof.
  intros Hn. unfold to_byte, of_byte, Qfloor. cbn -[Z.mul Z.div].
  change (Z.pos (255 * 1)) with 255%Z. rewrite Z.div_mul by lia. lia.
Qed.

(** ** Images *)

(** An image as a grid: every pixel holds [img_base] except those written
    since the last [fill], which [img_writes] records.  This is the grid
    of the engine's [Image] seen through [get_pixel], kept sparse so that
    images of [region_size] x [region_size] pixels compute. *)
Record Image := mkImage {
  img_width : Z;
  img_height : Z;
  img_format : Format;
  img_base : Color;
  img_writes : gmap (Z * Z) Color
}.

(** [Image::create(w, h, false, fmt)]: a new image, its bytes zeroed. *)
Definition image_create (w h : Z) (fmt : Format) : Image :=
  mkImage w h fmt (store fmt (mkColor 0 0 0 0)) ∅.

(** [Image::fill(c)]. *)
Definition image_fill (c : Color) (img : Image) : Image :=
  mkImage (img_width img) (img_height img) (img_format img) (store (img_format img) c) ∅.

Definition in_image (p : Z * Z) (img : Image) : Prop :=
  (0 <= p.1 < img_width img)%Z /\ (0 <= p.2 < img_height img)%Z.

#[export] Instance in_image_dec p img : Decision (in_image p img).
Proof. unfold in_image. apply _. Defined.

(** [Image::set_pixelv(p, c)] of a debug build (the editor): the index
    checks [ERR_FAIL_INDEX(x, width)] and [ERR_FAIL_INDEX(y, height)]
    report an error and leave the image unchanged ([None]). *)
Definition image_set_pixelv (p : Z * Z) (c : Color) (img : Image) : option Image :=
  if decide (in_image p img)
  then Some (mkImage (img_width img) (img_height img) (img_format img) (img_base img)
                     (<[p := store (img_format img) c]> (img_writes img)))
  else None.

(** [Image::get_pixel(x, y)]; [None] out of range. *)
Definition image_get_pixel (p : Z * Z) (img : Image) : option Color :=
  if decide (in_image p img)
  then Some (default (img_base img) (img_writes img !! p))
  else None.

(** An image is well formed when its size is not negative. *)
Definition image_wf (img : Image) : Prop :=
  (0 <= img_width img)%Z /\ (0 <= img_height img)%Z.

(** ** The rendering server *)

Abbreviation RID := Z (only parsing).

(** [RID::is_valid()]. *)
Definition rid_is_valid (r : RID) : bool := negb (r =? 0)%Z.

(** The shader text built by [_update_material] is fixed except for the
    noise blocks; the text itself is not modelled, only which variant it
    is. *)
Inductive ShaderSource := TerrainShader (use_noise : bool).

Inductive ParamVal :=
  | PRid (r : RID)
  | PInt (z : Z)
  | PFloat (q : Q).

Inductive Resource :=
  | RTexture2D (img : Image)
  | RTextureLayered (imgs : list Image)
  | RShader (code : option ShaderSource)
  | RMaterial (shader : RID) (params : gmap string ParamVal).

(** Errors the engine and the storage print, one constructor per
    [ERR_FAIL_*] site. *)
Inductive err :=
  | ErrRegionExists                  (* add_region: has_region *)
  | ErrMapNotExist                   (* remove_region: index == -1 *)
  | ErrRegionSizeTooSmall            (* set_region_size: p_size < SIZE_64 *)
  | ErrRegionSizeTooLarge            (* set_region_size: p_size > SIZE_2048 *)
  | ErrPixelIndex (x y : Z)          (* Image::set_pixel *)
  | ErrTextureEmpty                  (* texture_2d_create of an empty image *)
  | ErrLayeredEmpty                  (* texture_2d_layered_create of [] *)
  | ErrLayeredNull                   (* a null layer *)
  | ErrLayeredMismatch               (* layers of different size or format *)
  | ErrRemoveAtIndex (i : Z)         (* Array::remove_at out of range *)
  | ErrFreeInvalid (r : RID)         (* free_rid of a RID that is not live *)
  | ErrInvalidMaterial (r : RID)     (* material call on a non-material *)
  | ErrInvalidShader (r : RID)       (* shader call on a non-shader *)
  | ErrNotConnected (obj : nat)      (* Object::disconnect of a connection that does not exist *)
  | ErrMethodNotFound (obj : nat).   (* a signal calls a method the target does not have *)

Inductive event :=
  | EvError (e : err)
  | EvChanged                        (* emit_changed() *)
  | EvPropertyListChanged.           (* notify_property_list_changed() *)

#[export] Instance err_eq_dec : EqDecision err.
Proof. solve_decision. Defined.

#[export] Instance event_eq_dec : EqDecision event.
Proof. solve_decision. Defined.

Record Engine := mkEngine {
  next_rid : Z;
  resources : gmap Z Resource;
  log : list event
}.

Definition engine_init : Engine := mkEngine 1 ∅ [].

Definition report (e : err) (en : Engine) : Engine :=
  mkEngine (next_rid en) (resources en) (log en ++ [EvError e]).

Definition report_all (es : list err) (en : Engine) : Engine :=
  mkEngine (next_rid en) (resources en) (log en ++ (EvError <$> es)).

Definition emit (ev : event) (en : Engine) : Engine :=
  mkEngine (next_rid en) (resources en) (log en ++ [ev]).

(** Allocation of a fresh RID holding [res]. *)
Definition alloc (res : Resource) (en : Engine) : RID * Engine :=
  (next_rid en, mkEngine (next_rid en + 1) (<[next_rid en := res]> (resources en)) (log en)).

(** [texture_2d_create(image)]: [ERR_FAIL_COND_V(image->is_empty(), RID())]. *)
Definition texture_2d_create (img : Image) (en : Engine) : RID * Engine :=
  if bool_decide (img_width img <= 0 \/ img_height img <= 0)%Z
  then (0%Z, report ErrTextureEmpty en)
  else alloc (RTexture2D img) en.

(** All layers have the size and format of the first one. *)
Definition same_shape (i0 : Image) (imgs : list Image) : bool :=
  forallb (fun i => bool_decide (img_width i = img_width i0 /\ img_height i = img_height i0
                                 /\ img_format i = img_format i0)) imgs.

(** [texture_2d_layered_create(layers, TEXTURE_LAYERED_2D_ARRAY)]: fails
    with [RID()] on an empty list, a null layer, or layers that differ in
    size or format. *)
Definition texture_2d_layered_create (layers : list (option Image)) (en : Engine) : RID * Engine :=
  match layers with
  | [] => (0%Z, report ErrLayeredEmpty en)
  | _ =>
    match mapM id layers with
    | None => (0%Z, report ErrLayeredNull en)
    | Some [] => (0%Z, report ErrLayeredEmpty en)
    | Some (i0 :: rest) =>
        if same_shape i0 rest then alloc (RTextureLayered (i0 :: rest)) en
        else (0%Z, report ErrLayeredMismatch en)
    end
  end.

(** [free_rid(rid)]. *)
Definition free_rid (r : RID) (en : Engine) : Engine :=
  match resources en !! r with
  | Some _ => mkEngine (next_rid en) (delete r (resources en)) (log en)
  | None => report (ErrFreeInvalid r) en
  end.

Definition material_create (en : Engine) : RID * Engine := alloc (RMaterial 0 ∅) en.
Definition shader_create (en : Engine) : RID * Engine := alloc (RShader None) en.

(** [material_set_param(material, name, value)]. *)
Definition material_set_param (m : RID) (name : string) (v : ParamVal) (en : Engine) : Engine :=
  match resources en !! m with
  | Some (RMaterial sh ps) =>
      mkEngine (next_rid en) (<[m := RMaterial sh (<[name := v]> ps)]> (resources en)) (log en)
  | _ => report (ErrInvalidMaterial m) en
  end.

(** [material_set_shader(material, shader)]. *)
Definition material_set_shader (m sh : RID) (en : Engine) : Engine :=
  match resources en !! m with
  | Some (RMaterial _ ps) =>
      mkEngine (next_rid en) (<[m := RMaterial sh ps]> (resources en)) (log en)
  | _ => report (ErrInvalidMaterial m) en
  end.

(** [shader_set_code(shader, code)]. *)
Definition shader_set_code (sh : RID) (code : ShaderSource) (en : Engine) : Engine :=
  match resources en !! sh with
  | Some (RShader _) =>
      mkEngine (next_rid en) (<[sh := RShader (Some code)]> (resources en)) (log en)
  | _ => report (ErrInvalidShader sh) en
  end.

(** The value of a material parameter, as a shader reads it. *)
Definition material_param (en : Engine) (m : RID) (name : string) : option ParamVal :=
  match resources en !! m with
  | Some (RMaterial _ ps) => ps !! name
  | _ => None
  end.

(** ** The server's table *)

(** Every live RID was allocated: it lies in [1, next_rid). *)
Definition engine_wf (en : Engine) : Prop :=
  (1 <= next_rid en)%Z /\ forall r, is_Some (resources en !! r) -> (1 <= r < next_rid en)%Z.

Lemma engine_init_wf : engine_wf engine_init.
Proof. split; [simpl; lia|]. intros r [? Hr]. simpl in Hr. by rewrite lookup_empty in Hr. Qed.

Lemma resources_report e en : resources (report e en) = resources en.
Proof. reflexivity. Qed.

Lemma resources_emit ev en : resources (emit ev en) = resources en.
Proof. reflexivity. Qed.

Lemma report_wf e en : engine_wf en -> engine_wf (report e en).
Proof. done. Qed.

Lemma emit_wf ev en : engine_wf en -> engine_wf (emit ev en).
Proof. done. Qed.

(** A fresh RID is valid, was not live, and holds the new resource. *)
Lemma alloc_spec res en r en' :
  engine_wf en -> alloc res en = (r, en') ->
  rid_is_valid r = true /\ resources en !! r = None /\
  resources en' = <[r := res]> (resources en) /\ engine_wf en' /\ log en' = log en.
Proof.
  intros [Hn Hlive] [= <- <-]. unfold rid_is_valid. simpl.
  split; [destruct (Z.eqb_spec (next_rid en) 0); [lia|done]|].
  split; [destruct (resources en !! next_rid en) eqn:E; [|done]|].
  { destruct (Hlive (next_rid en)); [by rewrite E|lia]. }
  split; [done|]. split; [|done]. split; [simpl; lia|].
  intros r. simpl. rewrite lookup_insert. case_decide; [lia|].
  intros ?%Hlive. lia.
Qed.

(** What a creation call leaves in the table: either nothing changed and
    the result is [RID()], or a fresh RID holds the resource. *)
Definition created (res : Resource) (en : Engine) (r : RID) (en' : Engine) : Prop :=
  (r = 0%Z /\ resources en' = resources en) \/
  (rid_is_valid r = true /\ resources en !! r = None /\
   resources en' = <[r := res]> (resources en)).

Lemma texture_2d_create_spec img en r en' :
  engine_wf en -> texture_2d_create img en = (r, en') ->
  created (RTexture2D img) en r en' /\ engine_wf en'.
Proof.
  unfold texture_2d_create. intros Hwf. case_bool_decide.
  - intros [= <- <-]. split; [left|]; done.
  - intros (? & ? & ? & ? & _)%alloc_spec; [|done]. split; [right|]; done.
Qed.

(** The images a list of [Ref<Image>] holds, when none is null. *)
Definition layers_images (layers : list (option Image)) : option (list Image) := mapM id layers.

Lemma texture_2d_layered_create_spec layers en r en' :
  engine_wf en -> texture_2d_layered_create layers en = (r, en') ->
  engine_wf en' /\
  ((r = 0%Z /\ resources en' = resources en) \/
   exists imgs, layers_images layers = Some imgs /\
     created (RTextureLayered imgs) en r en').
Proof.
  unfold texture_2d_layered_create, layers_images. intros Hwf.
  destruct layers as [|l0 ls]; [intros [= <- <-]; auto|].
  destruct (mapM id (l0 :: ls)) as [[|i0 rest]|] eqn:Em;
    [intros [= <- <-]; auto| |intros [= <- <-]; auto].
  destruct (same_shape i0 rest); [|intros [= <- <-]; auto].
  intros (? & ? & ? & ? & _)%alloc_spec; [|done].
  split; [done|]. right. exists (i0 :: rest). split; [done|]. by right.
Qed.

Lemma free_rid_resources r en : resources (free_rid r en) = delete r (resources en).
Proof.
  unfold free_rid. destruct (resources en !! r) eqn:E; [done|].
  simpl. by rewrite delete_id.
Qed.

Lemma free_rid_wf r en : engine_wf en -> engine_wf (free_rid r en).
Proof.
  intros [Hn Hlive]. split; [unfold free_rid; by case_match|].
  intros r'. rewrite free_rid_resources, lookup_delete.
  replace (next_rid (free_rid r en)) with (next_rid en) by (unfold free_rid; by case_match).
  case_decide; [by intros []|apply Hlive].
Qed.

(** [free_rid] reports an error exactly when the RID is not live. *)
Lemma free_rid_log r en :
  log (free_rid r en) =
  log en ++ (if resources en !! r is Some _ then [] else [EvError (ErrFreeInvalid r)]).
Proof.
  unfold free_rid. destruct (resources en !! r); simpl; [by rewrite app_nil_r|done].
Qed.

#[export] Hint Resolve report_wf emit_wf free_rid_wf : t3d.

(** The kind of resource a live RID names. *)
Inductive kind := KTexture2D | KTextureLayered | KShader | KMaterial.

#[export] Instance kind_eq_dec : EqDecision kind.
Proof. solve_decision. Defined.

Definition kind_of (res : Resource) : kind :=
  match res with
  | RTexture2D _ => KTexture2D
  | RTextureLayered _ => KTextureLayered
  | RShader _ => KShader
  | RMaterial _ _ => KMaterial
  end.

Definition kind_at (en : Engine) (r : RID) : option kind := kind_of <$> resources en !! r.

(** A call that only changes the content of live resources (or the log):
    the same RIDs are live, with the same kinds. *)
Definition same_kinds (en en' : Engine) : Prop :=
  next_rid en' = next_rid en /\ forall r, kind_at en' r = kind_at en r.

Lemma same_kinds_dom en en' : same_kinds en en' -> dom (resources en') = dom (resources en).
Proof.
  intros [_ Hk]. apply set_eq. intros r. rewrite !elem_of_dom.
  specialize (Hk r). unfold kind_at in Hk.
  destruct (resources en' !! r), (resources en !! r); naive_solver.
Qed.

Lemma same_kinds_wf en en' : engine_wf en -> same_kinds en en' -> engine_wf en'.
Proof.
  intros [Hn Hlive] [Hn' Hk]. unfold engine_wf. rewrite Hn'. split; [done|]. intros r Hr. apply Hlive.
  specialize (Hk r). unfold kind_at in Hk.
  destruct (resources en' !! r), (resources en !! r); naive_solver.
Qed.

Lemma same_kinds_resources en en' : next_rid en' = next_rid en ->
  resources en' = resources en -> same_kinds en en'.
Proof. intros Hn Hr. split; [done|]. intros r. unfold kind_at. by rewrite Hr. Qed.

(** Replacing a live resource by one of the same kind. *)
Lemma same_kinds_insert en r res res' :
  resources en !! r = Some res -> kind_of res' = kind_of res ->
  same_kinds en (mkEngine (next_rid en) (<[r := res']> (resources en)) (log en)).
Proof.
  intros Hr Hk. split; [done|]. intros r'. unfold kind_at. simpl.
  destruct (decide (r = r')) as [<-|Hne].
  - rewrite lookup_insert_eq, Hr. cbn. by rewrite Hk.
  - by rewrite lookup_insert_ne.
Qed.

Lemma same_kinds_report e en : same_kinds en (report e en).
Proof. by apply same_kinds_resources. Qed.

Lemma same_kinds_report_all es en : same_kinds en (report_all es en).
Proof. by apply same_kinds_resources. Qed.

Lemma same_kinds_emit ev en : same_kinds en (emit ev en).
Proof. by apply same_kinds_resources. Qed.

Lemma same_kinds_material_set_param m name v en : same_kinds en (material_set_param m name v en).
Proof. unfold material_set_param. repeat case_match; try apply same_kinds_report. by eapply same_kinds_insert. Qed.

Lemma same_kinds_material_set_shader m sh en : same_kinds en (material_set_shader m sh en).
Proof. unfold material_set_shader. repeat case_match; try apply same_kinds_report. by eapply same_kinds_insert. Qed.

Lemma same_kinds_shader_set_code sh code en : same_kinds en (shader_set_code sh code en).
Proof. unfold shader_set_code. repeat case_match; try apply same_kinds_report. by eapply same_kinds_insert. Qed.

#[export] Hint Resolve same_kinds_report same_kinds_report_all same_kinds_emit
  same_kinds_material_set_param same_kinds_material_set_shader same_kinds_shader_set_code : t3d.

(** A parameter set on a material reads back; the others are kept. *)
Lemma material_param_set en m name v :
  kind_at en m = Some KMaterial -> material_param (material_set_param m name v en) m name = Some v.
Proof.
  unfold kind_at, material_param, material_set_param.
  destruct (resources en !! m) as [[]|] eqn:E; try discriminate. intros _.
  simpl. by rewrite lookup_insert_eq, lookup_insert_eq.
Qed.

Lemma material_param_set_ne en m name name' v :
  name' <> name -> material_param (material_set_param m name v en) m name' = material_param en m name'.
Proof.
  intros Hne. unfold material_param, material_set_param.
  destruct (resources en !! m) as [[]|] eqn:E; simpl; rewrite ?E; try done.
  by rewrite lookup_insert_eq, lookup_insert_ne.
Qed.

Lemma kind_at_material_set_param en m name v r :
  kind_at (material_set_param m name v en) r = kind_at en r.
Proof. apply same_kinds_material_set_param. Qed.

(** Freeing RIDs one after the other. *)
Definition free_all (l : list RID) (en : Engine) : Engine :=
  foldl (fun en r => free_rid r en) en l.

(** Freeing distinct live RIDs removes them and prints nothing. *)
Lemma free_all_spec l en :
  NoDup l -> (forall r, r ∈ l -> r ∈ dom (resources en)) ->
  dom (resources (free_all l en)) = dom (resources en) ∖ list_to_set l /\
  log (free_all l en) = log en.
Proof.
  revert en. induction l as [|r l IH]; intros en Hnd Hlive; simpl; [split; [set_solver|done]|].
  apply NoDup_cons in Hnd as [Hr Hnd].
  destruct (IH (free_rid r en)) as [Hdom Hlog]; [done| |].
  - intros r' Hr'. rewrite free_rid_resources, dom_delete_L.
    apply elem_of_difference. split; [set_solver|]. rewrite elem_of_singleton. by intros ->.
  - rewrite Hdom, Hlog, free_rid_resources, dom_delete_L, free_rid_log. split; [set_solver|].
    assert (Hin : r ∈ dom (resources en)) by set_solver.
    apply elem_of_dom in Hin as [? ->]. apply app_nil_r.
Qed.

Lemma free_all_wf l en : engine_wf en -> engine_wf (free_all l en).
Proof. revert en. induction l as [|r l IH]; intros en Hwf; simpl; [done|]. by apply IH, free_rid_wf. Qed.

Lemma engine_wf_intro en :
  (1 <= next_rid en)%Z -> map_Forall (fun r _ => 1 <= r < next_rid en)%Z (resources en) ->
  engine_wf en.
Proof. intros Hn Hall. split; [done|]. intros r [x Hx]. by apply (Hall r x). Qed.

(** The errors that are not the release of a dead RID. *)
Definition benign (e : err) : Prop :=
  match e with ErrFreeInvalid _ => False | _ => True end.

(** The log grows by events none of which is the release of a dead RID. *)
Definition benign_growth (en en' : Engine) : Prop :=
  exists evs, log en' = log en ++ evs /\ forall r, EvError (ErrFreeInvalid r) ∉ evs.

Lemma benign_events es :
  Forall benign es -> forall r, EvError (ErrFreeInvalid r) ∉ (EvError <$> es).
Proof.
  intros Hb r Hin. apply list_elem_of_fmap in Hin as (e & [= <-] & He).
  rewrite Forall_forall in Hb. by apply (Hb _ He).
Qed.

Lemma benign_growth_same en en' : log en' = log en -> benign_growth en en'.
Proof. intros Hl. exists []. rewrite Hl, app_nil_r. split; [done|set_solver]. Qed.

Lemma benign_growth_refl en : benign_growth en en.
Proof. by apply benign_growth_same. Qed.

Lemma benign_growth_report_all es en : Forall benign es -> benign_growth en (report_all es en).
Proof. intros Hes. exists (EvError <$> es). split; [done|]. by apply benign_events. Qed.

Lemma benign_growth_report e en : benign e -> benign_growth en (report e en).
Proof. intros He. apply (benign_growth_report_all [e]). by constructor. Qed.

Lemma benign_growth_emit ev en :
  (forall e, ev <> EvError e) -> benign_growth en (emit ev en).
Proof. intros Hev. exists [ev]. split; [done|]. intros r Hin%list_elem_of_singleton. by eapply Hev. Qed.

Lemma texture_2d_create_log img en r en' :
  texture_2d_create img en = (r, en') -> benign_growth en en'.
Proof.
  unfold texture_2d_create, alloc. case_bool_decide; intros [= <- <-];
    [by apply benign_growth_report|by apply benign_growth_same].
Qed.

Lemma texture_2d_layered_create_log layers en r en' :
  texture_2d_layered_create layers en = (r, en') -> benign_growth en en'.
Proof.
  unfold texture_2d_layered_create, alloc.
  repeat case_match; intros [= <- <-];
    first [by apply benign_growth_report|by apply benign_growth_same].
Qed.

Lemma material_set_param_log m name v en : benign_growth en (material_set_param m name v en).
Proof. unfold material_set_param. repeat case_match; first [by apply benign_growth_report|by apply benign_growth_same]. Qed.

Lemma material_set_shader_log m sh en : benign_growth en (material_set_shader m sh en).
Proof. unfold material_set_shader. repeat case_match; first [by apply benign_growth_report|by apply benign_growth_same]. Qed.

Lemma shader_set_code_log sh code en : benign_growth en (shader_set_code sh code en).
Proof. unfold shader_set_code. repeat case_match; first [by apply benign_growth_report|by apply benign_growth_same]. Qed.

(** ** Pixels written and read back *)

Lemma image_set_pixelv_in p c img :
  in_image p img -> image_set_pixelv p c img =
    Some (mkImage (img_width img) (img_height img) (img_format img) (img_base img)
            (<[p := store (img_format img) c]> (img_writes img))).
Proof. intros Hin. unfold image_set_pixelv. by rewrite decide_True. Qed.

Lemma image_set_pixelv_out p c img :
  ~ in_image p img -> image_set_pixelv p c img = None.
Proof. intros Hn. unfold image_set_pixelv. by rewrite decide_False. Qed.

Lemma image_set_pixelv_wf p c img img' :
  image_wf img -> image_set_pixelv p c img = Some img' -> image_wf img'.
Proof.
  unfold image_set_pixelv. intros Hwf. case_decide; [|done]. by intros [= <-].
Qed.

(** Reading the pixel just written gives the stored colour; the other
    pixels are unchanged. *)
Lemma image_get_set_pixelv p q c img img' :
  image_wf img -> image_set_pixelv p c img = Some img' -> in_image q img ->
  image_get_pixel q img' =
    if decide (p = q) then Some (store (img_format img) c) else image_get_pixel q img.
Proof.
  intros _ Hs Hq. unfold image_set_pixelv in Hs. case_decide; [|done].
  injection Hs as <-. unfold image_get_pixel. simpl.
  rewrite !decide_True by done. rewrite lookup_insert.
  destruct (decide (p = q)); [reflexivity|]. by rewrite decide_True.
Qed.

Lemma image_create_wf w h fmt :
  (0 <= w)%Z -> (0 <= h)%Z -> image_wf (image_create w h fmt).
Proof. intros. by split. Qed.

Lemma image_fill_wf c img : image_wf img -> image_wf (image_fill c img).
Proof. done. Qed.

(** Every pixel of a filled image has the fill colour. *)
Lemma image_get_fill q c img :
  image_wf img -> in_image q img -> image_get_pixel q (image_fill c img) = Some (store (img_format img) c).
Proof. intros _ Hq. unfold image_get_pixel. simpl. by rewrite decide_True. Qed.

(** What the shader reads from an 8-bit channel, scaled back by 255:
    the byte the channel was stored as. *)
Lemma Qfloor_of_byte b : Qfloor (of_byte b * 255) = b.
Proof.
  unfold of_byte, Qfloor. cbn -[Z.mul Z.div].
  change (Z.pos (255 * 1)) with 255%Z. by rewrite Z.div_mul.
Qed.

#[export] Hint Resolve image_set_pixelv_wf image_create_wf image_fill_wf : t3d.
