(* ===== verification/GeneratedCache.v ===== *)
(** * The [Generated] cache of one derived GPU resource

    [struct Generated] of [src/unnamed/part_000] (lines 34-45) and its
    methods in [src/src/terrain_storage.cpp] (lines 9-33): a RID of the
    rendering server, the image a single texture was made from, and a
    dirty flag.  [clear] releases the RID and marks the cache dirty;
    [create] (two overloads) asks the server for a new texture and marks
    the cache clean.

    Proved here:
    - the ownership accounting of one cache: the RIDs of the server are
      those of the rest of the world plus the one the cache holds, before
      and after each method, provided [create] is only called on a cache
      that holds no RID (which the storage guarantees by calling it only
      on dirty caches, see [dirty_no_rid]);
    - [clear] never frees a RID the server does not hold;
    - the specification's three-state lifecycle (Empty / Dirty / Clean)
      as an abstract model and the refinement of it by [clear] and
      [create], with the one place where the code departs from it: a
      build from an empty source leaves the cache Dirty, not Empty. *)

From S2P Require Import Prelude Godot.

Module Generated.

Record t := mk {
  rid : RID;              (* RID rid = RID(); *)
  image : option Image;   (* Ref<Image> image; *)
  dirty : bool            (* bool dirty = false; *)
}.

(** The value of the field initialisers. *)
Definition init : t := mk 0 None false.

Definition is_dirty (g : t) : bool := dirty g.
Definition get_rid (g : t) : RID := rid g.

(** [Generated::clear()]. *)
Definition clear (g : t) (en : Engine) : t * Engine :=
  let en' := if rid_is_valid (rid g) then free_rid (rid g) en else en in
  (mk 0 None true, en').

(** [Generated::create(const TypedArray<Image> &p_layers)]: an array
    texture of the layers, or [clear()] when there are none. *)
Definition create_layers (layers : list (option Image)) (g : t) (en : Engine) : t * Engine :=
  match layers with
  | [] => clear g en
  | _ => let '(r, en') := texture_2d_layered_create layers en in
         (mk r (image g) false, en')
  end.

(** [Generated::create(const Ref<Image> &p_image)]. *)
Definition create_image (img : Image) (g : t) (en : Engine) : t * Engine :=
  let '(r, en') := texture_2d_create img en in
  (mk r (Some img) false, en').

(** ** Ownership of the RID *)

(** The RIDs the cache holds: its RID when it is valid. *)
Definition held (g : t) : gset Z :=
  if rid_is_valid (rid g) then {[rid g]} else ∅.

(** The server's live RIDs are [X], owned by the rest of the world, and
    the cache's own, disjoint from [X]. *)
Definition owns (X : gset Z) (g : t) (en : Engine) : Prop :=
  dom (resources en) = X ∪ held g /\ X ## held g.

Lemma held_invalid g : rid g = 0%Z -> held g = ∅.
Proof. intros H. unfold held. by rewrite H. Qed.

(** The cache holds no RID whenever it is dirty: [clear] is the only
    method that sets the flag, and it resets the RID. *)
Definition dirty_no_rid (g : t) : Prop := dirty g = true -> rid g = 0%Z.

Lemma init_dirty_no_rid : dirty_no_rid init.
Proof. done. Qed.

Lemma clear_spec g en g' en' :
  clear g en = (g', en') ->
  rid g' = 0%Z /\ image g' = None /\ dirty g' = true /\
  resources en' = (if rid_is_valid (rid g) then delete (rid g) (resources en)
                   else resources en).
Proof.
  unfold clear. intros [= <- <-]. do 3 (split; [done|]).
  case_match; [apply free_rid_resources|done].
Qed.

Lemma clear_owns X g en g' en' :
  owns X g en -> clear g en = (g', en') -> owns X g' en'.
Proof.
  intros [Hdom Hdisj] (Hr & _ & _ & Hres)%clear_spec.
  unfold owns. rewrite (held_invalid g' Hr), Hres. revert Hdom Hdisj.
  unfold held. destruct (rid_is_valid (rid g)).
  - intros Hdom Hdisj. rewrite dom_delete_L, Hdom. split; set_solver.
  - intros Hdom _. rewrite Hdom. split; set_solver.
Qed.

(** [clear] frees only a live RID: it prints no error. *)
Lemma clear_log X g en g' en' :
  owns X g en -> clear g en = (g', en') -> log en' = log en.
Proof.
  unfold clear, held. intros [Hdom _] [= <- <-].
  destruct (rid_is_valid (rid g)) eqn:Hv; [|done].
  rewrite free_rid_log.
  unfold held in Hdom. rewrite Hv in Hdom.
  assert (Hin : rid g ∈ dom (resources en)) by (rewrite Hdom; set_solver).
  apply elem_of_dom in Hin as [? ->]. by rewrite app_nil_r.
Qed.

Lemma clear_wf g en g' en' :
  engine_wf en -> clear g en = (g', en') -> engine_wf en'.
Proof. unfold clear. intros ? [= <- <-]. case_match; auto with t3d. Qed.

Lemma clear_dirty_no_rid g en g' en' :
  clear g en = (g', en') -> dirty_no_rid g'.
Proof. intros (Hr & _)%clear_spec _. exact Hr. Qed.

(** A created RID is fresh, so the cache that held none now holds a RID
    that nobody else owns. *)
Lemma created_owns X res g r en en' im :
  owns X g en -> rid g = 0%Z -> created res en r en' ->
  owns X (mk r im false) en'.
Proof.
  intros [Hdom _] H0 Hc. rewrite (held_invalid g H0) in Hdom.
  unfold owns, held. simpl.
  destruct Hc as [[-> Hres] | (Hv & Hnone & Hres)].
  - simpl. rewrite Hres, Hdom. split; set_solver.
  - rewrite Hv, Hres, dom_insert_L, Hdom. split; [set_solver|].
    apply not_elem_of_dom in Hnone. rewrite Hdom in Hnone. set_solver.
Qed.

Lemma create_layers_owns X layers g en g' en' :
  engine_wf en -> owns X g en -> rid g = 0%Z ->
  create_layers layers g en = (g', en') -> owns X g' en' /\ engine_wf en'.
Proof.
  intros Hwf Hown H0. unfold create_layers. destruct layers as [|l ls].
  - intros Hc. split; [by eapply clear_owns|by eapply clear_wf].
  - destruct (texture_2d_layered_create (l :: ls) en) as [r en1] eqn:Ec.
    intros [= <- <-].
    destruct (texture_2d_layered_create_spec _ _ _ _ Hwf Ec)
      as [Hwf' [[-> Hres] | (imgs & _ & Hc)]]; split; try done.
    + eapply (created_owns _ (RTextureLayered [])); [done..|]. by left.
    + by eapply created_owns.
Qed.

Lemma create_image_owns X img g en g' en' :
  engine_wf en -> owns X g en -> rid g = 0%Z ->
  create_image img g en = (g', en') -> owns X g' en' /\ engine_wf en'.
Proof.
  intros Hwf Hown H0. unfold create_image.
  destruct (texture_2d_create img en) as [r en1] eqn:Ec. intros [= <- <-].
  destruct (texture_2d_create_spec _ _ _ _ Hwf Ec) as [Hc Hwf'].
  split; [by eapply created_owns|done].
Qed.

(** ** The lifecycle of the specification (section 4.3) *)

(** Empty: never built; Dirty: stale, to be rebuilt; Clean: the server
    holds [content] under the cache's RID. *)
Inductive life := Empty | Dirty | Clean (content : Resource).

(** The abstraction of a cache and the server to the lifecycle. *)
Definition life_of (g : t) (en : Engine) : life :=
  if dirty g then Dirty
  else if rid_is_valid (rid g) then
    match resources en !! rid g with Some c => Clean c | None => Empty end
  else Empty.

(** The transitions the specification prescribes: invalidation makes a
    cache Dirty; a build makes it Clean with the source's content, or
    Empty when the source is empty. *)
Definition spec_invalidate (l : life) : life := Dirty.
Definition spec_build (src : option Resource) (l : life) : life :=
  match src with Some c => Clean c | None => Empty end.

Lemma clear_refines g en g' en' :
  clear g en = (g', en') -> life_of g' en' = spec_invalidate (life_of g en).
Proof. intros (_ & _ & Hd & _)%clear_spec. unfold life_of. by rewrite Hd. Qed.

Lemma created_life res en r en' im :
  rid_is_valid r = true -> created res en r en' ->
  life_of (mk r im false) en' = Clean res.
Proof.
  intros Hv [[-> _] | (_ & _ & Hres)]; [done|].
  unfold life_of. simpl. by rewrite Hv, Hres, lookup_insert_eq.
Qed.

(** A build from well-formed layers holds a fresh RID naming them. *)
Lemma create_layers_built layers i0 rest g en g' en' :
  engine_wf en -> layers_images layers = Some (i0 :: rest) ->
  same_shape i0 rest = true ->
  create_layers layers g en = (g', en') ->
  rid g' = next_rid en /\ rid_is_valid (rid g') = true /\ dirty g' = false /\
  resources en !! rid g' = None /\
  resources en' = <[rid g' := RTextureLayered (i0 :: rest)]> (resources en) /\ engine_wf en'.
Proof.
  intros Hwf Himg Hshape. unfold create_layers, layers_images in *.
  destruct layers as [|l ls]; [done|].
  destruct (texture_2d_layered_create (l :: ls) en) as [r en1] eqn:Ec.
  intros [= <- <-]. unfold texture_2d_layered_create in Ec.
  rewrite Himg, Hshape in Ec.
  pose proof Ec as Ec'. unfold alloc in Ec'. injection Ec' as Hr _.
  destruct (alloc_spec _ _ _ _ Hwf Ec) as (Hv & Hn & Hres & Hwf' & _). by split_and!.
Qed.

(** A build from a non-empty list frees nothing: every live resource
    stays. *)
Lemma create_layers_grows layers g en g' en' :
  engine_wf en -> layers <> [] -> create_layers layers g en = (g', en') ->
  engine_wf en' /\ resources en ⊆ resources en'.
Proof.
  intros Hwf Hne. unfold create_layers. destruct layers as [|l ls]; [done|].
  destruct (texture_2d_layered_create (l :: ls) en) as [r en1] eqn:Ec. intros [= _ <-].
  destruct (texture_2d_layered_create_spec _ _ _ _ Hwf Ec) as [Hwf' [[_ ->]|(imgs & _ & [[_ ->]|(_ & Hn & ->)])]];
    split; try done. by apply insert_subseteq.
Qed.

(** (C23) A build from well-formed layers makes the cache Clean, holding
    exactly those layers. *)
Lemma create_layers_refines layers i0 rest g en g' en' :
  engine_wf en -> layers_images layers = Some (i0 :: rest) ->
  same_shape i0 rest = true ->
  create_layers layers g en = (g', en') ->
  life_of g' en' = spec_build (Some (RTextureLayered (i0 :: rest))) (life_of g en).
Proof.
  intros Hwf Himg Hshape Hc.
  destruct (create_layers_built _ _ _ _ _ _ _ Hwf Himg Hshape Hc) as (_ & Hv & Hd & _ & Hres & _).
  unfold life_of. rewrite Hd, Hv, Hres, lookup_insert_eq. done.
Qed.

Lemma create_layers_refines_witness :
  let img := image_create 4 4 FORMAT_RH in
  life_of (create_layers [Some img; Some img] init engine_init).1
          (create_layers [Some img; Some img] init engine_init).2 =
    spec_build (Some (RTextureLayered [img; img])) (life_of init engine_init).
Proof.
  intros img. eapply (create_layers_refines [Some img; Some img] img [img]).
  - apply engine_init_wf.
  - reflexivity.
  - vm_compute. reflexivity.
  - by destruct (create_layers _ _ _).
Defined.

Lemma create_image_refines img g en g' en' :
  engine_wf en -> (0 < img_width img)%Z -> (0 < img_height img)%Z ->
  create_image img g en = (g', en') ->
  life_of g' en' = spec_build (Some (RTexture2D img)) (life_of g en).
Proof.
  intros Hwf Hw Hh. unfold create_image.
  destruct (texture_2d_create img en) as [r en1] eqn:Ec. intros [= <- <-].
  unfold texture_2d_create in Ec. rewrite bool_decide_false in Ec by lia.
  destruct (alloc_spec _ _ _ _ Hwf Ec) as (Hv & Hn & Hres & _).
  apply (created_life _ en); [done|]. by right.
Qed.
End Generated.
