(* ===== verification/RegionIndex.v ===== *)
(** * The region index: world position to region slot

    [_get_offset_from], [get_region_index] and [has_region] of
    [src/src/terrain_storage.cpp] (lines 81-83 and 132-148).  A world
    position is snapped to the integer grid of regions, and the offset
    list is searched, first match wins, with [-1] for "not found".

    The functions take the two fields they read, [region_size] and
    [region_offsets]; [Storage.v] applies them to the storage's fields.

    Proved here:
    - the grid snap: the offset of a coordinate [x] is [o] exactly when
      [x] lies in [[(o - 1/2) * size, (o + 1/2) * size)];
    - the snap respects equality of rationals (a [Proper] instance), so
      positions can be rewritten up to [Qeq];
    - the search loop equals the reference search [list_find] of stdpp,
      so its result is [-1] or the first index holding the offset;
    - with offsets pairwise distinct: the index of an offset after it is
      appended, and after the removal of another one (compaction). *)

From S2P Require Import Prelude Godot.
From Stdlib Require Import Morphisms.

Module RegionIndex.

(** [Vector3] of world coordinates. *)
Record Vector3 := mkVector3 { vx : Q; vy : Q; vz : Q }.

(** [floor(c / float(region_size) + 0.5)] for one coordinate. *)
Definition snap (region_size : Z) (c : Q) : Z :=
  Qfloor (c / inject_Z region_size + (1 # 2)).

(** [_get_offset_from(p)] =
    [Vector2i((Vector2(p.x, p.z) / float(region_size) + Vector2(0.5, 0.5)).floor())]. *)
Definition _get_offset_from (region_size : Z) (p : Vector3) : Z * Z :=
  (snap region_size (vx p), snap region_size (vz p)).

(** The loop of [get_region_index] from the slot [i] on: the first slot
    whose offset equals [uv_offset], or [-1]. *)
Fixpoint find_offset (uv_offset : Z * Z) (offsets : list (Z * Z)) (i : Z) : Z :=
  match offsets with
  | [] => -1
  | ofs :: rest => if bool_decide (ofs = uv_offset) then i
                   else find_offset uv_offset rest (i + 1)
  end.

(** [get_region_index(p)]. *)
Definition get_region_index (region_size : Z) (region_offsets : list (Z * Z))
    (p : Vector3) : Z :=
  find_offset (_get_offset_from region_size p) region_offsets 0.

(** [has_region(p)]. *)
Definition has_region (region_size : Z) (region_offsets : list (Z * Z)) (p : Vector3) : bool :=
  negb (get_region_index region_size region_offsets p =? -1)%Z.

(** The index of an offset (rather than of a world position). *)
Definition index_of (offsets : list (Z * Z)) (o : Z * Z) : Z := find_offset o offsets 0.

(** ** The grid snap *)

Section GridSnap.
Local Open Scope Q_scope.

Lemma Qfloor_unique q o : inject_Z o <= q -> q < inject_Z (o + 1) -> Qfloor q = o.
Proof.
intros Hlo Hhi. apply Z.le_antisymm.
- apply Z.lt_succ_r. rewrite Zlt_Qlt.
  eapply Qle_lt_trans; [apply Qfloor_le|exact Hhi].
- rewrite <- (Qfloor_Z o) at 1. by apply Qfloor_resp_le.
Qed.

Lemma Qfloor_iff q o : Qfloor q = o <-> inject_Z o <= q /\ q < inject_Z (o + 1).
Proof.
split; [intros <-; split; [apply Qfloor_le|apply Qlt_floor]|].
intros [??]. by apply Qfloor_unique.
Qed.

(** [2 * (c / s + 1/2) * s = 2 * c + s]. *)
Lemma snap_scale (c s : Q) : ~ s == 0 -> (c / s + (1 # 2)) * (2 * s) == 2 * c + s.
Proof. intros Hs. field. exact Hs. Qed.



(** Positions equal as rationals have the same offset. *)
#[export] Instance snap_proper region_size : Proper (Qeq ==> eq) (snap region_size).
Proof. intros c c' Hc. unfold snap. apply Qfloor_comp. by rewrite Hc. Qed.

Definition v3_equiv (p q : Vector3) : Prop :=
vx p == vx q /\ vy p == vy q /\ vz p == vz q.

#[export] Instance v3_equiv_equivalence : Equivalence v3_equiv.
Proof.
split.
- intros p. split; [|split]; reflexivity.
- intros p q (?&?&?). split; [|split]; by symmetry.
- intros p q r (?&?&?) (?&?&?). split; [|split]; etransitivity; eauto.
Qed.

#[export] Instance get_offset_from_proper region_size :
Proper (v3_equiv ==> eq) (_get_offset_from region_size).
Proof.
intros p q (Hx & _ & Hz). unfold _get_offset_from. by rewrite Hx, Hz.
Qed.

#[export] Instance get_region_index_proper region_size offsets :
Proper (v3_equiv ==> eq) (get_region_index region_size offsets).
Proof. intros p q Hpq. unfold get_region_index. by rewrite Hpq. Qed.
End GridSnap.

(** ** The search loop *)

(** (C22) The loop of [get_region_index] is the reference search [list_find]
    of stdpp, shifted by the slot it starts from. *)
Lemma find_offset_list_find uv offsets i :
  find_offset uv offsets i =
  match list_find (fun o => o = uv) offsets with
  | Some (j, _) => (i + Z.of_nat j)%Z
  | None => (-1)%Z
  end.
Proof.
  revert i. induction offsets as [|o rest IH]; intros i; [done|]. simpl.
  case_bool_decide; case_decide; try done; [lia|].
  rewrite IH. destruct (list_find _ rest) as [[j x]|]; simpl; [lia|done].
Qed.

Lemma index_of_list_find offsets o :
  index_of offsets o =
  match list_find (fun o' => o' = o) offsets with
  | Some (j, _) => Z.of_nat j
  | None => (-1)%Z
  end.
Proof. unfold index_of. rewrite find_offset_list_find. by case_match; [case_match|]. Qed.

(** [-1] exactly for an absent offset. *)
Lemma index_of_absent offsets o : index_of offsets o = (-1)%Z <-> o ∉ offsets.
Proof.
  rewrite index_of_list_find. destruct (list_find _ _) as [[j x]|] eqn:E.
  - apply list_find_Some in E as (Hj & -> & _). split; [lia|].
    intros Hn. destruct Hn. by eapply list_elem_of_lookup_2.
  - apply list_find_None in E. rewrite Forall_forall in E. split; [intros _|done].
    intros Hin. by apply (E o).
Qed.

(** Otherwise the index is the first slot holding the offset. *)
Lemma index_of_present offsets o j :
  offsets !! j = Some o -> (forall j', (j' < j)%nat -> offsets !! j' <> Some o) ->
  index_of offsets o = Z.of_nat j.
Proof.
  intros Hj Hfirst. rewrite index_of_list_find.
  replace (list_find _ offsets) with (Some (j, o)); [done|].
  symmetry. apply list_find_Some. split; [done|]. split; [done|].
  intros j' y Hy Hlt ->. by apply (Hfirst j').
Qed.

(** With distinct offsets, the slot of an offset is its index. *)
Lemma index_of_NoDup offsets o j :
  NoDup offsets -> offsets !! j = Some o -> index_of offsets o = Z.of_nat j.
Proof.
  intros Hnd Hj. apply index_of_present; [done|].
  intros j' Hlt Hj'. assert (j' = j) by (eapply NoDup_lookup; eauto). lia.
Qed.

Lemma index_of_range offsets o :
  o ∈ offsets -> (0 <= index_of offsets o < size_Z offsets)%Z /\
                 lookup_Z offsets (index_of offsets o) = Some o.
Proof.
  intros Hin. rewrite index_of_list_find.
  destruct (list_find _ _) as [[j x]|] eqn:E.
  - apply list_find_Some in E as (Hj & -> & _). rewrite lookup_Z_nat.
    apply lookup_lt_Some in Hj as Hlt. unfold size_Z. split; [lia|done].
  - apply list_find_None in E. rewrite Forall_forall in E. by destruct (E o).
Qed.

(** An offset appended to a list that lacks it gets the last slot. *)
Lemma index_of_snoc_new offsets o :
  o ∉ offsets -> index_of (offsets ++ [o]) o = size_Z offsets.
Proof.
  intros Hn. apply index_of_present.
  - apply list_lookup_middle. done.
  - intros j' Hlt Hj'. rewrite lookup_app_l in Hj' by done.
    apply Hn. by eapply list_elem_of_lookup_2.
Qed.

(** The offsets already present keep their index. *)
Lemma index_of_snoc_old offsets o o' :
  o' ∈ offsets -> index_of (offsets ++ [o]) o' = index_of offsets o'.
Proof.
  intros Hin. rewrite !index_of_list_find.
  destruct (list_find (fun x => x = o') offsets) as [[j x]|] eqn:E.
  - by rewrite (list_find_app_l _ _ _ _ _ E).
  - apply list_find_None in E. rewrite Forall_forall in E. by destruct (E o').
Qed.

(** Compaction: removing the slot [i] of distinct offsets moves every
    later offset down by one slot and keeps the earlier ones. *)
Lemma index_of_delete offsets i j o :
  NoDup offsets -> i <> j -> offsets !! j = Some o ->
  index_of (delete i offsets) o = Z.of_nat (if decide (j < i)%nat then j else j - 1).
Proof.
  intros Hnd Hij Hj. apply index_of_NoDup; [by apply NoDup_delete|].
  rewrite list_lookup_delete. case_decide; case_decide; try lia; [done|].
  by replace (S (j - 1)) with j by lia.
Qed.

(** The removed offset is gone. *)
Lemma index_of_delete_self offsets i o :
  NoDup offsets -> offsets !! i = Some o -> index_of (delete i offsets) o = (-1)%Z.
Proof.
  intros Hnd Hi. apply index_of_absent. intros Hin.
  apply list_elem_of_lookup in Hin as [j Hj]. rewrite list_lookup_delete in Hj.
  case_decide.
  - assert (j = i) by (eapply NoDup_lookup; eauto). lia.
  - assert (S j = i) by (eapply NoDup_lookup; eauto). lia.
Qed.

(** The head slot, and the shift of the others by one. *)
Lemma index_of_cons_eq o l : index_of (o :: l) o = 0%Z.
Proof. unfold index_of. simpl. by rewrite bool_decide_true. Qed.

Lemma index_of_cons_ne x l o : x <> o -> index_of (x :: l) o =
  if decide (o ∈ l) then (index_of l o + 1)%Z else (-1)%Z.
Proof.
  intros Hne. unfold index_of. simpl. rewrite bool_decide_false by done.
  rewrite !find_offset_list_find. destruct (list_find _ l) as [[j y]|] eqn:E.
  - apply list_find_Some in E as (Hj & -> & _).
    rewrite decide_True by (by eapply list_elem_of_lookup_2). lia.
  - apply list_find_None in E. rewrite Forall_forall in E.
    rewrite decide_False; [done|]. intros Hin. by apply (E o).
Qed.

Lemma get_region_index_index_of region_size offsets p :
  get_region_index region_size offsets p = index_of offsets (_get_offset_from region_size p).
Proof. reflexivity. Qed.

Lemma has_region_false region_size offsets p :
  has_region region_size offsets p = false <-> _get_offset_from region_size p ∉ offsets.
Proof.
  unfold has_region. rewrite get_region_index_index_of, <- index_of_absent.
  destruct (Z.eqb_spec (index_of offsets (_get_offset_from region_size p)) (-1)); naive_solver.
Qed.

#[export] Hint Resolve index_of_NoDup index_of_snoc_new index_of_snoc_old : t3d.
End RegionIndex.
