(* ===== verification/RegionMap.v ===== *)
(** * The region map: encoding region indices in a 16x16 image

    The region-map branch of [_update_regions]
    ([src/src/terrain_storage.cpp], lines 358-372) builds a 16x16 image
    of format [RG8], black, and writes in the cell [offset + (8, 8)] of
    each region [i] the colour [((i + 1) / 255, 1, 0, 1)].  The shader
    ([get_height], lines 438-448 of the same file) reads the cell of a
    world position back as [floor(r * 255)]: [0] for "no region",
    otherwise the region's index plus one.

    Proved here:
    - the round trip: for distinct offsets inside the grid and at most
      255 regions, the shader's reading of every cell is the index that
      [get_region_index] gives for that offset, plus one (so [0] exactly
      where there is no region);
    - the encoder reports an error exactly for the regions whose offset
      lies outside the 16x16 grid, and leaves their cell empty;
    - the limits of the encoding: region 255 (the 256th) is read back as
      region 254, and a region outside the grid is invisible. *)

From S2P Require Import Prelude Godot RegionIndex.
Import RegionIndex.

Module RegionMap.

(** [const int region_map_size = 16;] *)
Definition region_map_size : Z := 16.

(** [Color(float(i + 1) / 255.0, 1.0, 0, 1)]. *)
Definition region_color (i : Z) : Color := mkColor (inject_Z (i + 1) / 255) 1 0 1.

(** [ofs + (Vector2i(region_map_size, region_map_size) / 2)]. *)
Definition cell_of (ofs : Z * Z) : Z * Z :=
  (ofs.1 + region_map_size / 2, ofs.2 + region_map_size / 2)%Z.

(** The loop [for (i = 0; i < region_offsets.size(); i++)] from slot
    [i] on, with the errors [set_pixelv] reports, in order. *)
Fixpoint paint_regions (offsets : list (Z * Z)) (i : Z) (image : Image) : Image * list err :=
  match offsets with
  | [] => (image, [])
  | ofs :: rest =>
      let p := cell_of ofs in
      match image_set_pixelv p (region_color i) image with
      | Some image' => paint_regions rest (i + 1) image'
      | None => let '(img, errs) := paint_regions rest (i + 1) image in
                (img, ErrPixelIndex p.1 p.2 :: errs)
      end
  end.

(** [Image::create(region_map_size, region_map_size, false, FORMAT_RG8)],
    [fill(Color(0, 0, 0, 1))], then the loop. *)
Definition build_region_map (offsets : list (Z * Z)) : Image * list err :=
  let image := image_create region_map_size region_map_size FORMAT_RG8 in
  let image := image_fill (mkColor 0 0 0 1) image in
  paint_regions offsets 0 image.

(** The shader's [floor(texelFetch(region_map, ivec2(floor(uv)) +
    (region_map_size / 2), 0).r * 255.0)] for the offset [ofs]; a fetch
    outside the texture reads black. *)
Definition region_index_at (image : Image) (ofs : Z * Z) : Z :=
  match image_get_pixel (cell_of ofs) image with
  | Some c => Qfloor (c_r c * 255)
  | None => 0
  end.

(** The offsets whose cell is inside the map. *)
Definition in_map (ofs : Z * Z) : Prop :=
  (- (region_map_size / 2) <= ofs.1 < region_map_size / 2)%Z /\
  (- (region_map_size / 2) <= ofs.2 < region_map_size / 2)%Z.

#[export] Instance in_map_dec ofs : Decision (in_map ofs).
Proof. unfold in_map. apply _. Defined.

(** ** Lemmas *)

(** A map image: 16x16, [RG8], one entry per pixel. *)
Definition map_image (img : Image) : Prop :=
  image_wf img /\ img_width img = region_map_size /\ img_height img = region_map_size /\
  img_format img = FORMAT_RG8.

Lemma in_map_cell ofs img : map_image img -> in_map ofs <-> in_image (cell_of ofs) img.
Proof.
  intros (_ & Hw & Hh & _). unfold in_map, in_image, cell_of, region_map_size in *.
  simpl. rewrite Hw, Hh. change (16 / 2)%Z with 8%Z. lia.
Qed.

Lemma cell_of_inj o o' : cell_of o = cell_of o' -> o = o'.
Proof.
  destruct o, o'. unfold cell_of. simpl. intros [= H1 H2].
  f_equal; lia.
Qed.

(** The byte a channel [n / 255] is stored as. *)
Lemma to_byte_div_255 n : (0 <= n <= 255)%Z -> to_byte (inject_Z n / 255) = n.
Proof.
  intros Hn. unfold to_byte, Qfloor. cbn -[Z.mul Z.div].
  change (Z.pos (1 * 255 * 1)) with 255%Z. rewrite Z.mul_1_r, Z.div_mul by lia. lia.
Qed.

Lemma region_color_read i : (0 <= i + 1 <= 255)%Z ->
  Qfloor (c_r (store FORMAT_RG8 (region_color i)) * 255) = (i + 1)%Z.
Proof. intros Hi. cbn [store c_r region_color]. by rewrite Qfloor_of_byte, to_byte_div_255. Qed.

Lemma map_image_set img img' p c :
  map_image img -> image_set_pixelv p c img = Some img' -> map_image img'.
Proof.
  intros (Hwf & Hw & Hh & Hf) Hs. split; [by eapply image_set_pixelv_wf|].
  destruct (decide (in_image p img)) as [Hin|Hin];
    [|by rewrite image_set_pixelv_out in Hs].
  rewrite image_set_pixelv_in in Hs by done. by injection Hs as <-.
Qed.

(** The loop writes each region's colour in its cell and leaves the
    other cells alone. *)
Lemma paint_regions_spec offsets k img o :
  map_image img -> NoDup offsets -> Forall in_map offsets ->
  (0 <= k)%Z -> (k + size_Z offsets <= 255)%Z -> in_map o ->
  region_index_at (paint_regions offsets k img).1 o =
    if decide (o ∈ offsets) then (k + index_of offsets o + 1)%Z
    else region_index_at img o.
Proof.
  revert k img. induction offsets as [|ofs rest IH]; intros k img Himg Hnd Hin Hk Hlen Ho.
  { cbn [paint_regions fst]. by rewrite decide_False by set_solver. }
  apply NoDup_cons in Hnd as [Hnotin Hnd]. apply Forall_cons in Hin as [Hofs Hin].
  unfold size_Z in Hlen. simpl in Hlen.
  pose proof Hofs as Hcell. rewrite (in_map_cell _ img Himg) in Hcell.
  cbn [paint_regions]. rewrite image_set_pixelv_in by done.
  set (img' := mkImage _ _ _ _ _).
  assert (Hs : image_set_pixelv (cell_of ofs) (region_color k) img = Some img')
    by (by rewrite image_set_pixelv_in).
  pose proof (map_image_set _ _ _ _ Himg Hs) as Himg'.
  rewrite IH by (try done; unfold size_Z; lia).
  destruct (decide (ofs = o)) as [<-|Hne].
  - rewrite decide_False by done. rewrite decide_True by set_solver.
    rewrite index_of_cons_eq. unfold region_index_at.
    rewrite (image_get_set_pixelv _ _ _ _ _ (proj1 Himg) Hs) by done.
    rewrite decide_True by done. destruct Himg as (_ & _ & _ & ->).
    rewrite region_color_read by lia. lia.
  - rewrite (index_of_cons_ne _ _ _ Hne).
    destruct (decide (o ∈ rest)) as [Hr|Hr].
    + rewrite decide_True by set_solver. lia.
    + rewrite decide_False by set_solver. unfold region_index_at.
      rewrite (in_map_cell _ img Himg) in Ho.
      rewrite (image_get_set_pixelv _ _ _ _ _ (proj1 Himg) Hs) by done.
      rewrite decide_False; [done|]. by intros ?%cell_of_inj.
Qed.

(** The errors of the loop: one per region outside the map, in order. *)
Lemma paint_regions_errors offsets k img :
  map_image img ->
  (paint_regions offsets k img).2 =
    (fun o => ErrPixelIndex (cell_of o).1 (cell_of o).2) <$>
      filter (fun o => ~ in_map o) offsets.
Proof.
  revert k img. induction offsets as [|ofs rest IH]; intros k img Himg; [done|].
  cbn [paint_regions]. rewrite filter_cons.
  destruct (decide (in_map ofs)) as [Hin|Hout].
  - pose proof Hin as Hc. rewrite (in_map_cell _ img Himg) in Hc.
    destruct (image_set_pixelv (cell_of ofs) (region_color k) img) eqn:Hs;
      [|by rewrite image_set_pixelv_in in Hs].
    rewrite decide_False by tauto. apply IH. by eapply map_image_set.
  - pose proof Hout as Hc. rewrite (in_map_cell _ img Himg) in Hc.
    rewrite image_set_pixelv_out by done.
    destruct (paint_regions rest (k + 1) img) as [i errs] eqn:Hp.
    rewrite decide_True by done. simpl. f_equal.
    specialize (IH (k + 1)%Z img Himg). by rewrite Hp in IH.
Qed.

Definition blank : Image :=
  image_fill (mkColor 0 0 0 1) (image_create region_map_size region_map_size FORMAT_RG8).

Lemma blank_map_image : map_image blank.
Proof.
  split; [|done]. apply image_fill_wf, image_create_wf; unfold region_map_size; lia.
Qed.

(** A cell of the black image reads as "no region". *)
Lemma blank_read o : in_map o -> region_index_at blank o = 0%Z.
Proof.
  intros Ho. unfold region_index_at. rewrite (in_map_cell _ blank blank_map_image) in Ho.
  unfold blank. rewrite image_get_fill; [reflexivity| |exact Ho].
  apply image_create_wf; unfold region_map_size; lia.
Qed.

(** (C4) The region map and the index agree: for distinct offsets inside
    the 16x16 grid and at most 255 regions, the shader's reading of the
    cell of every offset of the grid is the index [get_region_index]
    gives for it plus one; [0] exactly where there is no region. *)
Theorem build_region_map_roundtrip offsets o :
  NoDup offsets -> Forall in_map offsets -> (size_Z offsets <= 255)%Z -> in_map o ->
  region_index_at (build_region_map offsets).1 o = (index_of offsets o + 1)%Z.
Proof.
  intros Hnd Hin Hlen Ho. unfold build_region_map. fold blank.
  rewrite paint_regions_spec by (try done; apply blank_map_image).
  case_decide as Hmem; [lia|].
  rewrite blank_read by done. apply index_of_absent in Hmem. lia.
Qed.

Lemma build_region_map_roundtrip_witness :
  region_index_at (build_region_map [(0, 0); (1, 0); (-8, 7)]%Z).1 (1, 0)%Z =
    (index_of [(0, 0); (1, 0); (-8, 7)]%Z (1, 0)%Z + 1)%Z.
Proof.
  apply build_region_map_roundtrip.
  - apply (bool_decide_unpack _). vm_compute. reflexivity.
  - apply (bool_decide_unpack _). vm_compute. reflexivity.
  - vm_compute. congruence.
  - apply (bool_decide_unpack _). vm_compute. reflexivity.
Defined.

(** (C24) Only the regions outside the grid raise errors, one each, in
    order, and they are left out of the map. *)
Theorem build_region_map_errors offsets :
  (build_region_map offsets).2 =
    (fun o => ErrPixelIndex (cell_of o).1 (cell_of o).2) <$>
      filter (fun o => ~ in_map o) offsets.
Proof. apply paint_regions_errors, blank_map_image. Qed.

(** The 256 cells of the grid, row after row: the most regions the map
    can show. *)
Definition full_grid : list (Z * Z) :=
  flat_map (fun x => (fun y => (x, y)) <$> seqZ (-8) 16) (seqZ (-8) 16).

(** (C25) The 256th region, of index 255, is read back by the shader as
    region 254: the channel saturates at 255, and the code does not
    reject a 256th region. *)
Theorem region_map_capacity_overflow :
  region_index_at (build_region_map full_grid).1 (7, 7)%Z = 255%Z /\
  index_of full_grid (7, 7)%Z = 255%Z /\
  region_index_at (build_region_map full_grid).1 (7, 6)%Z = 255%Z.
Proof. vm_compute. repeat split. Qed.
End RegionMap.
