(* ===== verification/Storage.v ===== *)
(** * [Terrain3DStorage]: the storage object and its methods

    The class [Terrain3DStorage] of [src/unnamed/part_000] (lines 15-130)
    and its methods in [src/src/terrain_storage.cpp].  The object's
    fields are the record [Terrain3DStorage]; the object lives in a
    [World] that also holds the [Image] objects its arrays refer to (an
    object heap: [Ref<Image>] is an object id, so an image shared with
    the editor is one object), and the [Engine] (rendering server and
    output log).  Every method is a computation of the monad [st World]
    of [Prelude.v]: it threads the world and may [Crash] on an unchecked
    array access.

    The methods are written in the order of the source; each calls the
    others exactly as the C++ code does ([add_region] calls
    [_update_regions], [set_height_maps] calls [force_update_maps], ...).
    The layer methods ([set_layer], [set_layers], [_update_layers],
    [_update_arrays], [_update_textures]) need the layer objects and
    their signals, and are in [Layers.v]. *)

From S2P Require Import Prelude Godot GeneratedCache RegionIndex RegionMap.
Import RegionIndex RegionMap.

Module Storage.

(** [enum MapType]. *)
Inductive MapType := TYPE_HEIGHT | TYPE_CONTROL | TYPE_COLOR | TYPE_MAX.

(** [enum RegionSize]: the bounds [set_region_size] checks and the
    default.  [VARIANT_ENUM_CAST] lets any [int] through as a
    [RegionSize], so a size is a [Z]. *)
Definition SIZE_64 : Z := 64.
Definition SIZE_1024 : Z := 1024.
Definition SIZE_2048 : Z := 2048.

Record Terrain3DStorage := mkStorage {
  region_size : Z; (* RegionSize region_size = SIZE_1024; *)
  max_height : Z; (* int max_height = 512; *)
  material : RID; (* RID material; *)
  shader : RID; (* RID shader; *)
  shader_override : option RID; (* Ref<Shader> shader_override: the shader's RID *)
  noise_texture : option RID; (* Ref<Texture2D> noise_texture: the texture's RID *)
  noise_scale : Q; (* float noise_scale = 1.0; *)
  noise_height : Q; (* float noise_height = 0.5; *)
  noise_fade : Q; (* float noise_fade = 5.0; *)
  layers : list (option nat); (* TypedArray<TerrainLayerMaterial3D> layers: object ids, null as None *)
  region_offsets : list (Z * Z); (* TypedArray<Vector2i> region_offsets; *)
  height_maps : list nat; (* TypedArray<Image> height_maps: image object ids *)
  control_maps : list nat; (* TypedArray<Image> control_maps; *)
  generated_region_map : Generated.t;
  generated_height_maps : Generated.t;
  generated_control_maps : Generated.t;
  generated_albedo_textures : Generated.t;
  generated_normal_textures : Generated.t;
  _initialized : bool (* bool _initialized = false; *)
}.

(** Field assignments [this->f = v]. *)
Definition with_region_size (v : Z) (s : Terrain3DStorage) : Terrain3DStorage :=
  mkStorage v (max_height s) (material s) (shader s) (shader_override s) (noise_texture s) (noise_scale s) (noise_height s) (noise_fade s) (layers s) (region_offsets s) (height_maps s) (control_maps s) (generated_region_map s) (generated_height_maps s) (generated_control_maps s) (generated_albedo_textures s) (generated_normal_textures s) (_initialized s).
Definition with_max_height (v : Z) (s : Terrain3DStorage) : Terrain3DStorage :=
  mkStorage (region_size s) v (material s) (shader s) (shader_override s) (noise_texture s) (noise_scale s) (noise_height s) (noise_fade s) (layers s) (region_offsets s) (height_maps s) (control_maps s) (generated_region_map s) (generated_height_maps s) (generated_control_maps s) (generated_albedo_textures s) (generated_normal_textures s) (_initialized s).
Definition with_material (v : RID) (s : Terrain3DStorage) : Terrain3DStorage :=
  mkStorage (region_size s) (max_height s) v (shader s) (shader_override s) (noise_texture s) (noise_scale s) (noise_height s) (noise_fade s) (layers s) (region_offsets s) (height_maps s) (control_maps s) (generated_region_map s) (generated_height_maps s) (generated_control_maps s) (generated_albedo_textures s) (generated_normal_textures s) (_initialized s).
Definition with_shader (v : RID) (s : Terrain3DStorage) : Terrain3DStorage :=
  mkStorage (region_size s) (max_height s) (material s) v (shader_override s) (noise_texture s) (noise_scale s) (noise_height s) (noise_fade s) (layers s) (region_offsets s) (height_maps s) (control_maps s) (generated_region_map s) (generated_height_maps s) (generated_control_maps s) (generated_albedo_textures s) (generated_normal_textures s) (_initialized s).
Definition with_shader_override (v : option RID) (s : Terrain3DStorage) : Terrain3DStorage :=
  mkStorage (region_size s) (max_height s) (material s) (shader s) v (noise_texture s) (noise_scale s) (noise_height s) (noise_fade s) (layers s) (region_offsets s) (height_maps s) (control_maps s) (generated_region_map s) (generated_height_maps s) (generated_control_maps s) (generated_albedo_textures s) (generated_normal_textures s) (_initialized s).
Definition with_noise_texture (v : option RID) (s : Terrain3DStorage) : Terrain3DStorage :=
  mkStorage (region_size s) (max_height s) (material s) (shader s) (shader_override s) v (noise_scale s) (noise_height s) (noise_fade s) (layers s) (region_offsets s) (height_maps s) (control_maps s) (generated_region_map s) (generated_height_maps s) (generated_control_maps s) (generated_albedo_textures s) (generated_normal_textures s) (_initialized s).
Definition with_noise_scale (v : Q) (s : Terrain3DStorage) : Terrain3DStorage :=
  mkStorage (region_size s) (max_height s) (material s) (shader s) (shader_override s) (noise_texture s) v (noise_height s) (noise_fade s) (layers s) (region_offsets s) (height_maps s) (control_maps s) (generated_region_map s) (generated_height_maps s) (generated_control_maps s) (generated_albedo_textures s) (generated_normal_textures s) (_initialized s).
Definition with_noise_height (v : Q) (s : Terrain3DStorage) : Terrain3DStorage :=
  mkStorage (region_size s) (max_height s) (material s) (shader s) (shader_override s) (noise_texture s) (noise_scale s) v (noise_fade s) (layers s) (region_offsets s) (height_maps s) (control_maps s) (generated_region_map s) (generated_height_maps s) (generated_control_maps s) (generated_albedo_textures s) (generated_normal_textures s) (_initialized s).
Definition with_noise_fade (v : Q) (s : Terrain3DStorage) : Terrain3DStorage :=
  mkStorage (region_size s) (max_height s) (material s) (shader s) (shader_override s) (noise_texture s) (noise_scale s) (noise_height s) v (layers s) (region_offsets s) (height_maps s) (control_maps s) (generated_region_map s) (generated_height_maps s) (generated_control_maps s) (generated_albedo_textures s) (generated_normal_textures s) (_initialized s).
Definition with_layers (v : list (option nat)) (s : Terrain3DStorage) : Terrain3DStorage :=
  mkStorage (region_size s) (max_height s) (material s) (shader s) (shader_override s) (noise_texture s) (noise_scale s) (noise_height s) (noise_fade s) v (region_offsets s) (height_maps s) (control_maps s) (generated_region_map s) (generated_height_maps s) (generated_control_maps s) (generated_albedo_textures s) (generated_normal_textures s) (_initialized s).
Definition with_region_offsets (v : list (Z * Z)) (s : Terrain3DStorage) : Terrain3DStorage :=
  mkStorage (region_size s) (max_height s) (material s) (shader s) (shader_override s) (noise_texture s) (noise_scale s) (noise_height s) (noise_fade s) (layers s) v (height_maps s) (control_maps s) (generated_region_map s) (generated_height_maps s) (generated_control_maps s) (generated_albedo_textures s) (generated_normal_textures s) (_initialized s).
Definition with_height_maps (v : list nat) (s : Terrain3DStorage) : Terrain3DStorage :=
  mkStorage (region_size s) (max_height s) (material s) (shader s) (shader_override s) (noise_texture s) (noise_scale s) (noise_height s) (noise_fade s) (layers s) (region_offsets s) v (control_maps s) (generated_region_map s) (generated_height_maps s) (generated_control_maps s) (generated_albedo_textures s) (generated_normal_textures s) (_initialized s).
Definition with_control_maps (v : list nat) (s : Terrain3DStorage) : Terrain3DStorage :=
  mkStorage (region_size s) (max_height s) (material s) (shader s) (shader_override s) (noise_texture s) (noise_scale s) (noise_height s) (noise_fade s) (layers s) (region_offsets s) (height_maps s) v (generated_region_map s) (generated_height_maps s) (generated_control_maps s) (generated_albedo_textures s) (generated_normal_textures s) (_initialized s).
Definition with_generated_region_map (v : Generated.t) (s : Terrain3DStorage) : Terrain3DStorage :=
  mkStorage (region_size s) (max_height s) (material s) (shader s) (shader_override s) (noise_texture s) (noise_scale s) (noise_height s) (noise_fade s) (layers s) (region_offsets s) (height_maps s) (control_maps s) v (generated_height_maps s) (generated_control_maps s) (generated_albedo_textures s) (generated_normal_textures s) (_initialized s).
Definition with_generated_height_maps (v : Generated.t) (s : Terrain3DStorage) : Terrain3DStorage :=
  mkStorage (region_size s) (max_height s) (material s) (shader s) (shader_override s) (noise_texture s) (noise_scale s) (noise_height s) (noise_fade s) (layers s) (region_offsets s) (height_maps s) (control_maps s) (generated_region_map s) v (generated_control_maps s) (generated_albedo_textures s) (generated_normal_textures s) (_initialized s).
Definition with_generated_control_maps (v : Generated.t) (s : Terrain3DStorage) : Terrain3DStorage :=
  mkStorage (region_size s) (max_height s) (material s) (shader s) (shader_override s) (noise_texture s) (noise_scale s) (noise_height s) (noise_fade s) (layers s) (region_offsets s) (height_maps s) (control_maps s) (generated_region_map s) (generated_height_maps s) v (generated_albedo_textures s) (generated_normal_textures s) (_initialized s).
Definition with_generated_albedo_textures (v : Generated.t) (s : Terrain3DStorage) : Terrain3DStorage :=
  mkStorage (region_size s) (max_height s) (material s) (shader s) (shader_override s) (noise_texture s) (noise_scale s) (noise_height s) (noise_fade s) (layers s) (region_offsets s) (height_maps s) (control_maps s) (generated_region_map s) (generated_height_maps s) (generated_control_maps s) v (generated_normal_textures s) (_initialized s).
Definition with_generated_normal_textures (v : Generated.t) (s : Terrain3DStorage) : Terrain3DStorage :=
  mkStorage (region_size s) (max_height s) (material s) (shader s) (shader_override s) (noise_texture s) (noise_scale s) (noise_height s) (noise_fade s) (layers s) (region_offsets s) (height_maps s) (control_maps s) (generated_region_map s) (generated_height_maps s) (generated_control_maps s) (generated_albedo_textures s) v (_initialized s).
Definition with_initialized (v : bool) (s : Terrain3DStorage) : Terrain3DStorage :=
  mkStorage (region_size s) (max_height s) (material s) (shader s) (shader_override s) (noise_texture s) (noise_scale s) (noise_height s) (noise_fade s) (layers s) (region_offsets s) (height_maps s) (control_maps s) (generated_region_map s) (generated_height_maps s) (generated_control_maps s) (generated_albedo_textures s) (generated_normal_textures s) v.

(** The five [Generated] members. *)
Inductive Cache := RegionMapCache | HeightCache | ControlCache | AlbedoCache | NormalCache.

#[export] Instance Cache_eq_dec : EqDecision Cache.
Proof. solve_decision. Defined.

Definition gen (c : Cache) (s : Terrain3DStorage) : Generated.t :=
  match c with
  | RegionMapCache => generated_region_map s
  | HeightCache => generated_height_maps s
  | ControlCache => generated_control_maps s
  | AlbedoCache => generated_albedo_textures s
  | NormalCache => generated_normal_textures s
  end.

Definition with_gen (c : Cache) (g : Generated.t) (s : Terrain3DStorage) : Terrain3DStorage :=
  match c with
  | RegionMapCache => with_generated_region_map g s
  | HeightCache => with_generated_height_maps g s
  | ControlCache => with_generated_control_maps g s
  | AlbedoCache => with_generated_albedo_textures g s
  | NormalCache => with_generated_normal_textures g s
  end.

(** The storage, the image objects it refers to, and the engine. *)
Record World := mkWorld {
  storage : Terrain3DStorage;
  images : gmap nat Image;
  next_object : nat;
  engine : Engine
}.

Definition with_storage (s : Terrain3DStorage) (w : World) : World :=
  mkWorld s (images w) (next_object w) (engine w).
Definition with_engine (en : Engine) (w : World) : World :=
  mkWorld (storage w) (images w) (next_object w) en.

Abbreviation M := (st World).

Definition modify_storage (f : Terrain3DStorage -> Terrain3DStorage) : M unit :=
  st_modify (fun w => with_storage (f (storage w)) w).

(** A call into the engine. *)
Definition engine_do (f : Engine -> Engine) : M unit :=
  st_modify (fun w => with_engine (f (engine w)) w).

Definition engine_call {A} (f : Engine -> A * Engine) : M A :=
  fun w => let '(a, en) := f (engine w) in Ok a (with_engine en w).

(** [ERR_FAIL_*]: print the error. *)
Definition ERR (e : err) : M unit := engine_do (report e).
Definition report_errs (es : list err) : M unit := engine_do (report_all es).

Definition emit_changed : M unit := engine_do (emit EvChanged).
Definition notify_property_list_changed : M unit := engine_do (emit EvPropertyListChanged).

(** [RenderingServer::get_singleton()->material_set_param(material, name, v)]. *)
Definition set_material_param (name : string) (v : ParamVal) : M unit :=
  fun w => Ok tt (with_engine (material_set_param (material (storage w)) name v (engine w)) w).

(** A new [Ref<Image>] object. *)
Definition new_image (img : Image) : M nat :=
  fun w => Ok (next_object w)
              (mkWorld (storage w) (<[next_object w := img]> (images w)) (S (next_object w)) (engine w)).

(** The images of an array of [Ref<Image>]; an id without an object is a
    null reference. *)
Definition images_of (w : World) (ids : list nat) : list (option Image) :=
  (fun i => images w !! i) <$> ids.

(** The methods of the [Generated] members. *)
Definition gen_clear (c : Cache) : M unit :=
  fun w => let '(g, en) := Generated.clear (gen c (storage w)) (engine w) in
           Ok tt (mkWorld (with_gen c g (storage w)) (images w) (next_object w) en).

Definition gen_create_layers (c : Cache) (layers : list (option Image)) : M unit :=
  fun w => let '(g, en) := Generated.create_layers layers (gen c (storage w)) (engine w) in
           Ok tt (mkWorld (with_gen c g (storage w)) (images w) (next_object w) en).

Definition gen_create_image (c : Cache) (img : Image) : M unit :=
  fun w => let '(g, en) := Generated.create_image img (gen c (storage w)) (engine w) in
           Ok tt (mkWorld (with_gen c g (storage w)) (images w) (next_object w) en).


(** ** Methods *)

(** [set_region_size(p_size)] (lines 59-66). *)
Definition set_region_size (p_size : Z) : M unit :=
  ERR_FAIL_COND bool_decide (p_size < SIZE_64)%Z then ERR ErrRegionSizeTooSmall else
  ERR_FAIL_COND bool_decide (p_size > SIZE_2048)%Z then ERR ErrRegionSizeTooLarge else
  modify_storage (with_region_size p_size) ;;
  set_material_param "region_size" (PInt p_size) ;;
  set_material_param "region_pixel_size" (PFloat (1 / inject_Z p_size)).

(** [set_max_height(p_height)] (lines 72-75). *)
Definition set_max_height (p_height : Z) : M unit :=
  modify_storage (with_max_height p_height) ;;
  set_material_param "terrain_height" (PInt p_height).

Definition get_region_count (s : Terrain3DStorage) : Z := size_Z (region_offsets s).

(** [_update_regions()] (lines 349-377). *)
Definition _update_regions : M unit :=
  w ← st_get;
  when (Generated.is_dirty (gen HeightCache (storage w)))
    (gen_create_layers HeightCache (images_of w (height_maps (storage w)))) ;;
  w ← st_get;
  when (Generated.is_dirty (gen ControlCache (storage w)))
    (gen_create_layers ControlCache (images_of w (control_maps (storage w)))) ;;
  w ← st_get;
  when (Generated.is_dirty (gen RegionMapCache (storage w)))
    (let '(image, errs) := build_region_map (region_offsets (storage w)) in
     report_errs errs ;; gen_create_image RegionMapCache image) ;;
  w ← st_get;
  set_material_param "height_maps" (PRid (Generated.get_rid (gen HeightCache (storage w)))) ;;
  set_material_param "control_maps" (PRid (Generated.get_rid (gen ControlCache (storage w)))) ;;
  set_material_param "region_map" (PRid (Generated.get_rid (gen RegionMapCache (storage w)))) ;;
  set_material_param "region_map_size" (PInt region_map_size).

(** [add_region(p_global_position)] (lines 85-107). *)
Definition add_region (p : Vector3) : M unit :=
  w ← st_get;
  let s := storage w in
  ERR_FAIL_COND has_region (region_size s) (region_offsets s) p then ERR ErrRegionExists else
  hmap_img ← new_image (image_fill (mkColor 0 0 0 1)
                          (image_create (region_size s) (region_size s) FORMAT_RH));
  cmap_img ← new_image (image_fill (mkColor 0 0 0 1)
                          (image_create (region_size s) (region_size s) FORMAT_RGBA8));
  let uv_offset := _get_offset_from (region_size s) p in
  modify_storage (fun s =>
    with_region_offsets (region_offsets s ++ [uv_offset])
      (with_control_maps (control_maps s ++ [cmap_img])
        (with_height_maps (height_maps s ++ [hmap_img]) s))) ;;
  gen_clear HeightCache ;;
  gen_clear ControlCache ;;
  gen_clear RegionMapCache ;;
  _update_regions ;;
  notify_property_list_changed ;;
  emit_changed.

(** [Array::remove_at(i)]: [ERR_FAIL_INDEX(i, size())]. *)
Definition array_remove_at {A} (i : Z) (l : list A) : list A * list err :=
  if decide (0 <= i < size_Z l)%Z then (delete (Z.to_nat i) l, [])
  else (l, [ErrRemoveAtIndex i]).

(** [remove_region(p_global_position)] (lines 109-130). *)
Definition remove_region (p : Vector3) : M unit :=
  w ← st_get;
  let s := storage w in
  if bool_decide (get_region_count s = 1%Z) then mret tt else
  let index := get_region_index (region_size s) (region_offsets s) p in
  ERR_FAIL_COND (index =? -1)%Z then ERR ErrMapNotExist else
  let '(offsets', e1) := array_remove_at index (region_offsets s) in
  let '(hmaps', e2) := array_remove_at index (height_maps s) in
  let '(cmaps', e3) := array_remove_at index (control_maps s) in
  modify_storage (fun s =>
    with_control_maps cmaps' (with_height_maps hmaps' (with_region_offsets offsets' s))) ;;
  report_errs (e1 ++ e2 ++ e3) ;;
  gen_clear HeightCache ;;
  gen_clear ControlCache ;;
  gen_clear RegionMapCache ;;
  _update_regions ;;
  notify_property_list_changed ;;
  emit_changed.

(** [set_region_offsets(p_array)] (lines 150-152). *)
Definition set_region_offsets (p_array : list (Z * Z)) : M unit :=
  modify_storage (with_region_offsets p_array).

(** [get_map(p_region_index, p_map_type)] (lines 158-176): an unchecked
    read of the array. *)
Definition get_map (p_region_index : Z) (p_map_type : MapType) : M (option nat) :=
  w ← st_get;
  let read l := match lookup_Z l p_region_index with
                | Some m => mret (Some m)
                | None => st_crash (IndexOutOfRange p_region_index)
                end in
  match p_map_type with
  | TYPE_HEIGHT => read (height_maps (storage w))
  | TYPE_CONTROL => read (control_maps (storage w))
  | TYPE_COLOR | TYPE_MAX => mret None
  end.

(** [force_update_maps(p_map_type)] (lines 178-195). *)
Definition force_update_maps (p_map_type : MapType) : M unit :=
  (match p_map_type with
   | TYPE_HEIGHT => gen_clear HeightCache
   | TYPE_CONTROL => gen_clear ControlCache
   | TYPE_COLOR => mret tt
   | TYPE_MAX => gen_clear HeightCache ;; gen_clear ControlCache
   end) ;;
  _update_regions.

(** [set_height_maps(p_maps)] (lines 197-200). *)
Definition set_height_maps (p_maps : list nat) : M unit :=
  modify_storage (with_height_maps p_maps) ;;
  force_update_maps TYPE_HEIGHT.

(** [set_control_maps(p_maps)] (lines 206-209). *)
Definition set_control_maps (p_maps : list nat) : M unit :=
  modify_storage (with_control_maps p_maps) ;;
  force_update_maps TYPE_CONTROL.

(** [set_shader_override(p_shader)] (lines 223-225). *)
Definition set_shader_override (p_shader : option RID) : M unit :=
  modify_storage (with_shader_override p_shader).

(** [_update_material()] (lines 379-510); the shader text is the
    variant chosen by [use_noise]. *)
Definition _update_material : M unit :=
  w ← st_get;
  when (negb (rid_is_valid (material (storage w))))
    (r ← engine_call material_create; modify_storage (with_material r)) ;;
  w ← st_get;
  when (negb (rid_is_valid (shader (storage w))))
    (r ← engine_call shader_create; modify_storage (with_shader r)) ;;
  w ← st_get;
  let s := storage w in
  let use_noise := bool_decide (is_Some (noise_texture s)) in
  engine_do (shader_set_code (shader s) (TerrainShader use_noise)) ;;
  engine_do (material_set_shader (material s)
               (match shader_override s with Some r => r | None => shader s end)) ;;
  set_region_size (region_size s).

(** [set_noise_texture(p_texture)] (lines 231-236). *)
Definition set_noise_texture (p_texture : option RID) : M unit :=
  modify_storage (with_noise_texture p_texture) ;;
  set_material_param "noise" (PRid (match p_texture with Some r => r | None => 0%Z end)) ;;
  _update_material.

(** [set_noise_scale], [set_noise_height], [set_noise_fade] (lines 242-255). *)
Definition set_noise_scale (p_scale : Q) : M unit :=
  modify_storage (with_noise_scale p_scale) ;; set_material_param "noise_scale" (PFloat p_scale).
Definition set_noise_height (p_height : Q) : M unit :=
  modify_storage (with_noise_height p_height) ;; set_material_param "noise_height" (PFloat p_height).
Definition set_noise_fade (p_fade : Q) : M unit :=
  modify_storage (with_noise_fade p_fade) ;; set_material_param "noise_fade" (PFloat p_fade).

(** The field initialisers of the header. *)
Definition storage_defaults : Terrain3DStorage :=
  mkStorage SIZE_1024 512 0 0 None None 1 (1 # 2) 5 [] [] [] []
    Generated.init Generated.init Generated.init Generated.init Generated.init false.

(** [Terrain3DStorage()] (lines 35-40). *)
Definition constructor : M unit :=
  w ← st_get;
  when (negb (_initialized (storage w)))
    (_update_material ;; modify_storage (with_initialized true)).

(** [_clear()] (lines 48-57). *)
Definition _clear : M unit :=
  w ← st_get;
  engine_do (free_rid (material (storage w))) ;;
  engine_do (free_rid (shader (storage w))) ;;
  gen_clear HeightCache ;;
  gen_clear ControlCache ;;
  gen_clear AlbedoCache ;;
  gen_clear NormalCache ;;
  gen_clear RegionMapCache.

(** [~Terrain3DStorage()] (lines 42-46). *)
Definition destructor : M unit :=
  w ← st_get;
  when (_initialized (storage w)) _clear.

(** The world before the constructor runs: a fresh engine, no objects. *)
Definition world_empty : World := mkWorld storage_defaults ∅ 0 engine_init.

(** The world a method leaves, for building concrete worlds; a crash
    leaves the world as it was. *)
Definition after (c : M unit) (w : World) : World :=
  match c w with Ok _ w' => w' | Crash _ => w end.

(** The storage just constructed, and with regions at the world
    positions [(0, 0, 0)] and [(1024, 0, 1024)] of the specification's
    scenario. *)
Definition origin : Vector3 := mkVector3 0 0 0.
Definition corner : Vector3 := mkVector3 1024 0 1024.
Definition world_constructed : World := after constructor world_empty.
Definition world_one : World := after (add_region origin) world_constructed.
Definition world_two : World := after (add_region corner) world_one.

(** ** Frames: what a method leaves unchanged *)

(** The region data of the storage and the image objects. *)
Definition regions_of (s : Terrain3DStorage) :=
  (region_size s, region_offsets s, height_maps s, control_maps s).

Definition same_regions (w w' : World) : Prop :=
  regions_of (storage w') = regions_of (storage w) /\ images w' = images w.

#[export] Instance same_regions_preorder : PreOrder same_regions.
Proof.
  split; [by intros w|]. intros w1 w2 w3 [H1 H1'] [H2 H2']. split; congruence.
Qed.

Lemma runs_when {R : relation World} `{!PreOrder R} b (c : M unit) :
  runs R c -> runs R (when b c).
Proof. intros Hc. destruct b; [done|]. intros w. exists tt, w. split; [done|reflexivity]. Qed.

Lemma regions_of_with_gen c g s : regions_of (with_gen c g s) = regions_of s.
Proof. by destruct c. Qed.

Lemma same_regions_gen c g w en :
  same_regions w (mkWorld (with_gen c g (storage w)) (images w) (next_object w) en).
Proof. split; [apply regions_of_with_gen|done]. Qed.

Lemma runs_gen_clear c : runs same_regions (gen_clear c).
Proof.
  intros w. unfold runs_at, gen_clear. cbv beta. destruct (Generated.clear (gen c (storage w)) (engine w)).
  eexists _, _. split; [done|apply same_regions_gen].
Qed.

Lemma runs_gen_create_layers c l : runs same_regions (gen_create_layers c l).
Proof.
  intros w. unfold runs_at, gen_create_layers. cbv beta. destruct (Generated.create_layers l (gen c (storage w)) (engine w)).
  eexists _, _. split; [done|apply same_regions_gen].
Qed.

Lemma runs_gen_create_image c i : runs same_regions (gen_create_image c i).
Proof.
  intros w. unfold runs_at, gen_create_image. cbv beta. destruct (Generated.create_image i (gen c (storage w)) (engine w)).
  eexists _, _. split; [done|apply same_regions_gen].
Qed.

Lemma runs_engine_do f : runs same_regions (engine_do f).
Proof. apply runs_modify. by intros w. Qed.

Lemma runs_set_material_param name v : runs same_regions (set_material_param name v).
Proof. intros w. by eexists _, _. Qed.

#[export] Hint Resolve runs_gen_clear runs_gen_create_layers runs_gen_create_image
  runs_engine_do runs_set_material_param : t3d.

(** Decompose a method into the calls it makes. *)
Ltac runs_auto :=
  repeat match goal with
  | |- runs _ (st_get ≫= _) => refine (runs_get _ _ _); intros ?; refine (runs_runs_at _ _ _ _)
  | |- runs _ (_ ≫= _) => refine (runs_bind _ _ _ _ _); [|intros ?]
  | |- runs _ (when _ _) => refine (runs_when _ _ _)
  | |- runs _ (match ?x with pair _ _ => _ end) => destruct x
  | |- runs _ (if _ then _ else _) => refine (runs_if _ _ _ _ _ _)
  | |- runs _ (mret _) => refine (runs_ret _ _)
  | |- runs _ ?c => progress unfold ERR, report_errs, emit_changed,
                      notify_property_list_changed in *
  | |- runs same_regions _ => solve [eauto with t3d]
  end.

(** [_update_regions] never crashes and touches neither the regions nor
    the images. *)
Lemma runs_update_regions : runs same_regions _update_regions.
Proof. unfold _update_regions. runs_auto. Qed.

Lemma runs_force_update_maps t : runs same_regions (force_update_maps t).
Proof. unfold force_update_maps. pose proof runs_update_regions. destruct t; runs_auto. Qed.

#[export] Hint Resolve runs_update_regions runs_force_update_maps : t3d.

Lemma bind_new_image {B} img (k : nat -> M B) w :
  (new_image img ≫= k) w =
    k (next_object w) (mkWorld (storage w) (<[next_object w := img]> (images w))
                               (S (next_object w)) (engine w)).
Proof. reflexivity. Qed.

(** The calls that close [add_region] and [remove_region]. *)
Definition regions_changed : M unit :=
  gen_clear HeightCache ;;
  gen_clear ControlCache ;;
  gen_clear RegionMapCache ;;
  _update_regions ;;
  notify_property_list_changed ;;
  emit_changed.

Lemma runs_regions_changed : runs same_regions regions_changed.
Proof. unfold regions_changed. runs_auto. Qed.

(** ** Adding a region *)

(** The run of [add_region] at a free position. *)
Lemma add_region_run w p :
  has_region (region_size (storage w)) (region_offsets (storage w)) p = false ->
  exists w', add_region p w = Ok tt w' /\
    region_offsets (storage w') =
      region_offsets (storage w) ++ [_get_offset_from (region_size (storage w)) p] /\
    height_maps (storage w') = height_maps (storage w) ++ [next_object w] /\
    control_maps (storage w') = control_maps (storage w) ++ [S (next_object w)] /\
    has_region (region_size (storage w')) (region_offsets (storage w')) p = true /\
    get_region_index (region_size (storage w')) (region_offsets (storage w')) p =
      (get_region_count (storage w') - 1)%Z.
Proof.
  intros Hnew. unfold add_region. rewrite bind_get. cbv zeta. rewrite Hnew.
  cbn iota. rewrite !bind_new_image. unfold modify_storage at 1. rewrite bind_modify.
  match goal with |- exists w', ?c ?w1 = _ /\ _ =>
    replace c with regions_changed by reflexivity;
    destruct (runs_regions_changed w1) as ([] & w' & Hrun & [Hreg _]) end.
  exists w'. split; [exact Hrun|]. clear Hrun.
  injection Hreg as Hrs Hoffs Hh Hc. cbn in Hrs, Hoffs, Hh, Hc.
  unfold get_region_count.
  rewrite Hrs, Hoffs, Hh, Hc. apply has_region_false in Hnew.
  do 3 (split; [done|]).
  rewrite get_region_index_index_of, index_of_snoc_new by done.
  split; [|rewrite size_Z_app_one; lia].
  unfold has_region. rewrite get_region_index_index_of, index_of_snoc_new by done.
  unfold size_Z. destruct (Z.eqb_spec (Z.of_nat (length (region_offsets (storage w)))) (-1));
    [lia|done].
Qed.

(** (C1) [add_region] at a position that has no region never crashes,
    appends the position's offset and two new images to the three
    arrays, and the position then has a region whose index is the last
    one, [get_region_count() - 1]. *)
Theorem add_region_new w p :
  has_region (region_size (storage w)) (region_offsets (storage w)) p = false ->
  exists w', add_region p w = Ok tt w' /\
    region_offsets (storage w') =
      region_offsets (storage w) ++ [_get_offset_from (region_size (storage w)) p] /\
    height_maps (storage w') = height_maps (storage w) ++ [next_object w] /\
    control_maps (storage w') = control_maps (storage w) ++ [S (next_object w)] /\
    has_region (region_size (storage w')) (region_offsets (storage w')) p = true /\
    get_region_index (region_size (storage w')) (region_offsets (storage w')) p =
      (get_region_count (storage w') - 1)%Z.
Proof. apply add_region_run. Qed.

(** (C16) [add_region] at a position that already has a region prints
    [ERR_FAIL_COND(has_region(...))] and changes nothing else. *)
Theorem add_region_existing w p :
  has_region (region_size (storage w)) (region_offsets (storage w)) p = true ->
  add_region p w = Ok tt (with_engine (report ErrRegionExists (engine w)) w).
Proof. intros Hold. unfold add_region. rewrite bind_get. cbv zeta. by rewrite Hold. Qed.

Lemma add_region_new_witness :
  exists w', add_region origin world_constructed = Ok tt w' /\
    region_offsets (storage w') = region_offsets (storage world_constructed) ++
      [_get_offset_from (region_size (storage world_constructed)) origin] /\
    height_maps (storage w') = height_maps (storage world_constructed) ++
      [next_object world_constructed] /\
    control_maps (storage w') = control_maps (storage world_constructed) ++
      [S (next_object world_constructed)] /\
    has_region (region_size (storage w')) (region_offsets (storage w')) origin = true /\
    get_region_index (region_size (storage w')) (region_offsets (storage w')) origin =
      (get_region_count (storage w') - 1)%Z.
Proof. apply add_region_new. vm_compute. reflexivity. Defined.

Lemma add_region_existing_witness :
  add_region origin world_one = Ok tt (with_engine (report ErrRegionExists (engine world_one)) world_one).
Proof. apply add_region_existing. vm_compute. reflexivity. Defined.

(** ** Removing a region *)

(** (C17) [remove_region] on a storage with one region returns at once:
    the world is unchanged, whatever the position. *)
Theorem remove_region_floor w p :
  get_region_count (storage w) = 1%Z -> remove_region p w = Ok tt w.
Proof.
  intros H1. unfold remove_region. rewrite bind_get. cbv zeta.
  by rewrite bool_decide_true.
Qed.

Lemma has_region_index rs offsets p :
  has_region rs offsets p = false <-> get_region_index rs offsets p = (-1)%Z.
Proof.
  unfold has_region. destruct (Z.eqb_spec (get_region_index rs offsets p) (-1)); naive_solver.
Qed.

(** (C18) [remove_region] at a position without a region (and more than
    one region) prints ["Map does not exist."] and changes nothing
    else. *)
Theorem remove_region_missing w p :
  get_region_count (storage w) <> 1%Z ->
  has_region (region_size (storage w)) (region_offsets (storage w)) p = false ->
  remove_region p w = Ok tt (with_engine (report ErrMapNotExist (engine w)) w).
Proof.
  intros H1 Hnone%has_region_index. unfold remove_region. rewrite bind_get. cbv zeta.
  rewrite bool_decide_false by done. by rewrite Hnone.
Qed.

Lemma array_remove_at_in {A} (l : list A) (i : nat) :
  (i < length l)%nat -> array_remove_at (Z.of_nat i) l = (delete i l, []).
Proof.
  intros Hi. unfold array_remove_at, size_Z. rewrite decide_True by lia.
  by rewrite Nat2Z.id.
Qed.

Lemma runs_report_regions_changed es : runs same_regions (report_errs es ;; regions_changed).
Proof. pose proof runs_regions_changed. runs_auto. Qed.

(** The run of [remove_region] at an existing region. *)
Lemma remove_region_run w p i :
  get_region_count (storage w) <> 1%Z ->
  NoDup (region_offsets (storage w)) ->
  length (height_maps (storage w)) = length (region_offsets (storage w)) ->
  length (control_maps (storage w)) = length (region_offsets (storage w)) ->
  get_region_index (region_size (storage w)) (region_offsets (storage w)) p = Z.of_nat i ->
  exists w', remove_region p w = Ok tt w' /\
    region_offsets (storage w') = delete i (region_offsets (storage w)) /\
    height_maps (storage w') = delete i (height_maps (storage w)) /\
    control_maps (storage w') = delete i (control_maps (storage w)) /\
    has_region (region_size (storage w')) (region_offsets (storage w')) p = false /\
    forall j o, j <> i -> region_offsets (storage w) !! j = Some o ->
      index_of (region_offsets (storage w')) o =
        Z.of_nat (if decide (j < i)%nat then j else j - 1).
Proof.
  intros H1 Hnd Hlh Hlc Hidx.
  set (offs := region_offsets (storage w)) in *.
  set (o := _get_offset_from (region_size (storage w)) p).
  assert (Hin : o ∈ offs).
  { destruct (decide (o ∈ offs)) as [|Hn]; [done|].
    apply index_of_absent in Hn. unfold o in Hn.
    rewrite <- get_region_index_index_of in Hn. lia. }
  destruct (index_of_range _ _ Hin) as [Hr Hlk].
  assert (Hio : index_of offs o = Z.of_nat i) by (rewrite <- Hidx; reflexivity).
  rewrite Hio in Hr, Hlk. rewrite lookup_Z_nat in Hlk.
  pose proof (lookup_lt_Some _ _ _ Hlk) as Hlt.
  unfold remove_region. rewrite bind_get. cbv zeta.
  rewrite bool_decide_false by done. fold offs. rewrite Hidx.
  replace (Z.of_nat i =? -1)%Z with false by (symmetry; apply Z.eqb_neq; lia).
  cbn iota. rewrite !array_remove_at_in by lia. cbn iota.
  unfold modify_storage at 1. rewrite bind_modify.
  match goal with |- exists w', ?c ?w1 = _ /\ _ =>
    replace c with (report_errs ([] ++ [] ++ []) ;; regions_changed) by reflexivity;
    destruct (runs_report_regions_changed ([] ++ [] ++ []) w1) as ([] & w' & Hrun & [Hreg _]) end.
  exists w'. split; [exact Hrun|]. clear Hrun.
  injection Hreg as Hrs Hoffs Hh Hc. cbn in Hrs, Hoffs, Hh, Hc.
  rewrite Hrs, Hoffs, Hh, Hc. do 3 (split; [done|]). split.
  - apply has_region_index. rewrite get_region_index_index_of.
    by apply index_of_delete_self.
  - intros j o' Hji Hj. by apply index_of_delete.
Qed.

(** (C3) [remove_region] of the region of slot [i], when there are
    several regions with distinct offsets and the three arrays are in
    lockstep: it never crashes, removes slot [i] of the three arrays,
    the position has no region any more, and every other region moves
    down one slot if it was after [i] and keeps its slot otherwise. *)
Theorem remove_region_compacts w p i :
  get_region_count (storage w) <> 1%Z ->
  NoDup (region_offsets (storage w)) ->
  length (height_maps (storage w)) = length (region_offsets (storage w)) ->
  length (control_maps (storage w)) = length (region_offsets (storage w)) ->
  get_region_index (region_size (storage w)) (region_offsets (storage w)) p = Z.of_nat i ->
  exists w', remove_region p w = Ok tt w' /\
    region_offsets (storage w') = delete i (region_offsets (storage w)) /\
    height_maps (storage w') = delete i (height_maps (storage w)) /\
    control_maps (storage w') = delete i (control_maps (storage w)) /\
    has_region (region_size (storage w')) (region_offsets (storage w')) p = false /\
    forall j o, j <> i -> region_offsets (storage w) !! j = Some o ->
      index_of (region_offsets (storage w')) o =
        Z.of_nat (if decide (j < i)%nat then j else j - 1).
Proof. apply remove_region_run. Qed.

Lemma remove_region_floor_witness : remove_region corner world_one = Ok tt world_one.
Proof. apply remove_region_floor. vm_compute. reflexivity. Defined.

Lemma remove_region_missing_witness :
  remove_region (mkVector3 5000 0 0) world_two =
    Ok tt (with_engine (report ErrMapNotExist (engine world_two)) world_two).
Proof. apply remove_region_missing; vm_compute; congruence. Defined.

Lemma remove_region_compacts_witness :
  exists w', remove_region origin world_two = Ok tt w' /\
    region_offsets (storage w') = delete 0 (region_offsets (storage world_two)) /\
    height_maps (storage w') = delete 0 (height_maps (storage world_two)) /\
    control_maps (storage w') = delete 0 (control_maps (storage world_two)) /\
    has_region (region_size (storage w')) (region_offsets (storage w')) origin = false /\
    forall j o, j <> 0%nat -> region_offsets (storage world_two) !! j = Some o ->
      index_of (region_offsets (storage w')) o =
        Z.of_nat (if decide (j < 0)%nat then j else j - 1).
Proof.
  apply remove_region_compacts.
  - vm_compute. congruence.
  - apply (bool_decide_unpack _). vm_compute. reflexivity.
  - vm_compute. reflexivity.
  - vm_compute. reflexivity.
  - vm_compute. reflexivity.
Defined.

(** ** Parameters *)

(** (C20) [set_region_size(p)] accepts exactly the sizes of [[64, 2048]]:
    it then stores the size and publishes [region_size = p] and
    [region_pixel_size = 1 / p] on the material; any other size prints
    one error and changes nothing else. *)
Theorem set_region_size_spec w p :
  kind_at (engine w) (material (storage w)) = Some KMaterial ->
  exists w', set_region_size p w = Ok tt w' /\
    if bool_decide (SIZE_64 <= p <= SIZE_2048)%Z then
      region_size (storage w') = p /\
      material_param (engine w') (material (storage w)) "region_size" = Some (PInt p) /\
      material_param (engine w') (material (storage w)) "region_pixel_size" =
        Some (PFloat (1 / inject_Z p))
    else
      storage w' = storage w /\ resources (engine w') = resources (engine w) /\
      exists e, log (engine w') = log (engine w) ++ [EvError e].
Proof.
  intros Hm. unfold set_region_size.
  case_bool_decide as Hlo; [|case_bool_decide as Hhi].
  - eexists. split; [reflexivity|]. rewrite bool_decide_false by lia. by split_and!; [..|eexists].
  - eexists. split; [reflexivity|]. rewrite bool_decide_false by lia. by split_and!; [..|eexists].
  - eexists. split; [reflexivity|]. rewrite bool_decide_true by lia. cbn.
    split_and!; [done| |].
    + rewrite material_param_set_ne by done. by apply material_param_set.
    + apply material_param_set. by rewrite kind_at_material_set_param.
Qed.

Lemma set_region_size_spec_witness :
  exists w', set_region_size 100 world_constructed = Ok tt w' /\
    if bool_decide (SIZE_64 <= 100 <= SIZE_2048)%Z then
      region_size (storage w') = 100%Z /\
      material_param (engine w') (material (storage world_constructed)) "region_size" =
        Some (PInt 100) /\
      material_param (engine w') (material (storage world_constructed)) "region_pixel_size" =
        Some (PFloat (1 / inject_Z 100))
    else
      storage w' = storage world_constructed /\
      resources (engine w') = resources (engine world_constructed) /\
      exists e, log (engine w') = log (engine world_constructed) ++ [EvError e].
Proof. apply set_region_size_spec. vm_compute. reflexivity. Defined.

(** ** The scenario of the specification (section 8) *)

Definition world_three : World := after (remove_region origin) world_two.

(** With [region_size = 1024]: [add((0,0,0))] then
    [add((1024,0,1024))] give two regions, the second of index 1; then
    [remove((0,0,0))] leaves one region, and the second one has index 0. *)
Theorem spec_scenario :
  region_size (storage world_constructed) = 1024%Z /\
  add_region origin world_constructed = Ok tt world_one /\
  add_region corner world_one = Ok tt world_two /\
  get_region_count (storage world_two) = 2%Z /\
  get_region_index (region_size (storage world_two)) (region_offsets (storage world_two)) corner = 1%Z /\
  remove_region origin world_two = Ok tt world_three /\
  get_region_count (storage world_three) = 1%Z /\
  get_region_index (region_size (storage world_three)) (region_offsets (storage world_three)) corner = 0%Z.
Proof. split_and!; vm_compute; reflexivity. Qed.
End Storage.
