(* ===== verification/Registration.v ===== *)
(** * Engine registration: [_bind_methods] and the ClassDB it fills

    [Terrain3DStorage::_bind_methods] ([src/src/terrain_storage.cpp],
    lines 512-576) registers the class with Godot through godot-cpp's
    [ClassDB]: ten integer constants of its two enums, thirty methods
    ([D_METHOD] names and argument names), one property group and
    eleven properties, each with a [PropertyInfo] (type, name, hint,
    hint string) and the names of its setter and getter.

    Module [ClassDB] models the part of godot-cpp and of the engine the
    code calls (outside [src/]): the class record the calls fill, with
    the checks godot-cpp makes ([bind_integer_constant] refuses a
    duplicate constant, [bind_method] a duplicate method or one with more
    argument names than parameters, [add_property] a duplicate
    property, a missing setter or getter and one of the wrong arity),
    and [vformat], which godot-cpp evaluates as the [String % Array]
    operator of the engine: [String::sprintf], whose result on a bad
    format is the error message itself.

    Module [Bindings] holds the class's side: the public methods the
    header declares (as the method pointers [&Terrain3DStorage::m] with
    their parameter counts), the enums, and [_bind_methods] as one
    registration program, call by call.  [bound_methods], the names
    ClassDB can dispatch on, is computed by running it; [Layers.v] uses
    it to resolve the [Callable]s of the layer signals. *)

From S2P Require Import Prelude Godot GeneratedCache RegionIndex RegionMap Storage.
From stdpp Require Import pretty.
From Stdlib Require Import Ascii.
Import Storage.

Module ClassDB.

(** ** Godot's types ([Variant::Type], [PropertyHint]) *)

Inductive VariantType := INT | FLOAT | VECTOR2 | OBJECT | ARRAY.

#[export] Instance VariantType_eq_dec : EqDecision VariantType.
Proof. solve_decision. Defined.

(** The numbers of [Variant::Type] (Godot 4.0) that [vformat] prints. *)
Definition variant_type_id (t : VariantType) : Z :=
  match t with INT => 2 | FLOAT => 3 | VECTOR2 => 5 | OBJECT => 24 | ARRAY => 28 end.

Inductive PropertyHint :=
  | PROPERTY_HINT_NONE | PROPERTY_HINT_RANGE | PROPERTY_HINT_ENUM
  | PROPERTY_HINT_RESOURCE_TYPE | PROPERTY_HINT_ARRAY_TYPE.

#[export] Instance PropertyHint_eq_dec : EqDecision PropertyHint.
Proof. solve_decision. Defined.

Definition property_hint_id (h : PropertyHint) : Z :=
  match h with
  | PROPERTY_HINT_NONE => 0 | PROPERTY_HINT_RANGE => 1 | PROPERTY_HINT_ENUM => 2
  | PROPERTY_HINT_RESOURCE_TYPE => 17 | PROPERTY_HINT_ARRAY_TYPE => 31
  end.

Record PropertyInfo := mkPropertyInfo {
  pi_type : VariantType;
  pi_name : string;
  pi_hint : PropertyHint;
  pi_hint_string : string
}.

(** ** [String::sprintf] and [vformat] *)

(** A [vformat] argument: a [Variant] holding an integer or a string,
    printed by [%s] as [Variant::stringify] does. *)
Inductive FormatArg := FInt (z : Z) | FStr (s : string).

Definition stringify (a : FormatArg) : string :=
  match a with FInt z => pretty z | FStr s => s end.

(** [String::sprintf] for the directives [%s] and [%%]: [inl] the text,
    [inr] the error message it returns on a bad format. *)
Fixpoint sprintf (fmt : string) (args : list FormatArg) : string + string :=
  match fmt with
  | EmptyString =>
      match args with [] => inl EmptyString | _ => inr "too many arguments for format string" end
  | String c rest =>
      if Ascii.eqb c "%"%char then
        match rest with
        | EmptyString => inr "incomplete format"
        | String d rest' =>
            if Ascii.eqb d "s"%char then
              match args with
              | [] => inr "not enough arguments for format string"
              | a :: args' =>
                  match sprintf rest' args' with inl t => inl (stringify a +:+ t) | inr e => inr e end
              end
            else if Ascii.eqb d "%"%char then
              match sprintf rest' args with inl t => inl (String "%" t) | inr e => inr e end
            else inr "unsupported format character"
        end
      else match sprintf rest args with inl t => inl (String c t) | inr e => inr e end
  end.

(** godot-cpp's [vformat(fmt, args...)] is [fmt % Array(args)]: the
    engine's string-format operator, which returns whatever [sprintf]
    returns, the error message included, and prints nothing. *)
Definition vformat (fmt : string) (args : list FormatArg) : string :=
  match sprintf fmt args with inl s => s | inr e => e end.

(** ** The class record *)

(** A method bind: the name of [D_METHOD], its argument names, the
    method pointer and its parameter count. *)
Record MethodBind (P : Type) := mkMethodBind {
  mb_name : string;
  mb_args : list string;
  mb_ptr : P;
  mb_arity : nat
}.
Arguments mkMethodBind {P}.
Arguments mb_name {P}.
Arguments mb_args {P}.
Arguments mb_ptr {P}.
Arguments mb_arity {P}.

(** An entry of the class's property list: a group ([ADD_GROUP]) or a
    property with the names of its setter and getter. *)
Inductive PropEntry :=
  | PGroup (name prefix : string)
  | PProp (info : PropertyInfo) (setter getter : string).

Record ClassInfo (P : Type) := mkClassInfo {
  constants : list (string * string * Z);   (* enum, name, value *)
  methods : list (MethodBind P);
  props : list PropEntry
}.
Arguments mkClassInfo {P}.
Arguments constants {P}.
Arguments methods {P}.
Arguments props {P}.

(** What [ERR_FAIL_COND_MSG] in godot-cpp's [ClassDB] prints. *)
Inductive reg_err :=
  | ErrConstantExists (name : string)
  | ErrDuplicateMethod (name : string)
  | ErrTooManyArgNames (name : string)
  | ErrPropertyExists (name : string)
  | ErrSetterNotFound (name : string)
  | ErrSetterArity (name : string)
  | ErrGetterMissing (name : string)
  | ErrGetterNotFound (name : string)
  | ErrGetterArity (name : string).

#[export] Instance reg_err_eq_dec : EqDecision reg_err.
Proof. solve_decision. Defined.

Record Registry (P : Type) := mkRegistry { r_class : ClassInfo P; r_log : list reg_err }.
Arguments mkRegistry {P}.
Arguments r_class {P}.
Arguments r_log {P}.

Section Ops.
Context {P : Type}.

Notation R := (st (Registry P)).

Definition reg_empty : Registry P := mkRegistry (mkClassInfo [] [] []) [].

Definition print (e : reg_err) : R unit :=
  st_modify (fun r => mkRegistry (r_class r) (r_log r ++ [e])).

Definition modify_class (f : ClassInfo P -> ClassInfo P) : R unit :=
  st_modify (fun r => mkRegistry (f (r_class r)) (r_log r)).

Definition find_method (c : ClassInfo P) (name : string) : option (MethodBind P) :=
  snd <$> list_find (fun m => mb_name m = name) (methods c).

Definition prop_name (e : PropEntry) : option string :=
  match e with PProp i _ _ => Some (pi_name i) | PGroup _ _ => None end.

Definition has_property (c : ClassInfo P) (name : string) : bool :=
  bool_decide (Some name ∈ map prop_name (props c)).

(** [ClassDB::bind_integer_constant]. *)
Definition bind_integer_constant (enum name : string) (value : Z) : R unit :=
  r ← st_get;
  if bool_decide (name ∈ map (fun k => k.1.2) (constants (r_class r))) then print (ErrConstantExists name)
  else modify_class (fun c => mkClassInfo (constants c ++ [(enum, name, value)]) (methods c) (props c)).

(** [ClassDB::bind_method(D_METHOD(name, args...), ptr)]. *)
Definition bind_method (name : string) (args : list string) (ptr : P) (arity : nat) : R unit :=
  r ← st_get;
  if bool_decide (is_Some (find_method (r_class r) name)) then print (ErrDuplicateMethod name)
  else if bool_decide (arity < length args)%nat then print (ErrTooManyArgNames name)
  else modify_class (fun c =>
         mkClassInfo (constants c) (methods c ++ [mkMethodBind name args ptr arity]) (props c)).

(** The checks of [ClassDB::add_property] on the setter (may be empty,
    else a bound method of one argument) and on the getter (a bound
    method of no argument): the error it prints, if any. *)
Definition setter_check (c : ClassInfo P) (name setter : string) : option reg_err :=
  if String.eqb setter "" then None else
  match find_method c setter with
  | None => Some (ErrSetterNotFound name)
  | Some m => if bool_decide (mb_arity m = 1%nat) then None else Some (ErrSetterArity name)
  end.

Definition getter_check (c : ClassInfo P) (name getter : string) : option reg_err :=
  if String.eqb getter "" then Some (ErrGetterMissing name) else
  match find_method c getter with
  | None => Some (ErrGetterNotFound name)
  | Some m => if bool_decide (mb_arity m = 0%nat) then None else Some (ErrGetterArity name)
  end.

(** [ClassDB::add_property(class, info, setter, getter)], index -1:
    each failed check prints and returns. *)
Definition add_property (info : PropertyInfo) (setter getter : string) : R unit :=
  r ← st_get;
  let c := r_class r in
  let name := pi_name info in
  if has_property c name then print (ErrPropertyExists name) else
  match setter_check c name setter with Some e => print e | None =>
  match getter_check c name getter with Some e => print e | None =>
  modify_class (fun c => mkClassInfo (constants c) (methods c) (props c ++ [PProp info setter getter]))
  end end.

(** [ClassDB::add_property_group(class, name, prefix)]. *)
Definition add_property_group (name prefix : string) : R unit :=
  modify_class (fun c => mkClassInfo (constants c) (methods c) (props c ++ [PGroup name prefix])).

End Ops.

(** ** How the editor reads a hint string *)

(** [String::split(d)] for a one-character delimiter. *)
Fixpoint split_on (d : ascii) (s : string) : list string :=
  match s with
  | EmptyString => [EmptyString]
  | String c rest =>
      if Ascii.eqb c d then EmptyString :: split_on d rest
      else match split_on d rest with x :: xs => String c x :: xs | [] => [String c EmptyString] end
  end.

Definition digit_val (c : ascii) : option Z :=
  let n := nat_of_ascii c in if (48 <=? n)%nat && (n <=? 57)%nat then Some (Z.of_nat n - 48)%Z else None.

(** [String::to_int]: the digits before the first ['.'], in order, every
    other character skipped; a ['-'] before any nonzero digit flips the
    sign. *)
Fixpoint to_int_go (s : string) (sign acc : Z) : Z :=
  match s with
  | EmptyString => sign * acc
  | String c rest =>
      if Ascii.eqb c "." then sign * acc else
      match digit_val c with
      | Some d => to_int_go rest sign (acc * 10 + d)
      | None => if Ascii.eqb c "-" && bool_decide (acc = 0) then to_int_go rest (- sign) acc
                else to_int_go rest sign acc
      end
  end%Z.

Definition to_int (s : string) : Z := to_int_go s 1 0.

Fixpoint skip_spaces (s : string) : string :=
  match s with String c rest => if Ascii.eqb c " " then skip_spaces rest else s | EmptyString => s end.

Fixpoint read_digits (s : string) (acc : Z) (n : nat) : Z * nat * string :=
  match s with
  | String c rest => match digit_val c with Some d => read_digits rest (acc * 10 + d)%Z (S n) | None => (acc, n, s) end
  | EmptyString => (acc, n, s)
  end.

(** [String::to_float] on a decimal literal: leading spaces, a sign, the
    digits, a ['.'] and the fraction digits; it stops at anything else
    (exponents are not modelled). *)
Definition to_float (s : string) : Q :=
  let s := skip_spaces s in
  let '(sign, s) := match s with
                    | String c rest => if Ascii.eqb c "-" then ((-1)%Z, rest)
                                       else if Ascii.eqb c "+" then (1%Z, rest) else (1%Z, s)
                    | EmptyString => (1%Z, s)
                    end in
  let '(ip, _, s) := read_digits s 0 0 in
  let '(fp, n, _) := match s with
                     | String c rest => if Ascii.eqb c "." then read_digits rest 0 0 else (0%Z, 0%nat, s)
                     | EmptyString => (0%Z, 0%nat, s)
                     end in
  (inject_Z sign * (inject_Z ip + inject_Z fp / inject_Z (10 ^ Z.of_nat n)))%Q.

(** The editor's reading of a [PROPERTY_HINT_RANGE] string: the
    [to_float] of the first two comma-separated slices. *)
Definition parse_range_hint (h : string) : option (Q * Q) :=
  match split_on "," h with a :: b :: _ => Some (to_float a, to_float b) | _ => None end.

(** The values of a [PROPERTY_HINT_ENUM] string: each option's value is
    the [to_int] after its [':'], or one more than the previous one. *)
Fixpoint enum_values (opts : list string) (next : Z) : list Z :=
  match opts with
  | [] => []
  | o :: rest =>
      let v := match split_on ":" o with [_] => next | _ :: x :: _ => to_int x | [] => next end in
      v :: enum_values rest (v + 1)
  end.

Definition parse_enum_hint (h : string) : list Z := enum_values (split_on "," h) 0.

End ClassDB.

Module Bindings.
Import ClassDB.

(** ** The class's side *)

(** The methods of [Terrain3DStorage], private (header, lines 75-82) and
    public (lines 91-129), as the method pointers [&Terrain3DStorage::m]
    [bind_method] takes. *)
Inductive method :=
  | m__update_layers
  | m__update_arrays
  | m__update_textures
  | m__update_regions
  | m__update_material
  | m__clear
  | m__get_offset_from
  | m_set_region_size
  | m_get_region_size
  | m_set_max_height
  | m_get_max_height
  | m_set_layer
  | m_get_layer
  | m_set_layers
  | m_get_layers
  | m_get_layer_count
  | m_add_region
  | m_remove_region
  | m_has_region
  | m_get_region_index
  | m_set_region_offsets
  | m_get_region_offsets
  | m_get_region_count
  | m_get_map
  | m_force_update_maps
  | m_set_height_maps
  | m_get_height_maps
  | m_set_control_maps
  | m_get_control_maps
  | m_get_material
  | m_set_shader_override
  | m_get_shader_override
  | m_set_noise_texture
  | m_get_noise_texture
  | m_set_noise_scale
  | m_set_noise_height
  | m_set_noise_fade
  | m_get_noise_scale
  | m_get_noise_height
  | m_get_noise_fade.

#[export] Instance method_eq_dec : EqDecision method.
Proof. solve_decision. Defined.

(** The parameter count of each declaration (header, lines 75-129). *)
Definition method_arity (m : method) : nat :=
  match m with
  | m__update_layers => 0
  | m__update_arrays => 0
  | m__update_textures => 0
  | m__update_regions => 0
  | m__update_material => 0
  | m__clear => 0
  | m__get_offset_from => 1
  | m_set_region_size => 1
  | m_get_region_size => 0
  | m_set_max_height => 1
  | m_get_max_height => 0
  | m_set_layer => 2
  | m_get_layer => 1
  | m_set_layers => 1
  | m_get_layers => 0
  | m_get_layer_count => 0
  | m_add_region => 1
  | m_remove_region => 1
  | m_has_region => 1
  | m_get_region_index => 1
  | m_set_region_offsets => 1
  | m_get_region_offsets => 0
  | m_get_region_count => 0
  | m_get_map => 2
  | m_force_update_maps => 1
  | m_set_height_maps => 1
  | m_get_height_maps => 0
  | m_set_control_maps => 1
  | m_get_control_maps => 0
  | m_get_material => 0
  | m_set_shader_override => 1
  | m_get_shader_override => 0
  | m_set_noise_texture => 1
  | m_get_noise_texture => 0
  | m_set_noise_scale => 1
  | m_set_noise_height => 1
  | m_set_noise_fade => 1
  | m_get_noise_scale => 0
  | m_get_noise_height => 0
  | m_get_noise_fade => 0
  end.

Definition public_methods : list method :=
  [m_set_region_size; m_get_region_size; m_set_max_height; m_get_max_height; m_set_layer; m_get_layer; m_set_layers; m_get_layers; m_get_layer_count; m_add_region; m_remove_region; m_has_region; m_get_region_index; m_set_region_offsets; m_get_region_offsets; m_get_region_count; m_get_map; m_force_update_maps; m_set_height_maps; m_get_height_maps; m_set_control_maps; m_get_control_maps; m_get_material; m_set_shader_override; m_get_shader_override; m_set_noise_texture; m_get_noise_texture; m_set_noise_scale; m_set_noise_height; m_set_noise_fade; m_get_noise_scale; m_get_noise_height; m_get_noise_fade].

(** [enum MapType] (header, lines 18-23): the values C++ numbers the
    enumerators with. *)
Definition map_type_value (t : MapType) : Z :=
  match t with TYPE_HEIGHT => 0 | TYPE_CONTROL => 1 | TYPE_COLOR => 2 | TYPE_MAX => 3 end.

(** The enumerators of [enum RegionSize] that [Storage.v] does not need
    (header, lines 27-29). *)
Definition SIZE_128 : Z := 128.
Definition SIZE_256 : Z := 256.
Definition SIZE_512 : Z := 512.

(** The [PropertyInfo] hint strings built with [vformat]. *)
Definition image_array_hint : string :=
  vformat "%s/%s:%s" [FInt (variant_type_id OBJECT); FInt (property_hint_id PROPERTY_HINT_RESOURCE_TYPE); FStr "Image"].

Definition offsets_array_hint : string :=
  vformat "%s/%s:%s" [FInt (variant_type_id VECTOR2); FInt (property_hint_id PROPERTY_HINT_NONE)].

Definition layers_array_hint : string :=
  vformat "%s/%s:%s" [FInt (variant_type_id OBJECT); FInt (property_hint_id PROPERTY_HINT_RESOURCE_TYPE);
                      FStr "TerrainLayerMaterial3D"].

(** [Terrain3DStorage::_bind_methods], call by call (lines 512-576). *)
Definition _bind_methods : st (Registry method) unit :=
  bind_integer_constant "MapType" "TYPE_HEIGHT" (map_type_value TYPE_HEIGHT) ;;
  bind_integer_constant "MapType" "TYPE_CONTROL" (map_type_value TYPE_CONTROL) ;;
  bind_integer_constant "MapType" "TYPE_COLOR" (map_type_value TYPE_COLOR) ;;
  bind_integer_constant "MapType" "TYPE_MAX" (map_type_value TYPE_MAX) ;;

  bind_integer_constant "RegionSize" "SIZE_64" SIZE_64 ;;
  bind_integer_constant "RegionSize" "SIZE_128" SIZE_128 ;;
  bind_integer_constant "RegionSize" "SIZE_256" SIZE_256 ;;
  bind_integer_constant "RegionSize" "SIZE_512" SIZE_512 ;;
  bind_integer_constant "RegionSize" "SIZE_1024" SIZE_1024 ;;
  bind_integer_constant "RegionSize" "SIZE_2048" SIZE_2048 ;;

  bind_method "set_region_size" ["size"] m_set_region_size (method_arity m_set_region_size) ;;
  bind_method "get_region_size" [] m_get_region_size (method_arity m_get_region_size) ;;
  bind_method "set_max_height" ["height"] m_set_max_height (method_arity m_set_max_height) ;;
  bind_method "get_max_height" [] m_get_max_height (method_arity m_get_max_height) ;;

  bind_method "set_shader_override" ["shader"] m_set_shader_override (method_arity m_set_shader_override) ;;
  bind_method "get_shader_override" [] m_get_shader_override (method_arity m_get_shader_override) ;;

  bind_method "set_noise_texture" ["texture"] m_set_noise_texture (method_arity m_set_noise_texture) ;;
  bind_method "get_noise_texture" [] m_get_noise_texture (method_arity m_get_noise_texture) ;;
  bind_method "set_noise_scale" ["scale"] m_set_noise_scale (method_arity m_set_noise_scale) ;;
  bind_method "get_noise_scale" [] m_get_noise_scale (method_arity m_get_noise_scale) ;;
  bind_method "set_noise_height" ["height"] m_set_noise_height (method_arity m_set_noise_height) ;;
  bind_method "get_noise_height" [] m_get_noise_height (method_arity m_get_noise_height) ;;
  bind_method "set_noise_fade" ["fade"] m_set_noise_fade (method_arity m_set_noise_fade) ;;
  bind_method "get_noise_fade" [] m_get_noise_fade (method_arity m_get_noise_fade) ;;

  bind_method "set_layer" ["material"; "index"] m_set_layer (method_arity m_set_layer) ;;
  bind_method "get_layer" ["index"] m_get_layer (method_arity m_get_layer) ;;
  bind_method "set_layers" ["layers"] m_set_layers (method_arity m_set_layers) ;;
  bind_method "get_layers" [] m_get_layers (method_arity m_get_layers) ;;

  bind_method "add_region" ["global_position"] m_add_region (method_arity m_add_region) ;;
  bind_method "remove_region" ["global_position"] m_remove_region (method_arity m_remove_region) ;;
  bind_method "has_region" ["global_position"] m_has_region (method_arity m_has_region) ;;
  bind_method "get_region_index" ["global_position"] m_get_region_index (method_arity m_get_region_index) ;;
  bind_method "force_update_maps" ["map_type"] m_force_update_maps (method_arity m_force_update_maps) ;;
  bind_method "get_map" ["region_index"; "map_type"] m_get_map (method_arity m_get_map) ;;

  bind_method "set_height_maps" ["maps"] m_set_height_maps (method_arity m_set_height_maps) ;;
  bind_method "get_height_maps" [] m_get_height_maps (method_arity m_get_height_maps) ;;
  bind_method "set_control_maps" ["maps"] m_set_control_maps (method_arity m_set_control_maps) ;;
  bind_method "get_control_maps" [] m_get_control_maps (method_arity m_get_control_maps) ;;
  bind_method "set_region_offsets" ["offsets"] m_set_region_offsets (method_arity m_set_region_offsets) ;;
  bind_method "get_region_offsets" [] m_get_region_offsets (method_arity m_get_region_offsets) ;;

  add_property (mkPropertyInfo INT "region_size" PROPERTY_HINT_ENUM
                  "64:64, 128:128, 256:256, 512:512, 1024:1024, 2048:2048") "set_region_size" "get_region_size" ;;
  add_property (mkPropertyInfo INT "max_height" PROPERTY_HINT_RANGE "1, 1024, 1") "set_max_height" "get_max_height" ;;

  add_property (mkPropertyInfo ARRAY "height_maps" PROPERTY_HINT_ARRAY_TYPE image_array_hint)
    "set_height_maps" "get_height_maps" ;;
  add_property (mkPropertyInfo ARRAY "control_maps" PROPERTY_HINT_ARRAY_TYPE image_array_hint)
    "set_control_maps" "get_control_maps" ;;
  add_property (mkPropertyInfo ARRAY "region_offsets" PROPERTY_HINT_ARRAY_TYPE offsets_array_hint)
    "set_region_offsets" "get_region_offsets" ;;

  add_property_group "Noise" "noise_" ;;
  add_property (mkPropertyInfo OBJECT "noise_texture" PROPERTY_HINT_RESOURCE_TYPE "Texture2D")
    "set_noise_texture" "get_noise_texture" ;;
  add_property (mkPropertyInfo FLOAT "noise_scale" PROPERTY_HINT_RANGE "0.0, 1.0") "set_noise_scale" "get_noise_scale" ;;
  add_property (mkPropertyInfo FLOAT "noise_height" PROPERTY_HINT_RANGE "0.0, 1.0") "set_noise_height" "get_noise_height" ;;
  add_property (mkPropertyInfo FLOAT "noise_fade" PROPERTY_HINT_RANGE "0.1, 10.0") "set_noise_fade" "get_noise_fade" ;;

  add_property (mkPropertyInfo OBJECT "shader_override" PROPERTY_HINT_RESOURCE_TYPE "Shader")
    "set_shader_override" "get_shader_override" ;;
  add_property (mkPropertyInfo ARRAY "layers" PROPERTY_HINT_ARRAY_TYPE layers_array_hint) "set_layers" "get_layers".

(** The class as [GDCLASS]'s [initialize_class] leaves it: a new
    class entry, then [_bind_methods] run once on it ([_bind_methods]
    never crashes: its failures are printed, so the [Crash] branch is
    never taken). *)
Definition registered : Registry method :=
  match _bind_methods reg_empty with Ok _ r => r | Crash _ => reg_empty end.

Definition registered_class : ClassInfo method := r_class registered.

(** The names ClassDB can call a method of the class by. *)
Definition bound_methods : list string := map mb_name (methods registered_class).

(** The public methods no [D_METHOD] names. *)
Definition unbound_methods : list method :=
  filter (fun m => m ∉ map mb_ptr (methods registered_class)) public_methods.

(** ** Properties *)

(** A property entry resolves when its setter is a bound method of one
    argument and its getter one of none. *)
Definition prop_resolves (c : ClassInfo method) (e : PropEntry) : Prop :=
  match e with
  | PGroup _ _ => True
  | PProp _ st gt =>
      match find_method c st with Some m => mb_arity m = 1%nat | None => False end /\
      match find_method c gt with Some m => mb_arity m = 0%nat | None => False end
  end.

#[export] Instance prop_resolves_dec c e : Decision (prop_resolves c e).
Proof.
  destruct e as [|i st gt]; simpl; [apply _|].
  destruct (find_method c st), (find_method c gt); apply _.
Defined.

(** (C12) [_bind_methods] registers the class without one ClassDB error:
    every property it adds resolves (setter of one argument, getter of
    none, all bound before), no property name repeats, and every public
    method is bound but [get_layer_count], [get_region_count] and
    [get_material], which no script can call.  The hint string of
    [region_offsets] is not a hint: its [vformat] has three [%s] and two
    arguments, so it is the message ["not enough arguments for format
    string"]. *)
Theorem bind_methods_registers :
  r_log registered = [] /\
  Forall (prop_resolves registered_class) (props registered_class) /\
  NoDup (omap prop_name (props registered_class)) /\
  unbound_methods = [m_get_layer_count; m_get_region_count; m_get_material] /\
  offsets_array_hint = "not enough arguments for format string"%string.
Proof.
  split_and!; try (vm_compute; reflexivity).
  - apply (bool_decide_unpack _). vm_compute. reflexivity.
  - apply (bool_decide_unpack _). vm_compute. reflexivity.
Qed.

End Bindings.
