(* ===== verification/Machine.v ===== *)
(** * The storage as a state machine: ownership of the server's RIDs

    The public methods of [Terrain3DStorage] (and the two things a client
    does with the images it shares with the storage: create one, draw on
    one) are the transitions of a state machine on worlds; [reachable]
    worlds are those reached from the constructed storage.

    The storage owns RIDs of the rendering server: its material, its
    shader, and the RID of each [Generated] cache when valid ([handles]).
    The invariant [own_inv] says that these RIDs are pairwise distinct,
    that they are exactly the server's live RIDs, that each names a
    resource of its kind (material, shader, 2D texture for the region
    map, layered texture for the arrays), that a dirty cache holds no
    RID, and that the output log never shows the freeing of a RID that
    is not live.  It holds in every reachable world (rule induction on the
    steps), so the storage neither leaks a RID nor frees one twice, and its
    destructor releases every RID the server holds. *)

From S2P Require Import Prelude Godot GeneratedCache RegionIndex RegionMap Storage.
Import RegionIndex RegionMap Storage.

Module Machine.

(** ** The RIDs the storage owns *)

Definition held_list (g : Generated.t) : list Z :=
  if rid_is_valid (Generated.rid g) then [Generated.rid g] else [].

Definition all_caches : list Cache :=
  [RegionMapCache; HeightCache; ControlCache; AlbedoCache; NormalCache].

Definition cache_handles (s : Terrain3DStorage) (cs : list Cache) : list Z :=
  mjoin ((fun c => held_list (gen c s)) <$> cs).

Definition handles (s : Terrain3DStorage) : list Z :=
  [material s; shader s] ++ cache_handles s all_caches.

(** The handles of every part but the cache [c]. *)
Definition handles_but (c : Cache) (s : Terrain3DStorage) : list Z :=
  [material s; shader s] ++ cache_handles s (filter (fun c' => c' <> c) all_caches).

Definition is_material (en : Engine) (r : RID) : Prop := kind_at en r = Some KMaterial.
Definition is_shader (en : Engine) (r : RID) : Prop := kind_at en r = Some KShader.

(** The kind of resource a cache's RID names: the region map is a 2D
    texture, the other caches are layered textures. *)
Definition cache_kind (c : Cache) : kind :=
  match c with RegionMapCache => KTexture2D | _ => KTextureLayered end.

Definition kinds_ok (en : Engine) (s : Terrain3DStorage) : Prop :=
  forall c, rid_is_valid (Generated.rid (gen c s)) = true ->
            kind_at en (Generated.rid (gen c s)) = Some (cache_kind c).

(** No error of the log is the release of a RID that was not live. *)
Definition no_bad_free (en : Engine) : Prop :=
  forall r, EvError (ErrFreeInvalid r) ∉ log en.

Record own_inv (w : World) : Prop := {
  own_wf : engine_wf (engine w);
  own_nodup : NoDup (handles (storage w));
  own_dom : dom (resources (engine w)) = list_to_set (handles (storage w));
  own_material : is_material (engine w) (material (storage w));
  own_shader : is_shader (engine w) (shader (storage w));
  own_dirty : forall c, Generated.dirty_no_rid (gen c (storage w));
  own_log : no_bad_free (engine w);
  own_init : _initialized (storage w) = true;
  own_kinds : kinds_ok (engine w) (storage w)
}.

(** The relation of a call that keeps the invariant. *)
Definition keeps_own (w w' : World) : Prop := own_inv w -> own_inv w'.

#[export] Instance keeps_own_preorder : PreOrder keeps_own.
Proof. split; [intros w H; exact H|]. intros w1 w2 w3 H12 H23 H. auto. Qed.

(** ** Lemmas on handles *)

Lemma gen_with_gen c c' g s :
  gen c (with_gen c' g s) = if decide (c = c') then g else gen c s.
Proof. by destruct c, c'. Qed.

Lemma handles_split c s : handles s ≡ₚ held_list (gen c s) ++ handles_but c s.
Proof. unfold handles, handles_but, cache_handles. destruct c; simpl; solve_Permutation. Qed.

Lemma handles_but_with_gen c g s : handles_but c (with_gen c g s) = handles_but c s.
Proof. by destruct c. Qed.

Lemma handles_with_gen c g s :
  handles (with_gen c g s) ≡ₚ held_list g ++ handles_but c s.
Proof.
  rewrite (handles_split c), handles_but_with_gen, gen_with_gen.
  by rewrite decide_True.
Qed.

Lemma cache_in_handles_but c c' s :
  c' <> c -> rid_is_valid (Generated.rid (gen c' s)) = true -> Generated.rid (gen c' s) ∈ handles_but c s.
Proof.
  intros Hne Hv. unfold handles_but, cache_handles, held_list.
  apply elem_of_app. right. apply list_elem_of_join. exists [Generated.rid (gen c' s)].
  split; [set_solver|]. apply list_elem_of_fmap. exists c'. rewrite Hv. split; [done|].
  apply list_elem_of_filter. split; [done|]. destruct c'; set_solver.
Qed.

Lemma material_in_handles_but c s : material s ∈ handles_but c s.
Proof. unfold handles_but. set_solver. Qed.

Lemma shader_in_handles_but c s : shader s ∈ handles_but c s.
Proof. unfold handles_but. set_solver. Qed.

Lemma material_with_gen c g s : material (with_gen c g s) = material s.
Proof. by destruct c. Qed.

Lemma shader_with_gen c g s : shader (with_gen c g s) = shader s.
Proof. by destruct c. Qed.

Lemma initialized_with_gen c g s : _initialized (with_gen c g s) = _initialized s.
Proof. by destruct c. Qed.

Lemma no_bad_free_app en en' evs :
  no_bad_free en -> log en' = log en ++ evs ->
  (forall r, EvError (ErrFreeInvalid r) ∉ evs) -> no_bad_free en'.
Proof. intros Hen Hlog Hevs r. rewrite Hlog, elem_of_app. intros [?|?]; [by eapply Hen|by eapply Hevs]. Qed.



(** ** The invariant under a change of one cache *)

(** A cache [c] gets a new value [g'] and the server becomes [en']: the
    invariant holds again when the new handles are distinct and live. *)
Lemma own_inv_gen_update c g' en' w :
  engine_wf en' ->
  NoDup (held_list g' ++ handles_but c (storage w)) ->
  dom (resources en') = list_to_set (held_list g' ++ handles_but c (storage w)) ->
  is_material en' (material (storage w)) -> is_shader en' (shader (storage w)) ->
  Generated.dirty_no_rid g' -> (forall c', c' <> c -> Generated.dirty_no_rid (gen c' (storage w))) ->
  no_bad_free en' -> _initialized (storage w) = true ->
  (rid_is_valid (Generated.rid g') = true -> kind_at en' (Generated.rid g') = Some (cache_kind c)) ->
  (forall c', c' <> c -> rid_is_valid (Generated.rid (gen c' (storage w))) = true ->
     kind_at en' (Generated.rid (gen c' (storage w))) = Some (cache_kind c')) ->
  own_inv (mkWorld (with_gen c g' (storage w)) (images w) (next_object w) en').
Proof.
  intros Hwf Hnd Hdom Hm Hs Hd Hd' Hlog Hinit Hk Hk'. constructor; cbn [storage engine]; try done.
  - by rewrite handles_with_gen.
  - by rewrite handles_with_gen.
  - by rewrite material_with_gen.
  - by rewrite shader_with_gen.
  - intros c'. rewrite gen_with_gen. case_decide; [by subst|]. by apply Hd'.
  - rewrite initialized_with_gen. apply Hinit.
  - intros c'. rewrite gen_with_gen. case_decide; [subst; apply Hk|by apply Hk'].
Qed.

Lemma held_list_invalid g : Generated.rid g = 0%Z -> held_list g = [].
Proof. intros H. unfold held_list. by rewrite H. Qed.

Lemma own_split w c :
  own_inv w ->
  NoDup (held_list (gen c (storage w)) ++ handles_but c (storage w)) /\
  dom (resources (engine w)) =
    list_to_set (held_list (gen c (storage w)) ++ handles_but c (storage w)).
Proof.
  intros Hinv. rewrite <- (handles_split c). split; [apply Hinv|apply Hinv].
Qed.

(** A RID outside the server's table is none of the storage's handles. *)
Lemma fresh_not_handle w c r :
  own_inv w -> resources (engine w) !! r = None -> r ∉ handles_but c (storage w).
Proof.
  intros Hinv Hr Hin. apply not_elem_of_dom in Hr. apply Hr.
  destruct (own_split w c Hinv) as [_ ->]. apply elem_of_list_to_set. set_solver.
Qed.

Lemma keeps_own_gen_clear c : runs keeps_own (gen_clear c).
Proof.
  intros w. unfold runs_at, gen_clear. cbv beta.
  destruct (Generated.clear (gen c (storage w)) (engine w)) as [g' en'] eqn:Hc.
  eexists _, _. split; [reflexivity|]. intros Hinv.
  pose proof (Generated.clear_spec _ _ _ _ Hc) as (Hr & _ & Hd & Hres).
  destruct (own_split w c Hinv) as [Hnd Hdom].
  set (g := gen c (storage w)) in *. set (B := handles_but c (storage w)) in *.
  assert (Hg' : held_list g' = []) by (by apply held_list_invalid).
  assert (Hrest : forall r, r ∈ B -> resources en' !! r = resources (engine w) !! r).
  { intros r Hr'. rewrite Hres. case_match; [|done]. apply lookup_delete_ne.
    intros <-. unfold held_list in Hnd. rewrite H in Hnd. apply NoDup_cons in Hnd. tauto. }
  apply own_inv_gen_update; rewrite ?Hg'.
  - by eapply Generated.clear_wf; [apply Hinv|].
  - by apply NoDup_app in Hnd as (_ & _ & ?).
  - rewrite Hres, app_nil_l. unfold held_list in Hdom, Hnd. destruct (rid_is_valid _) eqn:Hv.
    + rewrite dom_delete_L, Hdom. simpl. apply NoDup_cons in Hnd as [Hn _].
      set_solver.
    + by rewrite Hdom.
  - unfold is_material, kind_at. rewrite Hrest; [apply Hinv|apply material_in_handles_but].
  - unfold is_shader, kind_at. rewrite Hrest; [apply Hinv|apply shader_in_handles_but].
  - intros _. exact Hr.
  - intros c' _. apply Hinv.
  - eapply no_bad_free_app; [apply Hinv| |].
    + unfold Generated.clear in Hc. injection Hc as _ <-.
      case_match; [|by rewrite app_nil_r]. rewrite free_rid_log.
      assert (Hlive : Generated.rid g ∈ dom (resources (engine w))).
      { rewrite Hdom. unfold held_list. rewrite H. set_solver. }
      apply elem_of_dom in Hlive as [? ->]. reflexivity.
    + set_solver.
  - apply Hinv.
  - rewrite Hr. done.
  - intros c' Hne Hv. unfold kind_at. rewrite Hrest; [by apply Hinv|by apply cache_in_handles_but].
Qed.


Lemma no_bad_free_growth en en' : no_bad_free en -> benign_growth en en' -> no_bad_free en'.
Proof.
  intros Hen (evs & Hlog & Hb). by eapply no_bad_free_app.
Qed.

(** A cache that held no RID gets the result of a creation call. *)
Lemma own_inv_created w c res r en' im :
  own_inv w -> Generated.rid (gen c (storage w)) = 0%Z -> kind_of res = cache_kind c ->
  created res (engine w) r en' -> engine_wf en' -> benign_growth (engine w) en' ->
  own_inv (mkWorld (with_gen c (Generated.mk r im false) (storage w)) (images w) (next_object w) en').
Proof.
  intros Hinv H0 Hkind Hc Hwf Hlog. destruct (own_split w c Hinv) as [Hnd Hdom].
  rewrite (held_list_invalid _ H0) in Hnd. rewrite (held_list_invalid _ H0) in Hdom.
  rewrite app_nil_l in Hnd. rewrite app_nil_l in Hdom.
  apply own_inv_gen_update; try done.
  - destruct Hc as [[-> _] | (Hv & Hn & _)]; unfold held_list; simpl; [done|].
    rewrite Hv. apply NoDup_cons. split; [by eapply fresh_not_handle|done].
  - destruct Hc as [[-> ->] | (Hv & Hn & ->)]; unfold held_list; simpl; [done|].
    rewrite Hv, dom_insert_L, Hdom. set_solver.
  - pose proof (own_material _ Hinv) as Hm. unfold is_material, kind_at in *.
    destruct Hc as [[_ ->] | (Hv & Hn & ->)]; [done|].
    rewrite lookup_insert_ne; [done|]. intros ->. by rewrite Hn in Hm.
  - pose proof (own_shader _ Hinv) as Hs. unfold is_shader, kind_at in *.
    destruct Hc as [[_ ->] | (Hv & Hn & ->)]; [done|].
    rewrite lookup_insert_ne; [done|]. intros ->. by rewrite Hn in Hs.
  - intros c' _. apply Hinv.
  - eapply no_bad_free_growth; [apply Hinv|done].
  - apply Hinv.
  - cbn. unfold kind_at. destruct Hc as [[-> _] | (Hv & Hn & ->)]; [done|].
    intros _. by rewrite lookup_insert_eq, <- Hkind.
  - intros c' Hne Hv. pose proof (own_kinds _ Hinv c' Hv) as Hk. unfold kind_at in *.
    destruct Hc as [[_ ->] | (_ & Hn & ->)]; [done|].
    rewrite lookup_insert_ne; [done|]. intros Heq. rewrite <- Heq, Hn in Hk. done.
Qed.

(** A creation runs only on a dirty cache, which holds no RID. *)
Lemma keeps_own_gen_create_layers c l w :
  cache_kind c = KTextureLayered ->
  Generated.dirty (gen c (storage w)) = true -> runs_at keeps_own (gen_create_layers c l) w.
Proof.
  intros Hck Hd. destruct l as [|l0 ls]; [exact (keeps_own_gen_clear c w)|].
  unfold runs_at, gen_create_layers, Generated.create_layers. cbv beta.
  destruct (texture_2d_layered_create (l0 :: ls) (engine w)) as [r en'] eqn:Ec.
  eexists _, _. split; [reflexivity|]. intros Hinv.
  pose proof (own_dirty _ Hinv c Hd) as H0.
  destruct (texture_2d_layered_create_spec _ _ _ _ (own_wf _ Hinv) Ec)
    as [Hwf [[-> Hres] | (imgs & _ & Hc)]].
  - eapply (own_inv_created _ _ (RTextureLayered [])); try done;
      first [by rewrite Hck | by left | by eapply texture_2d_layered_create_log].
  - eapply own_inv_created; try done;
      first [by rewrite Hck | by eapply texture_2d_layered_create_log].
Qed.

Lemma keeps_own_gen_create_image c img w :
  cache_kind c = KTexture2D ->
  Generated.dirty (gen c (storage w)) = true -> runs_at keeps_own (gen_create_image c img) w.
Proof.
  intros Hck Hd. unfold runs_at, gen_create_image, Generated.create_image. cbv beta.
  destruct (texture_2d_create img (engine w)) as [r en'] eqn:Ec.
  eexists _, _. split; [reflexivity|]. intros Hinv.
  pose proof (own_dirty _ Hinv c Hd) as H0.
  destruct (texture_2d_create_spec _ _ _ _ (own_wf _ Hinv) Ec) as [Hc Hwf].
  eapply own_inv_created; try done; first [by rewrite Hck | by eapply texture_2d_create_log].
Qed.


(** ** The invariant under the other calls *)

(** A call into the server that changes only the content of live
    resources and logs no bad free. *)
Lemma own_inv_engine w en' :
  own_inv w -> same_kinds (engine w) en' -> benign_growth (engine w) en' ->
  own_inv (with_engine en' w).
Proof.
  intros Hinv Hk Hlog. pose proof (proj2 Hk) as Hat. constructor; cbn [storage engine with_engine].
  - eapply same_kinds_wf; [apply Hinv|done].
  - apply Hinv.
  - rewrite (same_kinds_dom _ _ Hk). apply Hinv.
  - unfold is_material. rewrite Hat. apply Hinv.
  - unfold is_shader. rewrite Hat. apply Hinv.
  - apply Hinv.
  - eapply no_bad_free_growth; [apply Hinv|done].
  - apply Hinv.
  - intros c Hv. rewrite Hat. by apply Hinv.
Qed.

Lemma keeps_own_engine_do f :
  (forall en, same_kinds en (f en) /\ benign_growth en (f en)) -> runs keeps_own (engine_do f).
Proof.
  intros Hf. apply runs_modify. intros w Hinv. destruct (Hf (engine w)).
  by apply own_inv_engine.
Qed.

Lemma keeps_own_ERR e : benign e -> runs keeps_own (ERR e).
Proof. intros He. apply keeps_own_engine_do. split; [apply same_kinds_report|by apply benign_growth_report]. Qed.

Lemma keeps_own_report_errs es : Forall benign es -> runs keeps_own (report_errs es).
Proof. intros Hes. apply keeps_own_engine_do. split; [apply same_kinds_report_all|by apply benign_growth_report_all]. Qed.

Lemma keeps_own_emit_changed : runs keeps_own emit_changed.
Proof. apply keeps_own_engine_do. split; [apply same_kinds_emit|by apply benign_growth_emit]. Qed.

Lemma keeps_own_notify : runs keeps_own notify_property_list_changed.
Proof. apply keeps_own_engine_do. split; [apply same_kinds_emit|by apply benign_growth_emit]. Qed.

Lemma keeps_own_set_material_param name v : runs keeps_own (set_material_param name v).
Proof.
  intros w. eexists _, _. split; [reflexivity|]. intros Hinv.
  apply own_inv_engine; [done|apply same_kinds_material_set_param|apply material_set_param_log].
Qed.

(** A change of the storage's fields that leaves its RIDs and caches alone. *)
Definition keeps_handles (f : Terrain3DStorage -> Terrain3DStorage) : Prop :=
  forall s, material (f s) = material s /\ shader (f s) = shader s /\
            (forall c, gen c (f s) = gen c s) /\ _initialized (f s) = _initialized s.

Lemma keeps_handles_handles f s : keeps_handles f -> handles (f s) = handles s.
Proof.
  intros Hf. destruct (Hf s) as (Hm & Hs & Hg & _).
  unfold handles, cache_handles. rewrite Hm, Hs. do 2 f_equal.
  apply list_fmap_ext. intros i c _. by rewrite Hg.
Qed.

Lemma keeps_own_modify_storage f : keeps_handles f -> runs keeps_own (modify_storage f).
Proof.
  intros Hf. unfold modify_storage. refine (runs_modify _ _ _). intros w Hinv. destruct (Hf (storage w)) as (Hm & Hs & Hg & Hi).
  constructor; cbn [storage engine with_storage]; rewrite ?(keeps_handles_handles f _ Hf), ?Hm, ?Hs, ?Hi;
    try done; try apply Hinv.
  - intros c. rewrite Hg. apply Hinv.
  - intros c. rewrite Hg. apply Hinv.
Qed.

Lemma keeps_own_new_image img : runs keeps_own (new_image img).
Proof. intros w. eexists _, _. split; [reflexivity|]. intros Hinv. constructor; apply Hinv. Qed.

(** A block guarded by a condition, run when the condition holds. *)
Lemma runs_at_when {R : relation World} `{!PreOrder R} b (c : M unit) w :
  (b = true -> runs_at R c w) -> runs_at R (when b c) w.
Proof. intros Hc. destruct b; [by apply Hc|]. exists tt, w. split; [done|reflexivity]. Qed.

(** A call that does not crash from a world where the invariant fails. *)
Lemma runs_at_absurd {A} (c : M A) w :
  (own_inv w -> False) -> (exists a w', c w = Ok a w') -> runs_at keeps_own c w.
Proof. intros Hno (a & w' & Hc). exists a, w'. split; [done|]. intros Hinv. by destruct (Hno Hinv). Qed.

(** A live RID is valid. *)
Lemma live_valid en r : engine_wf en -> is_Some (resources en !! r) -> rid_is_valid r = true.
Proof.
  intros [_ Hlive] Hr. specialize (Hlive r Hr). unfold rid_is_valid.
  destruct (Z.eqb_spec r 0); [lia|done].
Qed.

Lemma kind_live en r k : kind_at en r = Some k -> is_Some (resources en !! r).
Proof. unfold kind_at. destruct (resources en !! r); [done|by intros]. Qed.

Lemma own_material_valid w : own_inv w -> rid_is_valid (material (storage w)) = true.
Proof. intros Hinv. eapply live_valid; [apply Hinv|]. eapply kind_live, Hinv. Qed.

Lemma own_shader_valid w : own_inv w -> rid_is_valid (shader (storage w)) = true.
Proof. intros Hinv. eapply live_valid; [apply Hinv|]. eapply kind_live, Hinv. Qed.

#[export] Hint Resolve keeps_own_gen_clear keeps_own_ERR keeps_own_report_errs
  keeps_own_emit_changed keeps_own_notify keeps_own_set_material_param
  keeps_own_modify_storage keeps_own_new_image : t3d.

(** The errors the region-map encoder prints are benign. *)
Lemma build_region_map_benign offsets : Forall benign (build_region_map offsets).2.
Proof.
  unfold build_region_map. fold blank. rewrite paint_regions_errors by apply blank_map_image.
  apply Forall_fmap, Forall_true. by intros.
Qed.

(** The region-map block of [_update_regions], on a dirty cache. *)
Lemma runs_at_report_create es img w :
  Forall benign es -> Generated.dirty (gen RegionMapCache (storage w)) = true ->
  runs_at keeps_own (report_errs es ;; gen_create_image RegionMapCache img) w.
Proof.
  intros Hes Hd. refine (runs_at_bind _ _ _ _ _). exists tt, (with_engine (report_all es (engine w)) w).
  split; [reflexivity|]. split.
  - intros Hinv. apply own_inv_engine; [done|apply same_kinds_report_all|by apply benign_growth_report_all].
  - by apply keeps_own_gen_create_image.
Qed.

(** A cache is built only when it is dirty: [_update_regions] keeps the
    invariant. *)
Lemma keeps_own_update_regions : runs keeps_own _update_regions.
Proof.
  unfold _update_regions.
  refine (runs_get _ _ _); intros w.
  refine (runs_at_seq _ _ _ _ _ _);
    [apply runs_at_when; intros Hd; by apply keeps_own_gen_create_layers|intros []].
  refine (runs_get _ _ _); intros w1.
  refine (runs_at_seq _ _ _ _ _ _);
    [apply runs_at_when; intros Hd; by apply keeps_own_gen_create_layers|intros []].
  refine (runs_get _ _ _); intros w2.
  refine (runs_at_seq _ _ _ _ _ _); [apply runs_at_when; intros Hd|intros []].
  { pose proof (build_region_map_benign (region_offsets (storage w2))) as Hb.
    destruct (build_region_map _) as [image errs]. by apply runs_at_report_create. }
  refine (runs_get _ _ _); intros w3. apply runs_runs_at.
  repeat (refine (runs_bind _ _ _ _ _); [by auto with t3d|intros []]). auto with t3d.
Qed.

Lemma array_remove_at_benign {A} i (l : list A) : Forall benign (array_remove_at i l).2.
Proof. unfold array_remove_at. case_decide; repeat constructor. Qed.

#[export] Hint Resolve keeps_own_update_regions Forall_app_2 : t3d.
#[export] Hint Extern 1 (benign _) => exact I : t3d.
#[export] Hint Resolve material_set_param_log material_set_shader_log shader_set_code_log
  benign_growth_report_all : t3d.

(** A resource created only when the field does not hold a valid RID,
    which the invariant excludes. *)
Lemma keeps_own_guarded_create (field : Terrain3DStorage -> RID) (block k : M unit) :
  (forall w, own_inv w -> rid_is_valid (field (storage w)) = true) ->
  (forall w, exists w1, block w = Ok tt w1) -> runs keeps_own k ->
  runs keeps_own (w ← st_get; when (negb (rid_is_valid (field (storage w)))) block ;; k).
Proof.
  intros Hfield Hblock Hk. refine (runs_get _ _ _). intros w.
  destruct (rid_is_valid (field (storage w))) eqn:Hv; cbn [negb when].
  - refine (runs_at_seq _ _ _ _ _ _); [exact (runs_ret _ tt w)|intros []; exact Hk].
  - destruct (Hblock w) as [w1 Hb]. destruct (Hk w1) as (a & w' & Hc & _).
    exists a, w'. split; [by rewrite (bind_ok _ _ _ _ _ Hb)|].
    intros Hinv. by rewrite (Hfield w Hinv) in Hv.
Qed.

(** Decompose a method into calls that keep the invariant. *)
Ltac own_auto :=
  repeat match goal with
  | |- runs _ (st_get ≫= _) => refine (runs_get _ _ _); intros ?; refine (runs_runs_at _ _ _ _)
  | |- runs _ (_ ≫= _) => refine (runs_bind _ _ _ _ _); [|intros ?]
  | |- runs _ (match array_remove_at ?i ?l with pair _ _ => _ end) =>
      pose proof (array_remove_at_benign i l); destruct (array_remove_at i l)
  | |- runs _ (if _ then _ else _) => refine (runs_if _ _ _ _ _ _)
  | |- runs _ (mret _) => refine (runs_ret _ _)
  | |- runs _ (modify_storage _) =>
      apply keeps_own_modify_storage; intros ?s; split_and!; try intros []; reflexivity
  | |- runs _ (engine_do _) => apply keeps_own_engine_do; intros ?en; split; auto with t3d
  | |- runs keeps_own _ => solve [eauto with t3d]
  end.

(** Decompose a computation into its calls for a [keeps] judgement,
    solving each call with [leaf]. *)
Ltac keeps_with leaf :=
  repeat match goal with
  | |- keeps _ (st_get ≫= _) => refine (keeps_get _ _ _); intros ?; refine (keeps_at_keeps _ _ _ _)
  | |- keeps _ (_ ≫= _) => refine (keeps_bind _ _ _ _ _); [|intros ?]
  | |- keeps _ (match array_remove_at ?i ?l with pair _ _ => _ end) =>
      pose proof (array_remove_at_benign i l); destruct (array_remove_at i l)
  | |- keeps _ (match ?x with pair _ _ => _ end) => destruct x
  | |- keeps _ (match ?x with Some _ => _ | None => _ end) => destruct x
  | |- keeps _ (if _ then _ else _) => refine (keeps_if _ _ _ _ _ _)
  | |- keeps _ (when _ _) => refine (keeps_when _ _ _ _)
  | |- keeps _ (mret _) => refine (keeps_ret _ _)
  | |- keeps _ _ => solve [leaf]
  end.

Lemma keeps_own_set_region_size p_size : runs keeps_own (set_region_size p_size).
Proof. unfold set_region_size. own_auto. Qed.

Lemma keeps_own_update_material : runs keeps_own _update_material.
Proof.
  unfold _update_material.
  refine (keeps_own_guarded_create material _ _ own_material_valid _ _);
    [intros w; by eexists|].
  refine (keeps_own_guarded_create shader _ _ own_shader_valid _ _);
    [intros w; by eexists|].
  pose proof keeps_own_set_region_size. own_auto.
Qed.

Lemma keeps_own_set_max_height h : runs keeps_own (set_max_height h).
Proof. unfold set_max_height. own_auto. Qed.

Lemma keeps_own_add_region p : runs keeps_own (add_region p).
Proof. unfold add_region. cbv zeta. own_auto. Qed.

Lemma keeps_own_remove_region p : runs keeps_own (remove_region p).
Proof. unfold remove_region. cbv zeta. own_auto. Qed.

Lemma keeps_own_force_update_maps t : runs keeps_own (force_update_maps t).
Proof. unfold force_update_maps. destruct t; own_auto. Qed.

#[export] Hint Resolve keeps_own_force_update_maps keeps_own_update_material : t3d.

Lemma keeps_own_set_height_maps m : runs keeps_own (set_height_maps m).
Proof. unfold set_height_maps. own_auto. Qed.

Lemma keeps_own_set_control_maps m : runs keeps_own (set_control_maps m).
Proof. unfold set_control_maps. own_auto. Qed.

Lemma keeps_own_set_noise_texture t : runs keeps_own (set_noise_texture t).
Proof. unfold set_noise_texture. own_auto. Qed.

#[export] Hint Resolve keeps_own_set_region_size keeps_own_set_max_height keeps_own_add_region
  keeps_own_remove_region keeps_own_set_height_maps keeps_own_set_control_maps
  keeps_own_set_noise_texture : t3d.

(** [get_map] reads the storage and changes nothing, when it returns. *)
Lemma get_map_pure i t w r w' : get_map i t w = Ok r w' -> w' = w.
Proof.
  unfold get_map. rewrite bind_get.
  destruct t; [| |by intros [=]..];
    (case_match; [by intros [=]|by intros [=]]).
Qed.

(** ** The state machine *)

(** What a client does with an image it shares with the storage:
    [Image::set_pixelv] on the object [id]. *)
Definition client_set_pixel (id : nat) (p : Z * Z) (c : Color) : M unit :=
  w ← st_get;
  match images w !! id with
  | None => st_crash NullDeref
  | Some img =>
      match image_set_pixelv p c img with
      | Some img' => st_put (mkWorld (storage w) (<[id := img']> (images w)) (next_object w) (engine w))
      | None => ERR (ErrPixelIndex p.1 p.2)
      end
  end.

(** The public methods of [Terrain3DStorage] modelled here, and the
    client's actions on images. *)
Inductive call :=
  | SetRegionSize (p_size : Z)
  | SetMaxHeight (p_height : Z)
  | AddRegion (p : Vector3)
  | RemoveRegion (p : Vector3)
  | SetRegionOffsets (p_array : list (Z * Z))
  | GetMap (p_region_index : Z) (p_map_type : MapType)
  | ForceUpdateMaps (p_map_type : MapType)
  | SetHeightMaps (p_maps : list nat)
  | SetControlMaps (p_maps : list nat)
  | SetShaderOverride (p_shader : option RID)
  | SetNoiseTexture (p_texture : option RID)
  | SetNoiseScale (p_scale : Q)
  | SetNoiseHeight (p_height : Q)
  | SetNoiseFade (p_fade : Q)
  | ClientNewImage (img : Image)
  | ClientSetPixel (id : nat) (p : Z * Z) (c : Color).

Definition method_of (c : call) : M unit :=
  match c with
  | SetRegionSize n => set_region_size n
  | SetMaxHeight h => set_max_height h
  | AddRegion p => add_region p
  | RemoveRegion p => remove_region p
  | SetRegionOffsets a => set_region_offsets a
  | GetMap i t => get_map i t ;; mret tt
  | ForceUpdateMaps t => force_update_maps t
  | SetHeightMaps m => set_height_maps m
  | SetControlMaps m => set_control_maps m
  | SetShaderOverride sh => set_shader_override sh
  | SetNoiseTexture t => set_noise_texture t
  | SetNoiseScale q => set_noise_scale q
  | SetNoiseHeight q => set_noise_height q
  | SetNoiseFade q => set_noise_fade q
  | ClientNewImage img => new_image img ;; mret tt
  | ClientSetPixel id p col => client_set_pixel id p col
  end.

(** A call that returns; a call that crashes stops the program. *)
Inductive step : relation World :=
  | step_call c w w' : method_of c w = Ok tt w' -> step w w'.

Definition reachable (w : World) : Prop := rtc step world_constructed w.

(** A sequence of calls, each of which returns; [None] at the first
    crash. *)
Fixpoint run_calls (cs : list call) (w : World) : option World :=
  match cs with
  | [] => Some w
  | c :: rest => match method_of c w with Ok _ w' => run_calls rest w' | Crash _ => None end
  end.

(** ** Preservation *)

Lemma runs_keeps_own {A} (c : M A) w a w' : runs keeps_own c -> c w = Ok a w' -> keeps_own w w'.
Proof. intros Hc Hw. destruct (Hc w) as (a' & w'' & Hw' & Hk). rewrite Hw in Hw'. by injection Hw' as _ <-. Qed.

Lemma keeps_own_client_set_pixel id p col w w' :
  client_set_pixel id p col w = Ok tt w' -> keeps_own w w'.
Proof.
  unfold client_set_pixel. rewrite bind_get.
  destruct (images w !! id); [|by intros [=]].
  destruct (image_set_pixelv p col _).
  - intros [= <-] Hinv. constructor; apply Hinv.
  - apply runs_keeps_own. auto with t3d.
Qed.

Lemma step_keeps_own w w' : step w w' -> keeps_own w w'.
Proof.
  intros Hs. destruct Hs as [c w0 w1 Hc]. destruct c; cbn [method_of] in Hc;
    try (eapply runs_keeps_own; [|exact Hc]; unfold set_region_offsets, set_shader_override,
         set_noise_scale, set_noise_height, set_noise_fade; own_auto; fail).
  - destruct (get_map p_region_index p_map_type w0) as [r w2|f] eqn:Eg;
      [|by rewrite (bind_crash _ _ _ _ Eg) in Hc].
    rewrite (bind_ok _ _ _ _ _ Eg) in Hc. injection Hc as <-.
    apply get_map_pure in Eg as ->. done.
  - by eapply keeps_own_client_set_pixel.
Qed.

(** The calls whose method has no crashing path: all but [get_map]
    (an unchecked index) and the client's [set_pixel] on an image it
    does not hold. *)
Definition total_call (c : call) : bool :=
  match c with GetMap _ _ | ClientSetPixel _ _ _ => false | _ => true end.

Lemma runs_returns (c : M unit) w : runs keeps_own c -> exists w', c w = Ok tt w' /\ keeps_own w w'.
Proof. intros Hc. destruct (Hc w) as ([] & w' & E & Hk). by exists w'. Qed.

(** ** The invariant of reachable worlds *)

(** The constructor creates the material (RID 1) and the shader (RID 2),
    and nothing else. *)
Lemma own_inv_constructed : own_inv world_constructed.
Proof.
  assert (Hlog : log (engine world_constructed) = []) by (vm_compute; reflexivity).
  constructor.
  - apply engine_wf_intro; [vm_compute; congruence|].
    apply (bool_decide_unpack _). vm_compute. reflexivity.
  - apply (bool_decide_unpack _). vm_compute. reflexivity.
  - apply (bool_decide_unpack _). vm_compute. reflexivity.
  - vm_compute. reflexivity.
  - vm_compute. reflexivity.
  - intros [] Hd; vm_compute in Hd; discriminate Hd.
  - intros r. rewrite Hlog. apply not_elem_of_nil.
  - vm_compute. reflexivity.
  - intros [] Hv; vm_compute in Hv; discriminate Hv.
Qed.

Lemma step_own_inv w w' : step w w' -> own_inv w -> own_inv w'.
Proof. apply step_keeps_own. Qed.

Lemma run_calls_reachable cs w w' : reachable w -> run_calls cs w = Some w' -> reachable w'.
Proof.
  revert w. induction cs as [|c cs IH]; intros w Hr; simpl; [by intros [= <-]|].
  destruct (method_of c w) as [[] w1|] eqn:Ec; [|done].
  apply IH. eapply rtc_r; [exact Hr|]. by constructor 1 with c.
Qed.

(** [_clear] frees the material, the shader and each cache's RID, in
    this order. *)
Definition clear_order (s : Terrain3DStorage) : list RID :=
  [material s; shader s] ++
  cache_handles s [HeightCache; ControlCache; AlbedoCache; NormalCache; RegionMapCache].

Lemma clear_order_handles s : clear_order s ≡ₚ handles s.
Proof. unfold clear_order, handles, cache_handles. simpl. solve_Permutation. Qed.

Lemma gen_clear_run c w :
  gen_clear c w = Ok tt (mkWorld (with_gen c (Generated.mk 0 None true) (storage w)) (images w)
                                 (next_object w) (free_all (held_list (gen c (storage w))) (engine w))).
Proof.
  unfold gen_clear, Generated.clear, held_list, free_all. cbv beta.
  by destruct (rid_is_valid (Generated.rid (gen c (storage w)))).
Qed.

Lemma free_all_app l1 l2 en : free_all (l1 ++ l2) en = free_all l2 (free_all l1 en).
Proof. apply foldl_app. Qed.

Lemma clear_run w :
  exists s', _clear w = Ok tt (mkWorld s' (images w) (next_object w)
                                      (free_all (clear_order (storage w)) (engine w))).
Proof.
  unfold _clear. rewrite bind_get. unfold engine_do. rewrite !bind_modify.
  rewrite !(bind_ok _ _ _ _ _ (gen_clear_run _ _)), gen_clear_run.
  eexists. unfold clear_order, cache_handles. cbn [mjoin list_join fmap list_fmap].
  rewrite !free_all_app. reflexivity.
Qed.

(** (C2) Ownership of the server's RIDs: in every world reachable from
    the constructed storage by the public methods and the client's image
    edits, the RIDs the storage holds (material, shader, the valid RID of
    each cache) are pairwise distinct and are exactly the server's live
    RIDs (no leak, no RID shared by two owners), the material and shader
    RIDs name a material and a shader, each cache's valid RID names a
    texture of the cache's kind, a dirty cache holds no RID, and no
    [free_rid] of a dead RID was ever printed. *)
Theorem reachable_own_inv w : reachable w -> own_inv w.
Proof.
  intros Hr. refine (rtc_ind_r own_inv world_constructed own_inv_constructed _ w Hr).
  intros y z _ Hs IH. by eapply step_own_inv.
Qed.

Lemma reachable_own_inv_witness : reachable world_two /\ own_inv world_two.
Proof.
  assert (Hr : reachable world_two).
  { eapply rtc_l; [apply (step_call (AddRegion origin)); vm_compute; reflexivity|].
    eapply rtc_l; [apply (step_call (AddRegion corner)); vm_compute; reflexivity|].
    apply rtc_refl. }
  split; [exact Hr|]. exact (reachable_own_inv world_two Hr).
Defined.

(** (C13) The destructor of a storage that satisfies the ownership
    invariant returns, leaves the server with no live RID, and prints
    nothing: every RID the storage held is freed exactly once. *)
Theorem destructor_releases_all w :
  own_inv w ->
  exists w', destructor w = Ok tt w' /\ resources (engine w') = ∅ /\ log (engine w') = log (engine w).
Proof.
  intros Hinv. unfold destructor. rewrite bind_get, (own_init _ Hinv). cbn [when].
  destruct (clear_run w) as [s' Hc]. eexists. split; [exact Hc|]. cbn [engine].
  pose proof (clear_order_handles (storage w)) as Hp.
  destruct (free_all_spec (clear_order (storage w)) (engine w)) as [Hdom Hlog].
  - rewrite Hp. apply Hinv.
  - intros r Hin. rewrite (own_dom _ Hinv), elem_of_list_to_set, <- Hp. exact Hin.
  - split; [|done]. apply dom_empty_iff_L. rewrite Hdom, (own_dom _ Hinv).
    apply set_eq. intros r. rewrite elem_of_difference, !elem_of_list_to_set, Hp. set_solver.
Qed.

Lemma destructor_releases_all_witness :
  own_inv world_constructed /\
  exists w', destructor world_constructed = Ok tt w' /\ resources (engine w') = ∅ /\
             log (engine w') = log (engine world_constructed).
Proof.
  split; [exact own_inv_constructed|]. exact (destructor_releases_all world_constructed own_inv_constructed).
Defined.





End Machine.
