(* ===== verification/Passes.v ===== *)
(** * The update pass: idempotence and isolation

    [_update_regions] ([src/src/terrain_storage.cpp], lines 349-377)
    rebuilds each dirty region cache and then publishes the caches'
    handles on the material.  Proved here, for a storage that satisfies
    the ownership invariant of [Machine.v]:
    - after one pass the storage is [settled]: every cache the pass
      examined is clean, or dirty only because its source is empty, and
      the material shows the caches' current handles;
    - a settled storage is a fixed point of the pass: running
      [_update_regions] twice in a row does no work the second time and
      leaves the world exactly as it was (section 8, "Idempotence");
    - [force_update_maps] on one map type rebuilds that cache and leaves
      a clean cache of the other type untouched (section 8, "Cache
      isolation"). *)

From S2P Require Import Prelude Godot GeneratedCache RegionIndex RegionMap Storage Machine.
Import RegionIndex RegionMap Storage Machine.

Module Passes.

(** A region array cache that reflects its source: clean, or dirty,
    empty and without a RID because the source list [src] is empty. *)
Definition array_current (c : Cache) (src : list nat) (s : Terrain3DStorage) : Prop :=
  Generated.dirty (gen c s) = true -> gen c s = Generated.mk 0 None true /\ src = [].

(** The state [_update_regions] leaves: the caches it examined are
    current, the region map is clean, and the material holds the caches'
    handles. *)
Definition settled (w : World) : Prop :=
  let s := storage w in
  array_current HeightCache (height_maps s) s /\
  array_current ControlCache (control_maps s) s /\
  Generated.dirty (gen RegionMapCache s) = false /\
  material_param (engine w) (material s) "height_maps" = Some (PRid (Generated.rid (gen HeightCache s))) /\
  material_param (engine w) (material s) "control_maps" = Some (PRid (Generated.rid (gen ControlCache s))) /\
  material_param (engine w) (material s) "region_map" = Some (PRid (Generated.rid (gen RegionMapCache s))) /\
  material_param (engine w) (material s) "region_map_size" = Some (PInt region_map_size).

(** ** Lemmas *)

Lemma with_gen_gen c s : with_gen c (gen c s) s = s.
Proof. by destruct c, s. Qed.

Lemma mkWorld_eta w : mkWorld (storage w) (images w) (next_object w) (engine w) = w.
Proof. by destruct w. Qed.

Lemma images_of_nil w l : images_of w l = [] <-> l = [].
Proof. unfold images_of. split; [apply fmap_nil_inv|by intros ->]. Qed.

(** Setting a parameter to the value it has changes nothing. *)
Lemma material_set_param_same en m name v :
  material_param en m name = Some v -> material_set_param m name v en = en.
Proof.
  unfold material_param, material_set_param.
  destruct (resources en !! m) as [[img|imgs|code|sh ps]|] eqn:E; try discriminate. intros Hv.
  rewrite (insert_id ps) by done. rewrite insert_id by done. by destruct en.
Qed.

(** The block of [_update_regions] that rebuilds a region array. *)
Lemma layers_block c l w :
  exists w' g', (when (Generated.is_dirty (gen c (storage w))) (gen_create_layers c l)) w = Ok tt w' /\
    storage w' = with_gen c g' (storage w) /\ images w' = images w /\
    (Generated.dirty g' = true -> g' = Generated.mk 0 None true /\ l = []) /\
    (Generated.dirty (gen c (storage w)) = false -> g' = gen c (storage w)).
Proof.
  unfold Generated.is_dirty. destruct (Generated.dirty (gen c (storage w))) eqn:Hd; cbn [when].
  - unfold gen_create_layers, Generated.create_layers. destruct l as [|l0 ls].
    + unfold Generated.clear. eexists _, _. split; [reflexivity|]. split_and!; [reflexivity|done|done|done].
    + destruct (texture_2d_layered_create (l0 :: ls) (engine w)) as [r en'].
      eexists _, _. split; [reflexivity|]. split_and!; [reflexivity|done| |done]. by intros [=].
  - exists w, (gen c (storage w)). split; [done|]. rewrite with_gen_gen, Hd. by split_and!.
Qed.

(** The block that rebuilds the region map. *)
Lemma region_map_block w :
  exists w' g',
    (when (Generated.is_dirty (gen RegionMapCache (storage w)))
       (let '(image, errs) := build_region_map (region_offsets (storage w)) in
        report_errs errs ;; gen_create_image RegionMapCache image)) w = Ok tt w' /\
    storage w' = with_gen RegionMapCache g' (storage w) /\ images w' = images w /\
    Generated.dirty g' = false.
Proof.
  unfold Generated.is_dirty. destruct (Generated.dirty (gen RegionMapCache (storage w))) eqn:Hd; cbn [when].
  - destruct (build_region_map _) as [image errs].
    unfold report_errs, engine_do. rewrite bind_modify.
    set (w1 := with_engine (report_all errs (engine w)) w).
    unfold gen_create_image, Generated.create_image.
    destruct (texture_2d_create image (engine w1)) as [r en']. eexists _, _. split; [reflexivity|]. by split_and!.
  - exists w, (gen RegionMapCache (storage w)). split; [done|]. by rewrite with_gen_gen.
Qed.

Lemma bind_set_material_param {B} name v (k : unit -> M B) w :
  (set_material_param name v ≫= k) w =
    k tt (with_engine (material_set_param (material (storage w)) name v (engine w)) w).
Proof. reflexivity. Qed.

Lemma gen_with_gen_eq c g s : gen c (with_gen c g s) = g.
Proof. by destruct c. Qed.

Lemma gen_with_gen_ne c c' g s : c <> c' -> gen c (with_gen c' g s) = gen c s.
Proof. intros Hne. destruct c, c'; done. Qed.

Lemma arrays_with_gen c g s :
  height_maps (with_gen c g s) = height_maps s /\ control_maps (with_gen c g s) = control_maps s /\
  region_offsets (with_gen c g s) = region_offsets s.
Proof. by destruct c. Qed.

(** One pass leaves the storage settled. *)
Lemma update_regions_settled w w1 :
  own_inv w -> _update_regions w = Ok tt w1 -> settled w1.
Proof.
  intros Hinv Hrun. pose proof (runs_keeps_own _ _ _ _ keeps_own_update_regions Hrun Hinv) as Hinv1.
  unfold _update_regions in Hrun. rewrite bind_get in Hrun.
  destruct (layers_block HeightCache (images_of w (height_maps (storage w))) w)
    as (wa & ga & Ea & Sa & _ & Da & _).
  rewrite (bind_ok _ _ _ _ _ Ea), bind_get in Hrun.
  destruct (layers_block ControlCache (images_of wa (control_maps (storage wa))) wa)
    as (wb & gb & Eb & Sb & _ & Db & _).
  rewrite (bind_ok _ _ _ _ _ Eb), bind_get in Hrun.
  destruct (region_map_block wb) as (wc & gc & Ec & Sc & _ & Dc).
  rewrite (bind_ok _ _ _ _ _ Ec), bind_get in Hrun.
  rewrite !bind_set_material_param in Hrun. unfold set_material_param in Hrun. injection Hrun as <-.
  pose proof (own_material _ Hinv1) as Hm. unfold is_material in Hm.
  unfold settled. cbn [storage engine with_engine] in Hm |- *.
  rewrite !kind_at_material_set_param in Hm. rewrite Sc, Sb, Sa in Hm |- *.
  rewrite Sa in Db. unfold Generated.get_rid.
  cbn -[material_set_param material_param images_of kind_at] in Hm, Db |- *.
  split_and!.
  - intros Hd. destruct (Da Hd) as [-> Hnil]. split; [done|]. by apply images_of_nil in Hnil.
  - intros Hd. destruct (Db Hd) as [-> Hnil]. split; [done|]. by apply images_of_nil in Hnil.
  - done.
  - rewrite !material_param_set_ne by done. by apply material_param_set.
  - rewrite !material_param_set_ne by done. apply material_param_set. by rewrite kind_at_material_set_param.
  - rewrite !material_param_set_ne by done. apply material_param_set. by rewrite !kind_at_material_set_param.
  - apply material_param_set. by rewrite !kind_at_material_set_param.
Qed.

Lemma layers_block_fixed c l w :
  (Generated.dirty (gen c (storage w)) = true -> gen c (storage w) = Generated.mk 0 None true /\ l = []) ->
  (when (Generated.is_dirty (gen c (storage w))) (gen_create_layers c l)) w = Ok tt w.
Proof.
  unfold Generated.is_dirty. destruct (Generated.dirty (gen c (storage w))) eqn:Hd; cbn [when]; [|done].
  intros Hs. destruct (Hs eq_refl) as [Hg ->].
  unfold gen_create_layers, Generated.create_layers, Generated.clear. rewrite Hg. cbn -[with_gen].
  rewrite <- Hg, with_gen_gen. by rewrite mkWorld_eta.
Qed.

Lemma set_material_param_fixed name v w :
  material_param (engine w) (material (storage w)) name = Some v -> set_material_param name v w = Ok tt w.
Proof.
  intros Hv. unfold set_material_param. rewrite material_set_param_same by done.
  by destruct w.
Qed.

(** A settled storage is a fixed point of the pass. *)
Lemma settled_fixed w :
  settled w -> _update_regions w = Ok tt w.
Proof.
  intros (Hh & Hc & Hr & Ph & Pc & Pr & Ps). unfold _update_regions, Generated.get_rid.
  assert (Bh : (when (Generated.is_dirty (gen HeightCache (storage w)))
     (gen_create_layers HeightCache (images_of w (height_maps (storage w))))) w = Ok tt w).
  { apply layers_block_fixed. intros Hd. destruct (Hh Hd) as [-> ->]. by split. }
  assert (Bc : (when (Generated.is_dirty (gen ControlCache (storage w)))
     (gen_create_layers ControlCache (images_of w (control_maps (storage w))))) w = Ok tt w).
  { apply layers_block_fixed. intros Hd. destruct (Hc Hd) as [-> ->]. by split. }
  rewrite bind_get, (bind_ok _ _ _ _ _ Bh), bind_get, (bind_ok _ _ _ _ _ Bc).
  rewrite bind_get. unfold Generated.is_dirty at 1. rewrite Hr. cbn [when]. rewrite bind_ret, bind_get.
  rewrite (bind_ok _ _ _ _ _ (set_material_param_fixed _ _ _ Ph)).
  rewrite (bind_ok _ _ _ _ _ (set_material_param_fixed _ _ _ Pc)).
  rewrite (bind_ok _ _ _ _ _ (set_material_param_fixed _ _ _ Pr)).
  exact (set_material_param_fixed _ _ _ Ps).
Qed.

(** The caches a pass leaves: each region array cache is kept when it
    was clean, and dirty afterwards only when its source list is empty;
    the region map is clean. *)
Lemma update_regions_shape w w' :
  _update_regions w = Ok tt w' ->
  exists ga gb gc,
    storage w' = with_gen RegionMapCache gc (with_gen ControlCache gb (with_gen HeightCache ga (storage w))) /\
    (Generated.dirty (gen HeightCache (storage w)) = false -> ga = gen HeightCache (storage w)) /\
    (Generated.dirty ga = true -> ga = Generated.mk 0 None true /\ height_maps (storage w) = []) /\
    (Generated.dirty (gen ControlCache (storage w)) = false -> gb = gen ControlCache (storage w)) /\
    (Generated.dirty gb = true -> gb = Generated.mk 0 None true /\ control_maps (storage w) = []) /\
    Generated.dirty gc = false.
Proof.
  intros Hrun. unfold _update_regions in Hrun. rewrite bind_get in Hrun.
  destruct (layers_block HeightCache (images_of w (height_maps (storage w))) w)
    as (wa & ga & Ea & Sa & _ & Da & Ka).
  rewrite (bind_ok _ _ _ _ _ Ea), bind_get in Hrun.
  destruct (layers_block ControlCache (images_of wa (control_maps (storage wa))) wa)
    as (wb & gb & Eb & Sb & _ & Db & Kb).
  rewrite (bind_ok _ _ _ _ _ Eb), bind_get in Hrun.
  destruct (region_map_block wb) as (wc & gc & Ec & Sc & _ & Dc).
  rewrite (bind_ok _ _ _ _ _ Ec), bind_get in Hrun.
  rewrite !bind_set_material_param in Hrun. unfold set_material_param in Hrun. injection Hrun as <-.
  exists ga, gb, gc. cbn [storage with_engine]. rewrite Sc, Sb, Sa.
  rewrite Sa in Db, Kb. rewrite gen_with_gen_ne in Kb by done.
  destruct (arrays_with_gen HeightCache ga (storage w)) as (HhA & HcA & _). rewrite HcA in Db.
  split_and!; try done.
  - intros Hd. destruct (Da Hd) as [-> Hnil]. split; [done|]. by apply images_of_nil in Hnil.
  - intros Hd. destruct (Db Hd) as [-> Hnil]. split; [done|]. by apply images_of_nil in Hnil.
Qed.

(** ** Claims *)

(** (C14) Idempotence of the update pass: on a storage that satisfies
    the ownership invariant, one run of [_update_regions] leaves it
    [settled] (each region cache current, the material showing their
    handles), and a second run right after returns and leaves the world
    exactly as the first left it: no cache is rebuilt, no RID is created
    or freed, no parameter changes and nothing is printed. *)
Theorem update_regions_idempotent w w1 :
  own_inv w -> _update_regions w = Ok tt w1 -> settled w1 /\ _update_regions w1 = Ok tt w1.
Proof.
  intros Hinv Hrun. assert (Hs : settled w1) by (by eapply update_regions_settled).
  split; [exact Hs|by apply settled_fixed].
Qed.

Lemma own_inv_world_one : own_inv world_one.
Proof.
  apply (step_own_inv world_constructed); [|exact own_inv_constructed].
  apply (step_call (AddRegion origin)). vm_compute. reflexivity.
Qed.

Lemma update_regions_idempotent_witness :
  own_inv world_one /\ _update_regions world_one = Ok tt (after _update_regions world_one) /\
  settled (after _update_regions world_one) /\
  _update_regions (after _update_regions world_one) = Ok tt (after _update_regions world_one).
Proof.
  assert (H1 : _update_regions world_one = Ok tt (after _update_regions world_one))
    by (vm_compute; reflexivity).
  split; [exact own_inv_world_one|]. split; [exact H1|].
  exact (update_regions_idempotent world_one _ own_inv_world_one H1).
Defined.

(** (C19) Cache isolation: [force_update_maps(TYPE_HEIGHT)] leaves a
    clean control-map cache as it was, and rebuilds the height cache at
    once: afterwards that cache is current with the height maps, dirty
    only when there are none. *)
Theorem force_update_height_isolation w w' :
  force_update_maps TYPE_HEIGHT w = Ok tt w' ->
  Generated.dirty (gen ControlCache (storage w)) = false ->
  gen ControlCache (storage w') = gen ControlCache (storage w) /\
  array_current HeightCache (height_maps (storage w)) (storage w').
Proof.
  intros Hrun Hc. unfold force_update_maps in Hrun.
  rewrite (bind_ok _ _ _ _ _ (gen_clear_run _ _)) in Hrun.
  destruct (update_regions_shape _ _ Hrun) as (ga & gb & gc & Hs & _ & Da & Kb & _ & _).
  cbn [storage] in Hs, Da, Kb. rewrite Hs.
  rewrite gen_with_gen_ne in Kb by done. specialize (Kb Hc).
  destruct (arrays_with_gen HeightCache (Generated.mk 0 None true) (storage w)) as (Hh & _ & _).
  rewrite Hh in Da. split.
  - rewrite gen_with_gen_ne, gen_with_gen_eq by done. exact Kb.
  - unfold array_current. rewrite gen_with_gen_ne, gen_with_gen_ne, gen_with_gen_eq by done. exact Da.
Qed.

Lemma force_update_height_isolation_witness :
  force_update_maps TYPE_HEIGHT world_one = Ok tt (after (force_update_maps TYPE_HEIGHT) world_one) /\
  Generated.dirty (gen ControlCache (storage world_one)) = false /\
  gen ControlCache (storage (after (force_update_maps TYPE_HEIGHT) world_one)) =
    gen ControlCache (storage world_one) /\
  array_current HeightCache (height_maps (storage world_one))
    (storage (after (force_update_maps TYPE_HEIGHT) world_one)).
Proof.
  assert (H1 : force_update_maps TYPE_HEIGHT world_one = Ok tt (after (force_update_maps TYPE_HEIGHT) world_one))
    by (vm_compute; reflexivity).
  assert (H2 : Generated.dirty (gen ControlCache (storage world_one)) = false) by (vm_compute; reflexivity).
  split; [exact H1|]. split; [exact H2|].
  exact (force_update_height_isolation _ _ H1 H2).
Defined.

(** ** Loading a saved storage *)

(** What Godot does when it loads a saved storage: the two images of a
    region, then the three persisted arrays, set through their setters
    in the order of the properties ([_bind_methods], lines 557-559). *)
Definition load_calls : list call :=
  [ClientNewImage (image_fill (mkColor 0 0 0 1) (image_create 1024 1024 FORMAT_RH));
   ClientNewImage (image_fill (mkColor 0 0 0 1) (image_create 1024 1024 FORMAT_RGBA8));
   SetHeightMaps [0%nat]; SetControlMaps [1%nat]; SetRegionOffsets [(0, 0)%Z]].

(** (C15) A loaded storage has no region map: after the load sequence
    the storage has a region at the origin and a height array texture,
    but the region-map cache was never built (its dirty flag starts
    [false] and no setter of the load sets it), so the material's
    [region_map] parameter is the invalid RID 0 and the shader finds no
    region anywhere. *)
Theorem load_never_builds_region_map :
  exists w, run_calls load_calls world_constructed = Some w /\ reachable w /\
    has_region (region_size (storage w)) (region_offsets (storage w)) origin = true /\
    rid_is_valid (Generated.rid (gen HeightCache (storage w))) = true /\
    Generated.rid (gen RegionMapCache (storage w)) = 0%Z /\
    Generated.dirty (gen RegionMapCache (storage w)) = false /\
    material_param (engine w) (material (storage w)) "region_map" = Some (PRid 0).
Proof.
  destruct (run_calls load_calls world_constructed) as [w|] eqn:E; [|vm_compute in E; discriminate].
  exists w. split; [done|]. split; [exact (run_calls_reachable _ _ _ (rtc_refl _ _) E)|].
  vm_compute in E. injection E as <-. split_and!; vm_compute; reflexivity.
Qed.



End Passes.
