(* ===== verification/RegionInvariant.v ===== *)
(** * The region arrays: uniqueness and lockstep

    The specification (sections 3 and 4.2) requires the offsets of the
    regions to be pairwise unique, and the height and control arrays to
    stay in lockstep with the offsets.  [regions_wf] states both.  Proved
    here:
    - [add_region] and [remove_region] keep [regions_wf], and every other
      method leaves the three arrays untouched, except the three bulk
      setters [set_region_offsets], [set_height_maps], [set_control_maps];
    - those setters store their argument as it is: a duplicate offset, or
      a height array shorter than the offsets, is accepted, after which
      [get_map] on a region that exists reads out of range. *)

From S2P Require Import Prelude Godot GeneratedCache RegionIndex RegionMap Storage Machine.
Import RegionIndex RegionMap Storage Machine.

Module RegionInvariant.

Definition regions_wf (s : Terrain3DStorage) : Prop :=
  NoDup (region_offsets s) /\
  length (height_maps s) = length (region_offsets s) /\
  length (control_maps s) = length (region_offsets s).

(** The calls that edit the arrays only through [add_region] and
    [remove_region]. *)
Definition region_call (c : call) : bool :=
  match c with
  | SetRegionOffsets _ | SetHeightMaps _ | SetControlMaps _ => false
  | _ => true
  end.

Definition arrays_of (s : Terrain3DStorage) := (region_offsets s, height_maps s, control_maps s).

Definition same_arrays (w w' : World) : Prop := arrays_of (storage w') = arrays_of (storage w).

#[export] Instance same_arrays_preorder : PreOrder same_arrays.
Proof. split; [by intros w|]. intros w1 w2 w3 H12 H23. unfold same_arrays in *. congruence. Qed.

(** ** Lemmas *)

Lemma same_regions_arrays w w' : same_regions w w' -> same_arrays w w'.
Proof. intros [Hr _]. unfold regions_of in Hr. unfold same_arrays, arrays_of. congruence. Qed.

Lemma regions_wf_same w w' : same_arrays w w' -> regions_wf (storage w) -> regions_wf (storage w').
Proof.
  unfold same_arrays, arrays_of, regions_wf. intros [= Ho Hh Hc]. by rewrite Ho, Hh, Hc.
Qed.

Lemma runs_arrays_engine_call {A} (f : Engine -> A * Engine) : runs same_arrays (engine_call f).
Proof. intros w. unfold runs_at, engine_call. destruct (f (engine w)). by eexists _, _. Qed.

Lemma runs_arrays_set_material_param name v : runs same_arrays (set_material_param name v).
Proof. intros w. by eexists _, _. Qed.

Lemma runs_arrays_same_regions {A} (c : M A) : runs same_regions c -> runs same_arrays c.
Proof. apply runs_weaken, same_regions_arrays. Qed.

#[export] Hint Resolve runs_arrays_engine_call runs_arrays_set_material_param : t3d.

(** Decompose a method that leaves the arrays alone. *)
Ltac arrays_auto :=
  repeat match goal with
  | |- runs _ (st_get ≫= _) => refine (runs_get _ _ _); intros ?; refine (runs_runs_at _ _ _ _)
  | |- runs _ (_ ≫= _) => refine (runs_bind _ _ _ _ _); [|intros ?]
  | |- runs _ (when _ _) => refine (runs_when _ _ _)
  | |- runs _ (if _ then _ else _) => refine (runs_if _ _ _ _ _ _)
  | |- runs _ (mret _) => refine (runs_ret _ _)
  | |- runs _ (modify_storage _) => refine (runs_modify _ _ _); intros ?; reflexivity
  | |- runs _ (ERR _) => refine (runs_modify _ _ _); intros ?; reflexivity
  | |- runs _ (engine_do _) => refine (runs_modify _ _ _); intros ?; reflexivity
  | |- runs same_arrays _ => solve [eauto with t3d]
  | |- runs same_arrays _ => apply runs_arrays_same_regions; solve [eauto with t3d]
  end.

Lemma runs_arrays_set_region_size n : runs same_arrays (set_region_size n).
Proof. unfold set_region_size. arrays_auto. Qed.

#[export] Hint Resolve runs_arrays_set_region_size : t3d.

Lemma runs_arrays_update_material : runs same_arrays _update_material.
Proof. unfold _update_material. arrays_auto. Qed.

#[export] Hint Resolve runs_arrays_update_material : t3d.

(** A method that returns from a world where it runs keeps the arrays. *)
Lemma runs_arrays_wf {A} (c : M A) w a w' :
  runs same_arrays c -> c w = Ok a w' -> regions_wf (storage w) -> regions_wf (storage w').
Proof.
  intros Hc Hw. destruct (Hc w) as (a' & w'' & Hw' & Hs). rewrite Hw in Hw'.
  injection Hw' as _ <-. by apply regions_wf_same.
Qed.

Lemma add_region_wf p w w' :
  regions_wf (storage w) -> add_region p w = Ok tt w' -> regions_wf (storage w').
Proof.
  intros (Hnd & Hh & Hc). destruct (has_region (region_size (storage w)) (region_offsets (storage w)) p) eqn:Hr.
  - unfold add_region. rewrite bind_get. cbv zeta. rewrite Hr. intros [= <-]. by split_and!.
  - destruct (add_region_run w p Hr) as (w'' & Hrun & Ho & Hh' & Hc' & _). rewrite Hrun.
    intros [= <-]. apply has_region_false in Hr. unfold regions_wf.
    rewrite Ho, Hh', Hc', !length_app, Hh, Hc. split_and!; [by apply NoDup_snoc|done|done].
Qed.

Lemma remove_region_wf p w w' :
  regions_wf (storage w) -> remove_region p w = Ok tt w' -> regions_wf (storage w').
Proof.
  intros (Hnd & Hh & Hc).
  destruct (decide (get_region_count (storage w) = 1%Z)) as [H1|H1].
  { unfold remove_region. rewrite bind_get. cbv zeta. rewrite bool_decide_true by done.
    intros [= <-]. by split_and!. }
  set (o := _get_offset_from (region_size (storage w)) p).
  destruct (decide (o ∈ region_offsets (storage w))) as [Hin|Hout].
  - destruct (index_of_range _ _ Hin) as [Hrange Hlk].
    set (i := Z.to_nat (index_of (region_offsets (storage w)) o)).
    assert (Hi : get_region_index (region_size (storage w)) (region_offsets (storage w)) p = Z.of_nat i)
      by (rewrite get_region_index_index_of; fold o; unfold i; lia).
    destruct (remove_region_run w p i H1 Hnd Hh Hc Hi) as (w'' & Hrun & Ho & Hh' & Hc' & _).
    rewrite Hrun. intros [= <-]. unfold regions_wf. rewrite Ho, Hh', Hc'.
    unfold size_Z in Hrange.
    assert (Hlt : (i < length (region_offsets (storage w)))%nat) by (unfold i; lia).
    rewrite !length_delete by (apply lookup_lt_is_Some; lia).
    split_and!; [by apply NoDup_delete|lia|lia].
  - apply index_of_absent in Hout. unfold remove_region. rewrite bind_get. cbv zeta.
    rewrite bool_decide_false by done. rewrite get_region_index_index_of. fold o. rewrite Hout.
    cbn. intros [= <-]. by split_and!.
Qed.

Lemma client_set_pixel_storage id p col w w' :
  client_set_pixel id p col w = Ok tt w' -> storage w' = storage w.
Proof.
  unfold client_set_pixel. rewrite bind_get.
  destruct (images w !! id); [|by intros [=]].
  by destruct (image_set_pixelv p col _); intros [= <-].
Qed.

(** ** Claims *)

(** (C5) Unique offsets in lockstep: every call other than the three bulk
    setters keeps the region offsets pairwise distinct and the height and
    control arrays as long as the offsets: [add_region] and
    [remove_region] edit the three arrays together, and every other call
    leaves them unchanged. *)
Theorem region_calls_keep_wf c w w' :
  region_call c = true -> regions_wf (storage w) -> method_of c w = Ok tt w' ->
  regions_wf (storage w').
Proof.
  intros Hc Hwf. destruct c; cbn [region_call method_of] in Hc |- *; try discriminate.
  - intros Hr; eapply runs_arrays_wf; [|exact Hr|exact Hwf]; [auto with t3d].
  - intros Hr; eapply runs_arrays_wf; [|exact Hr|exact Hwf]; [unfold set_max_height; arrays_auto].
  - intros Hr. by eapply add_region_wf.
  - intros Hr. by eapply remove_region_wf.
  - destruct (get_map p_region_index p_map_type w) as [r w1|f] eqn:Eg;
      [|by rewrite (bind_crash _ _ _ _ Eg)].
    rewrite (bind_ok _ _ _ _ _ Eg). intros [= <-]. by apply get_map_pure in Eg as ->.
  - intros Hr; eapply runs_arrays_wf; [|exact Hr|exact Hwf]; [apply runs_arrays_same_regions; auto with t3d].
  - intros Hr; eapply runs_arrays_wf; [|exact Hr|exact Hwf]; [unfold set_shader_override; arrays_auto].
  - intros Hr; eapply runs_arrays_wf; [|exact Hr|exact Hwf]; [unfold set_noise_texture; arrays_auto].
  - intros Hr; eapply runs_arrays_wf; [|exact Hr|exact Hwf]; [unfold set_noise_scale; arrays_auto].
  - intros Hr; eapply runs_arrays_wf; [|exact Hr|exact Hwf]; [unfold set_noise_height; arrays_auto].
  - intros Hr; eapply runs_arrays_wf; [|exact Hr|exact Hwf]; [unfold set_noise_fade; arrays_auto].
  - intros [= <-]. done.
  - intros Hr. by rewrite (client_set_pixel_storage _ _ _ _ _ Hr).
Qed.

Lemma region_calls_keep_wf_witness :
  region_call (AddRegion corner) = true /\ regions_wf (storage world_one) /\
  method_of (AddRegion corner) world_one = Ok tt world_two /\ regions_wf (storage world_two).
Proof.
  assert (H1 : regions_wf (storage world_one)).
  { split_and!; [apply (bool_decide_unpack _); vm_compute; reflexivity|vm_compute; reflexivity..]. }
  assert (H2 : method_of (AddRegion corner) world_one = Ok tt world_two) by (vm_compute; reflexivity).
  split_and!; [reflexivity|exact H1|exact H2|].
  exact (region_calls_keep_wf (AddRegion corner) world_one world_two eq_refl H1 H2).
Defined.

(** (C26) The bulk setters break the lockstep: after
    [set_height_maps([])] on a storage with one region, the region still
    exists at index 0, the arrays are no longer in lockstep, and
    [get_map(0, TYPE_HEIGHT)] reads the empty height array out of
    range. *)
Theorem set_height_maps_breaks_lockstep :
  exists w', set_height_maps [] world_one = Ok tt w' /\ ~ regions_wf (storage w') /\
    has_region (region_size (storage w')) (region_offsets (storage w')) origin = true /\
    get_region_index (region_size (storage w')) (region_offsets (storage w')) origin = 0%Z /\
    get_map 0 TYPE_HEIGHT w' = Crash (IndexOutOfRange 0).
Proof.
  exists (after (set_height_maps []) world_one).
  split_and!; [vm_compute; reflexivity|intros (_ & Hh & _); vm_compute in Hh; discriminate Hh|
               vm_compute; reflexivity..].
Qed.

End RegionInvariant.
