(* ===== verification/Layers.v ===== *)
(** * The layer registry

    The layer methods of [Terrain3DStorage] ([src/src/terrain_storage.cpp],
    lines 257-347): [set_layer], [get_layer], [set_layers],
    [get_layer_count], [_update_layers], [_update_arrays] and
    [_update_textures].  The layers are [Ref<TerrainLayerMaterial3D>]
    objects, a class outside [src/] ([terrain_material.h]) modelled from
    the specification (sections 3 and 4.5): each holds an albedo and a
    normal texture, a uv scale and an albedo colour, and emits the
    signals [texture_changed] and [value_changed] when edited.

    The world of this file, [LWorld], extends the [World] of
    [Storage.v] with the heap of layer materials and the list of signal
    connections from a layer to a method of the storage; the methods of
    [Storage.v] run on its [base] through [lift].  Connections name the
    storage's methods by the strings of the source's [Callable]s:
    ["_update_textures"], ["_update_arrays"] and ["_update_values"]; a
    signal calls them through ClassDB, which knows only the methods
    [_bind_methods] registers (none of these three).

    Module [Layers] holds the data and the methods, and the proof that
    each method keeps the ownership invariant of [Machine.v].  Module
    [LayerProps] holds the run lemmas of the methods (what they return
    and leave when every layer of the list is a live object) and the
    properties of the registry:
    - [set_layer(null, i)] with [i] past the end appends a null layer and
      then crashes on it in [_update_layers]; a negative index crashes;
    - [set_layers] with live layers connects both signals of each layer
      and rebuilds the albedo array from the layers' albedo textures, in
      order (section 4.3);
    - no edit of a layer reaches the storage: the signals are connected
      to ["_update_textures"] and ["_update_values"], names
      [_bind_methods] does not register, so Godot prints "Method not
      found" and the texture arrays are never marked dirty;
    - every world the program with layers reaches keeps the ownership
      invariant, and no layer is ever connected to ["_update_arrays"];
    - [set_layer(null, i)] disconnects [value_changed] from
      ["_update_arrays"], a connection that was never made, so the
      removed layer stays connected to ["_update_values"]. *)

From S2P Require Import Prelude Godot GeneratedCache RegionIndex RegionMap Storage Registration Machine Passes.
Import RegionIndex Storage Machine Passes.

Module Layers.

(** [TerrainLayerMaterial3D]: the fields the storage reads. *)
Record LayerMaterial := mkLayer {
  albedo_texture : option Image;   (* get_albedo_texture(), null as None *)
  normal_texture : option Image;   (* get_normal_texture() *)
  uv_scale : Vector3;              (* get_uv_scale() *)
  albedo : Color                   (* get_albedo() *)
}.

(** The two signals of a layer material. *)
Inductive signal := SigTextureChanged | SigValueChanged.

#[export] Instance signal_eq_dec : EqDecision signal.
Proof. solve_decision. Defined.

(** The methods of the storage that the source's [Callable]s name. *)
Inductive target := TgtUpdateTextures | TgtUpdateArrays | TgtUpdateValues.

#[export] Instance target_eq_dec : EqDecision target.
Proof. solve_decision. Defined.

(** A connection: the emitting layer object, its signal, the method. *)
Definition connection : Type := nat * signal * target.

Record LWorld := mkLWorld {
  base : World;
  mats : gmap nat LayerMaterial;
  next_mat : nat;
  conns : list connection
}.

Abbreviation L := (st LWorld).

Definition with_base (w : World) (lw : LWorld) : LWorld :=
  mkLWorld w (mats lw) (next_mat lw) (conns lw).

Definition with_conns (cs : list connection) (lw : LWorld) : LWorld :=
  mkLWorld (base lw) (mats lw) (next_mat lw) cs.

(** A method of [Storage.v] run on the storage's world. *)
Definition lift {A} (c : M A) : L A :=
  fun lw => match c (base lw) with
            | Ok a w => Ok a (with_base w lw)
            | Crash f => Crash f
            end.

Definition layers_of (lw : LWorld) : list (option nat) := layers (storage (base lw)).

(** [layers[i]] read without a check: out of range is a crash. *)
Definition index_read {A} (l : list A) (i : Z) : L A :=
  match lookup_Z l i with Some x => mret x | None => st_crash (IndexOutOfRange i) end.

(** [layers[i] = x]: the same check. *)
Definition index_write {A} (l : list A) (i : Z) (x : A) : L (list A) :=
  match lookup_Z l i with
  | Some _ => mret (<[Z.to_nat i := x]> l)
  | None => st_crash (IndexOutOfRange i)
  end.

(** The object behind a [Ref<TerrainLayerMaterial3D>]: a null reference
    is a crash. *)
Definition deref (r : option nat) : L (nat * LayerMaterial) :=
  fun lw => match r with
            | Some o => match mats lw !! o with
                        | Some m => Ok (o, m) lw
                        | None => Crash NullDeref
                        end
            | None => Crash NullDeref
            end.

(** [Object::is_connected], [connect], [disconnect]; disconnecting a
    connection that does not exist prints an error. *)
Definition is_connected (o : nat) (sig : signal) (tgt : target) (lw : LWorld) : bool :=
  bool_decide ((o, sig, tgt) ∈ conns lw).

Definition connect (o : nat) (sig : signal) (tgt : target) : L unit :=
  st_modify (fun lw => with_conns (conns lw ++ [(o, sig, tgt)]) lw).

Definition disconnect (o : nat) (sig : signal) (tgt : target) : L unit :=
  lw ← st_get;
  if is_connected o sig tgt lw
  then st_put (with_conns (filter (fun c => c <> (o, sig, tgt)) (conns lw)) lw)
  else lift (ERR (ErrNotConnected o)).

(** ** Methods *)

(** The loop of [_update_layers]: connect each layer's two signals once. *)
Fixpoint connect_layers (ls : list (option nat)) : L unit :=
  match ls with
  | [] => mret tt
  | r :: rest =>
      '(o, _) ← deref r;
      lw ← st_get;
      when (negb (is_connected o SigTextureChanged TgtUpdateTextures lw))
        (connect o SigTextureChanged TgtUpdateTextures) ;;
      lw ← st_get;
      when (negb (is_connected o SigValueChanged TgtUpdateValues lw))
        (connect o SigValueChanged TgtUpdateValues) ;;
      connect_layers rest
  end.

(** The loop of [_update_arrays]: the uv scale and the albedo of each
    layer. *)
Fixpoint layer_arrays (ls : list (option nat)) : L (list (Vector3 * Color)) :=
  match ls with
  | [] => mret []
  | r :: rest =>
      '(_, m) ← deref r;
      arrs ← layer_arrays rest;
      mret ((uv_scale m, albedo m) :: arrs)
  end.

(** [_update_arrays()] (lines 310-323): the arrays are built and
    dropped; the method only emits [changed]. *)
Definition _update_arrays : L unit :=
  lw ← st_get;
  _ ← layer_arrays (layers_of lw);
  lift emit_changed.

(** The loops of [_update_textures]: one texture of each layer. *)
Fixpoint layer_textures (f : LayerMaterial -> option Image) (ls : list (option nat)) :
    L (list (option Image)) :=
  match ls with
  | [] => mret []
  | r :: rest =>
      '(_, m) ← deref r;
      texs ← layer_textures f rest;
      mret (f m :: texs)
  end.

(** [_update_textures()] (lines 325-345). *)
Definition _update_textures : L unit :=
  lw ← st_get;
  when (Generated.is_dirty (gen AlbedoCache (storage (base lw))))
    (texs ← layer_textures albedo_texture (layers_of lw);
     lift (gen_create_layers AlbedoCache texs)) ;;
  lw ← st_get;
  when (Generated.is_dirty (gen NormalCache (storage (base lw))))
    (texs ← layer_textures normal_texture (layers_of lw);
     lift (gen_create_layers NormalCache texs)).

(** [_update_layers()] (lines 294-308). *)
Definition _update_layers : L unit :=
  lw ← st_get;
  connect_layers (layers_of lw) ;;
  _update_arrays ;;
  _update_textures.

(** [set_layer(p_material, p_index)] (lines 257-276). *)
Definition set_layer (p_material : option nat) (p_index : Z) : L unit :=
  lw ← st_get;
  let ls := layers_of lw in
  (if bool_decide (p_index < size_Z ls)%Z then
     match p_material with
     | None =>
         r ← index_read ls p_index;
         '(o, _) ← deref r;
         disconnect o SigTextureChanged TgtUpdateTextures ;;
         disconnect o SigValueChanged TgtUpdateArrays ;;
         let '(ls', es) := array_remove_at p_index ls in
         lift (modify_storage (with_layers ls') ;; report_errs es)
     | Some o =>
         ls' ← index_write ls p_index (Some o);
         lift (modify_storage (with_layers ls'))
     end
   else lift (modify_storage (with_layers (ls ++ [p_material])))) ;;
  lift (gen_clear AlbedoCache ;; gen_clear NormalCache) ;;
  _update_layers ;;
  lift notify_property_list_changed.

(** [get_layer(p_index)] (lines 278-280). *)
Definition get_layer (p_index : Z) : L (option nat) :=
  lw ← st_get; index_read (layers_of lw) p_index.

(** [set_layers(p_layers)] (lines 282-287). *)
Definition set_layers (p_layers : list (option nat)) : L unit :=
  lift (modify_storage (with_layers p_layers) ;; gen_clear AlbedoCache ;; gen_clear NormalCache) ;;
  _update_layers.

(** [get_layer_count()] (lines 293-295). *)
Definition get_layer_count (lw : LWorld) : Z := size_Z (layers_of lw).

(** ** Signals and the client's edits of a layer *)

Definition target_name (tgt : target) : string :=
  match tgt with
  | TgtUpdateTextures => "_update_textures"
  | TgtUpdateArrays => "_update_arrays"
  | TgtUpdateValues => "_update_values"
  end%string.

(** A connected method called by a signal: the storage's method when
    ClassDB has it (a name in [Bindings.bound_methods], what
    [_bind_methods] registers), else the engine prints "Method not
    found".  The
    storage has no [_update_values] at all. *)
Definition call_target (o : nat) (tgt : target) : L unit :=
  if bool_decide (target_name tgt ∈ Bindings.bound_methods) then
    match tgt with
    | TgtUpdateTextures => _update_textures
    | TgtUpdateArrays => _update_arrays
    | TgtUpdateValues => lift (ERR (ErrMethodNotFound o))
    end
  else lift (ERR (ErrMethodNotFound o)).

Fixpoint call_targets (o : nat) (tgts : list target) : L unit :=
  match tgts with
  | [] => mret tt
  | t :: rest => call_target o t ;; call_targets o rest
  end.

(** [emit_signal]: the methods connected to the signal, in the order of
    their connection. *)
Definition emit_signal (o : nat) (sig : signal) : L unit :=
  lw ← st_get;
  call_targets o ((fun c => c.2) <$> filter (fun c => c.1 = (o, sig)) (conns lw)).

(** A new layer material object. *)
Definition new_layer (m : LayerMaterial) : L nat :=
  fun lw => Ok (next_mat lw) (mkLWorld (base lw) (<[next_mat lw := m]> (mats lw)) (S (next_mat lw)) (conns lw)).

(** The setters of [TerrainLayerMaterial3D]: a texture edit emits
    [texture_changed], a value edit [value_changed]. *)
Definition edit_layer (o : nat) (f : LayerMaterial -> LayerMaterial) (sig : signal) : L unit :=
  lw ← st_get;
  match mats lw !! o with
  | None => st_crash NullDeref
  | Some m => st_put (mkLWorld (base lw) (<[o := f m]> (mats lw)) (next_mat lw) (conns lw)) ;;
              emit_signal o sig
  end.

Definition set_albedo_texture (o : nat) (t : option Image) : L unit :=
  edit_layer o (fun m => mkLayer t (normal_texture m) (uv_scale m) (albedo m)) SigTextureChanged.

Definition set_uv_scale (o : nat) (v : Vector3) : L unit :=
  edit_layer o (fun m => mkLayer (albedo_texture m) (normal_texture m) v (albedo m)) SigValueChanged.

(** ** The program with layers

    A call of the client: a call of [Machine.v] on the storage's world,
    a layer method of the storage, or the creation or edit of a layer
    material. *)
Inductive lcall :=
  | LBase (c : call)
  | LSetLayer (p_material : option nat) (p_index : Z)
  | LGetLayer (p_index : Z)
  | LSetLayers (p_layers : list (option nat))
  | LNewLayer (m : LayerMaterial)
  | LSetAlbedoTexture (o : nat) (t : option Image)
  | LSetUvScale (o : nat) (v : Vector3).

Definition lmethod_of (c : lcall) : L unit :=
  match c with
  | LBase c => lift (method_of c)
  | LSetLayer m i => set_layer m i
  | LGetLayer i => get_layer i ;; mret tt
  | LSetLayers ls => set_layers ls
  | LNewLayer m => new_layer m ;; mret tt
  | LSetAlbedoTexture o t => set_albedo_texture o t
  | LSetUvScale o v => set_uv_scale o v
  end.

(** A call that returns; a crash stops the program. *)
Inductive lstep : relation LWorld :=
  | lstep_call c lw lw' : lmethod_of c lw = Ok tt lw' -> lstep lw lw'.

(** The storage just constructed, with no layer material yet. *)
Definition lworld_init : LWorld := mkLWorld world_constructed ∅ 0 [].

Definition lreachable (lw : LWorld) : Prop := rtc lstep lworld_init lw.

Fixpoint run_lcalls (cs : list lcall) (lw : LWorld) : option LWorld :=
  match cs with
  | [] => Some lw
  | c :: rest => match lmethod_of c lw with Ok _ lw' => run_lcalls rest lw' | Crash _ => None end
  end.

(** ** The ownership invariant with layers *)

(** The relation of a call that keeps the ownership invariant of the
    storage's world. *)
Definition lown (lw lw' : LWorld) : Prop := own_inv (base lw) -> own_inv (base lw').

#[export] Instance lown_preorder : PreOrder lown.
Proof. split; [intros lw H; exact H|]. intros l1 l2 l3 H12 H23 H. auto. Qed.

#[export] Hint Resolve lown_preorder : t3d.

Lemma keeps_lift_at {A} (c : M A) lw : runs_at keeps_own c (base lw) -> keeps_at lown (lift c) lw.
Proof.
  intros (b & w & E & Hk) a lw'. unfold lift. rewrite E. intros [= _ <-]. exact Hk.
Qed.

Lemma keeps_lift {A} (c : M A) : runs keeps_own c -> keeps lown (lift c).
Proof. intros Hc lw. apply keeps_lift_at, Hc. Qed.

Lemma keeps_lift_step {A} (c : M A) :
  (forall w a w', c w = Ok a w' -> keeps_own w w') -> keeps lown (lift c).
Proof.
  intros Hc lw a lw'. unfold lift. destruct (c (base lw)) as [b w|] eqn:E; [|done].
  intros [= _ <-]. by apply (Hc _ b).
Qed.

(** A computation that does not touch the storage's world. *)
Lemma keeps_same_base {A} (c : L A) :
  (forall lw a lw', c lw = Ok a lw' -> base lw' = base lw) -> keeps lown c.
Proof. intros Hc lw a lw' E. unfold lown. rewrite (Hc _ _ _ E). done. Qed.

Lemma deref_same r lw a lw' : deref r lw = Ok a lw' -> lw' = lw.
Proof. unfold deref. repeat case_match; by intros [=]. Qed.

Lemma keeps_deref r : keeps lown (deref r).
Proof. apply keeps_same_base. intros lw a lw' ->%deref_same. done. Qed.

Lemma keeps_index_read {A} (l : list A) i : keeps lown (index_read l i).
Proof. unfold index_read. case_match; [apply (keeps_ret lown)|apply keeps_crash]. Qed.

Lemma keeps_index_write {A} (l : list A) i x : keeps lown (index_write l i x).
Proof. unfold index_write. case_match; [apply (keeps_ret lown)|apply keeps_crash]. Qed.

Lemma keeps_connect o sig tgt : keeps lown (connect o sig tgt).
Proof. refine (keeps_modify lown _ _). intros lw H. exact H. Qed.

Lemma keeps_disconnect o sig tgt : keeps lown (disconnect o sig tgt).
Proof.
  unfold disconnect. refine (keeps_get _ _ _). intros lw.
  case_match; [intros a lw' [= _ <-] Hinv; exact Hinv|]. apply keeps_at_keeps, keeps_lift. auto with t3d.
Qed.

#[export] Hint Resolve keeps_deref keeps_index_read keeps_index_write keeps_connect keeps_disconnect : t3d.

(** Decompose a layer method into calls that keep the ownership
    invariant. *)
Ltac lkeeps_auto :=
  keeps_with ltac:(first [apply keeps_lift; own_auto | eauto with t3d]).

Lemma keeps_connect_layers ls : keeps lown (connect_layers ls).
Proof. induction ls as [|r rest IH]; simpl; lkeeps_auto. Qed.

Lemma layer_arrays_same ls lw a lw' : layer_arrays ls lw = Ok a lw' -> lw' = lw.
Proof.
  revert a lw'. induction ls as [|r rest IH]; intros a lw'; simpl; [by intros [= _ <-]|].
  unfold mbind, st_mbind, st_bind. destruct (deref r lw) as [[o m] lw1|] eqn:E; [|done].
  apply deref_same in E as ->. destruct (layer_arrays rest lw) as [arrs lw2|] eqn:E2; [|done].
  pose proof (IH arrs lw2 eq_refl) as ->. by intros [= _ <-].
Qed.

Lemma layer_textures_same f ls lw a lw' : layer_textures f ls lw = Ok a lw' -> lw' = lw.
Proof.
  revert a lw'. induction ls as [|r rest IH]; intros a lw'; simpl; [by intros [= _ <-]|].
  unfold mbind, st_mbind, st_bind. destruct (deref r lw) as [[o m] lw1|] eqn:E; [|done].
  apply deref_same in E as ->. destruct (layer_textures f rest lw) as [texs lw2|] eqn:E2; [|done].
  pose proof (IH texs lw2 eq_refl) as ->. by intros [= _ <-].
Qed.

Lemma keeps_layer_arrays ls : keeps lown (layer_arrays ls).
Proof. apply keeps_same_base. intros lw a lw' ->%layer_arrays_same. done. Qed.

#[export] Hint Resolve keeps_connect_layers keeps_layer_arrays : t3d.

(** A texture array is built only when its cache is dirty. *)
Lemma keeps_texture_block c f ls lw :
  cache_kind c = KTextureLayered ->
  keeps_at lown (when (Generated.is_dirty (gen c (storage (base lw))))
                   (texs ← layer_textures f ls; lift (gen_create_layers c texs))) lw.
Proof.
  intros Hck. unfold Generated.is_dirty. destruct (Generated.dirty (gen c (storage (base lw)))) eqn:Hd;
    [|exact (keeps_ret lown tt lw)].
  intros a lw''. cbn [when]. unfold mbind, st_mbind, st_bind.
  destruct (layer_textures f ls lw) as [texs lw1|] eqn:E; [|done].
  apply layer_textures_same in E as ->. apply keeps_lift_at. by apply keeps_own_gen_create_layers.
Qed.

Lemma keeps_update_textures : keeps lown _update_textures.
Proof.
  unfold _update_textures. refine (keeps_get _ _ _). intros lw.
  refine (keeps_at_seq _ _ _ _ _ _); [by apply keeps_texture_block|]. intros _.
  refine (keeps_get _ _ _). intros lw1. by apply keeps_texture_block.
Qed.

Lemma keeps_update_arrays : keeps lown _update_arrays.
Proof. unfold _update_arrays. lkeeps_auto. Qed.

#[export] Hint Resolve keeps_update_textures keeps_update_arrays : t3d.

Lemma keeps_update_layers : keeps lown _update_layers.
Proof. unfold _update_layers. lkeeps_auto. Qed.

#[export] Hint Resolve keeps_update_layers : t3d.

Lemma keeps_set_layer m i : keeps lown (set_layer m i).
Proof. unfold set_layer. cbv zeta. lkeeps_auto. Qed.

Lemma keeps_set_layers ls : keeps lown (set_layers ls).
Proof. unfold set_layers. lkeeps_auto. Qed.

Lemma keeps_get_layer i : keeps lown (get_layer i).
Proof. unfold get_layer. lkeeps_auto. Qed.

Lemma keeps_call_targets o tgts : keeps lown (call_targets o tgts).
Proof. induction tgts as [|[] rest IH]; simpl; lkeeps_auto. Qed.

#[export] Hint Resolve keeps_call_targets : t3d.

Lemma keeps_edit_layer o f sig : keeps lown (edit_layer o f sig).
Proof.
  unfold edit_layer, emit_signal. refine (keeps_get _ _ _). intros lw.
  destruct (mats lw !! o); [|apply keeps_crash].
  intros a lw''. unfold mbind, st_mbind, st_bind, st_put. intros Hrun Hinv.
  exact (keeps_call_targets _ _ _ _ _ Hrun Hinv).
Qed.

Lemma keeps_new_layer m : keeps lown (new_layer m).
Proof. intros lw a lw' [= _ <-] Hinv. exact Hinv. Qed.



#[export] Hint Resolve keeps_set_layer keeps_set_layers keeps_get_layer keeps_edit_layer keeps_new_layer : t3d.

Lemma lstep_lown lw lw' : lstep lw lw' -> lown lw lw'.
Proof.
  intros [c lw0 lw1 Hc]. enough (Hk : keeps lown (lmethod_of c)) by exact (Hk lw0 tt lw1 Hc).
  destruct c; cbn [lmethod_of]; lkeeps_auto.
  apply keeps_lift_step. intros w [] w' E. exact (step_keeps_own _ _ (step_call _ _ _ E)).
Qed.

Lemma run_lcalls_reachable cs lw0 lw lw' :
  rtc lstep lw0 lw -> run_lcalls cs lw = Some lw' -> rtc lstep lw0 lw'.
Proof.
  revert lw. induction cs as [|c rest IH]; intros lw Hr; simpl; [by intros [= <-]|].
  destruct (lmethod_of c lw) as [[] lw1|] eqn:E; [|done].
  intros Hrun. apply (IH lw1); [|done]. eapply rtc_r; [exact Hr|]. by econstructor.
Qed.

End Layers.

Module LayerProps.
Import Layers.

(** A reference to a live layer object. *)
Definition layer_live (lw : LWorld) (r : option nat) : bool :=
  match r with Some o => bool_decide (is_Some (mats lw !! o)) | None => false end.

(** The texture [f] of each layer of [ls]. *)
Definition textures_of (f : LayerMaterial -> option Image) (lw : LWorld) (ls : list (option nat)) :
    list (option Image) :=
  (fun r => match r with
            | Some o => match mats lw !! o with Some m => f m | None => None end
            | None => None
            end) <$> ls.

(** Two layers with the same 4x4 albedo texture, objects 0 and 1 of a
    constructed storage. *)
Definition tex_img : Image := image_create 4 4 FORMAT_RGBA8.

Definition layer_demo : LayerMaterial :=
  mkLayer (Some tex_img) None (mkVector3 1 1 1) (mkColor 1 1 1 1).

Definition lworld_two : LWorld := mkLWorld world_constructed {[0 := layer_demo; 1 := layer_demo]} 2 [].

(** The world a call leaves, or the world before it when it crashes. *)
Definition after_l (c : L unit) (lw : LWorld) : LWorld :=
  match c lw with Ok _ lw' => lw' | Crash _ => lw end.

(** The program that creates two layers and sets them as the list. *)
Definition demo_calls : list lcall :=
  [LNewLayer layer_demo; LNewLayer layer_demo; LSetLayers [Some 0; Some 1]].

Definition lworld_built : LWorld := default lworld_init (run_lcalls demo_calls lworld_init).

(** Section 4.5, [set(index, layer_or_null)]: a null layer removes the
    slot (the list is compacted), a layer replaces the slot in place, an
    index past the end appends. *)
Definition set_layer_spec (m : option nat) (i : Z) (ls : list (option nat)) : list (option nat) :=
  if bool_decide (i < size_Z ls)%Z then
    match m with None => delete (Z.to_nat i) ls | Some o => <[Z.to_nat i := Some o]> ls end
  else ls ++ [m].

(** ** Lemmas *)

Lemma layer_live_conns cs lw r : layer_live (with_conns cs lw) r = layer_live lw r.
Proof. done. Qed.

Lemma deref_live lw r :
  layer_live lw r = true -> exists o m, r = Some o /\ mats lw !! o = Some m /\ deref r lw = Ok (o, m) lw.
Proof.
  destruct r as [o|]; [|done]. simpl. case_bool_decide as Hm; [|done]. intros _.
  destruct Hm as [m Hm]. exists o, m. unfold deref. by rewrite Hm.
Qed.

Lemma deref_dead lw r : layer_live lw r = false -> deref r lw = Crash NullDeref.
Proof.
  destruct r as [o|]; [|done]. simpl. case_bool_decide as Hm; [done|]. intros _.
  unfold deref. destruct (mats lw !! o) eqn:E; [|done]. exfalso. apply Hm. by eexists.
Qed.

Lemma with_conns_eta lw : with_conns (conns lw) lw = lw.
Proof. by destruct lw. Qed.

(** One [if (!is_connected(...)) connect(...)] of [_update_layers]. *)
Lemma ensure_connected o sig tgt lw :
  exists added,
    (when (negb (is_connected o sig tgt lw)) (connect o sig tgt)) lw =
      Ok tt (with_conns (conns lw ++ added) lw) /\
    (o, sig, tgt) ∈ conns lw ++ added /\ (forall c, c ∈ added -> c = (o, sig, tgt)).
Proof.
  unfold is_connected. case_bool_decide as Hin; cbn [negb when].
  - exists []. rewrite app_nil_r, with_conns_eta. split_and!; [done|done|set_solver].
  - exists [(o, sig, tgt)]. split_and!; [done|set_solver|set_solver].
Qed.

(** The loop of [_update_layers] over a list with a null or dead layer
    crashes on it. *)
Lemma connect_layers_dead ls lw :
  forallb (layer_live lw) ls = false -> connect_layers ls lw = Crash NullDeref.
Proof.
  revert lw. induction ls as [|r rest IH]; intros lw; simpl; [done|].
  destruct (layer_live lw r) eqn:Hr; simpl; [intros Hrest|intros _].
  - destruct (deref_live _ _ Hr) as (o & m & -> & Hm & Hd).
    rewrite (bind_ok _ _ _ _ _ Hd). cbn iota. rewrite bind_get.
    destruct (ensure_connected o SigTextureChanged TgtUpdateTextures lw) as (a1 & E1 & _).
    rewrite (bind_ok _ _ _ _ _ E1), bind_get.
    destruct (ensure_connected o SigValueChanged TgtUpdateValues (with_conns (conns lw ++ a1) lw))
      as (a2 & E2 & _).
    rewrite (bind_ok _ _ _ _ _ E2). apply IH. done.
  - by rewrite (bind_crash _ _ _ _ (deref_dead _ _ Hr)).
Qed.

(** Over live layers, the loop connects both signals of each layer, and
    only those. *)
Lemma connect_layers_run ls lw :
  forallb (layer_live lw) ls = true ->
  exists added, connect_layers ls lw = Ok tt (with_conns (conns lw ++ added) lw) /\
    (forall o, Some o ∈ ls ->
       (o, SigTextureChanged, TgtUpdateTextures) ∈ conns lw ++ added /\
       (o, SigValueChanged, TgtUpdateValues) ∈ conns lw ++ added) /\
    (forall c, c ∈ added -> c.2 <> TgtUpdateArrays).
Proof.
  revert lw. induction ls as [|r rest IH]; intros lw Hlive.
  { exists []. rewrite app_nil_r, with_conns_eta. split_and!; [done|set_solver|set_solver]. }
  simpl in Hlive. apply andb_true_iff in Hlive as [Hr Hrest].
  destruct (deref_live _ _ Hr) as (o & m & -> & Hm & Hd). simpl.
  rewrite (bind_ok _ _ _ _ _ Hd). cbn iota. rewrite bind_get.
  destruct (ensure_connected o SigTextureChanged TgtUpdateTextures lw) as (a1 & E1 & I1 & A1).
  rewrite (bind_ok _ _ _ _ _ E1), bind_get.
  destruct (ensure_connected o SigValueChanged TgtUpdateValues (with_conns (conns lw ++ a1) lw))
    as (a2 & E2 & I2 & A2).
  rewrite (bind_ok _ _ _ _ _ E2).
  destruct (IH (with_conns (conns (with_conns (conns lw ++ a1) lw) ++ a2) (with_conns (conns lw ++ a1) lw)))
    as (a3 & E3 & I3 & A3); [done|].
  exists (a1 ++ a2 ++ a3). rewrite E3. cbn [conns with_conns] in *. rewrite !app_assoc.
  split_and!; [done| |].
  - intros o' [[= ->]|Ho']%elem_of_cons.
    + set_solver.
    + by apply I3.
  - intros c Hc. apply elem_of_app in Hc as [Hc|Hc]; [apply elem_of_app in Hc as [Hc|Hc]|].
    + by rewrite (A1 _ Hc).
    + by rewrite (A2 _ Hc).
    + by apply A3.
Qed.

Lemma lift_ok {A} (c : M A) lw a w : c (base lw) = Ok a w -> lift c lw = Ok a (with_base w lw).
Proof. intros E. unfold lift. by rewrite E. Qed.

Lemma lift_crash {A} (c : M A) lw f : c (base lw) = Crash f -> lift c lw = Crash f.
Proof. intros E. unfold lift. by rewrite E. Qed.

Lemma lift_modify_storage f lw :
  lift (modify_storage f) lw = Ok tt (with_base (with_storage (f (storage (base lw))) (base lw)) lw).
Proof. reflexivity. Qed.

Lemma layers_with_gen c g s : layers (with_gen c g s) = layers s.
Proof. by destruct c. Qed.

(** The two [clear()] of the texture arrays in [set_layer] and
    [set_layers]. *)
Lemma clear_textures_run lw :
  exists w, lift (gen_clear AlbedoCache ;; gen_clear NormalCache) lw = Ok tt (with_base w lw) /\
    layers (storage w) = layers_of lw /\
    gen AlbedoCache (storage w) = Generated.mk 0 None true /\
    gen NormalCache (storage w) = Generated.mk 0 None true /\
    (forall c, c <> AlbedoCache -> c <> NormalCache -> gen c (storage w) = gen c (storage (base lw))).
Proof.
  eexists. split.
  { apply lift_ok. rewrite (bind_ok _ _ _ _ _ (gen_clear_run _ _)). apply gen_clear_run. }
  cbn [storage]. rewrite !layers_with_gen. split_and!; [done|done|done|].
  intros c Ha Hn. by rewrite !gen_with_gen_ne.
Qed.

Lemma layer_live_base w lw r : layer_live (with_base w lw) r = layer_live lw r.
Proof. done. Qed.

Lemma textures_of_base f w lw ls : textures_of f (with_base w lw) ls = textures_of f lw ls.
Proof. done. Qed.

Lemma textures_of_conns f cs lw ls : textures_of f (with_conns cs lw) ls = textures_of f lw ls.
Proof. done. Qed.

Lemma layer_textures_run f ls lw :
  forallb (layer_live lw) ls = true -> layer_textures f ls lw = Ok (textures_of f lw ls) lw.
Proof.
  induction ls as [|r rest IH]; intros Hlive; [done|].
  simpl in Hlive. apply andb_true_iff in Hlive as [Hr Hrest].
  destruct (deref_live _ _ Hr) as (o & m & -> & Hm & Hd). simpl.
  rewrite (bind_ok _ _ _ _ _ Hd). cbn iota. rewrite (bind_ok _ _ _ _ _ (IH Hrest)).
  unfold textures_of. simpl. by rewrite Hm.
Qed.

Lemma layer_arrays_run ls lw :
  forallb (layer_live lw) ls = true -> exists a, layer_arrays ls lw = Ok a lw.
Proof.
  induction ls as [|r rest IH]; intros Hlive; [by eexists|].
  simpl in Hlive. apply andb_true_iff in Hlive as [Hr Hrest].
  destruct (deref_live _ _ Hr) as (o & m & -> & Hm & Hd). destruct (IH Hrest) as [a Ha]. simpl.
  rewrite (bind_ok _ _ _ _ _ Hd). cbn iota. rewrite (bind_ok _ _ _ _ _ Ha). by eexists.
Qed.

Lemma lift_gen_create_layers c l lw g en :
  Generated.create_layers l (gen c (storage (base lw))) (engine (base lw)) = (g, en) ->
  lift (gen_create_layers c l) lw =
    Ok tt (with_base (mkWorld (with_gen c g (storage (base lw))) (images (base lw)) (next_object (base lw)) en) lw).
Proof. intros E. apply lift_ok. unfold gen_create_layers. by rewrite E. Qed.

(** One block of [_update_textures] on a dirty cache and live layers:
    the cache is rebuilt from the layers' textures. *)
Lemma texture_block_dirty c f lw :
  forallb (layer_live lw) (layers_of lw) = true -> Generated.dirty (gen c (storage (base lw))) = true ->
  (when (Generated.is_dirty (gen c (storage (base lw))))
     (texs ← layer_textures f (layers_of lw); lift (gen_create_layers c texs))) lw =
  lift (gen_create_layers c (textures_of f lw (layers_of lw))) lw.
Proof.
  intros Hlive Hd. unfold Generated.is_dirty. rewrite Hd. cbn [when].
  by rewrite (bind_ok _ _ _ _ _ (layer_textures_run _ _ _ Hlive)).
Qed.

Lemma textures_of_length f lw ls : length (textures_of f lw ls) = length ls.
Proof. apply length_fmap. Qed.

Lemma layers_images_cons l i0 rest : layers_images l = Some (i0 :: rest) -> l <> [].
Proof. by destruct l. Qed.

(** [_update_layers] after both texture caches were cleared, over live
    layers whose albedo textures are all set and of one shape: both
    signals of every layer are connected, and the albedo array holds the
    albedo textures in order. *)
Lemma update_layers_builds lw i0 rest :
  engine_wf (engine (base lw)) -> forallb (layer_live lw) (layers_of lw) = true ->
  Generated.dirty (gen AlbedoCache (storage (base lw))) = true ->
  Generated.dirty (gen NormalCache (storage (base lw))) = true ->
  layers_images (textures_of albedo_texture lw (layers_of lw)) = Some (i0 :: rest) ->
  same_shape i0 rest = true ->
  exists lw', _update_layers lw = Ok tt lw' /\ layers_of lw' = layers_of lw /\ mats lw' = mats lw /\
    (forall o, Some o ∈ layers_of lw ->
       (o, SigTextureChanged, TgtUpdateTextures) ∈ conns lw' /\
       (o, SigValueChanged, TgtUpdateValues) ∈ conns lw') /\
    Generated.life_of (gen AlbedoCache (storage (base lw'))) (engine (base lw')) =
      Generated.Clean (RTextureLayered (i0 :: rest)).
Proof.
  intros Hwf Hlive Hda Hdn Himg Hshape. unfold _update_layers. rewrite bind_get.
  destruct (connect_layers_run _ _ Hlive) as (added & E1 & Hconn & _).
  rewrite (bind_ok _ _ _ _ _ E1). set (lw1 := with_conns _ lw).
  set (w2 := with_engine (emit EvChanged (engine (base lw))) (base lw)).
  assert (E2 : _update_arrays lw1 = Ok tt (with_base w2 lw1)).
  { unfold _update_arrays. rewrite bind_get.
    destruct (layer_arrays_run (layers_of lw1) lw1 Hlive) as [arrs Ea].
    by rewrite (bind_ok _ _ _ _ _ Ea). }
  rewrite (bind_ok _ _ _ _ _ E2). set (lw2 := with_base w2 lw1).
  unfold _update_textures. rewrite bind_get.
  destruct (Generated.create_layers (textures_of albedo_texture lw2 (layers_of lw2))
              (gen AlbedoCache (storage (base lw2))) (engine (base lw2))) as [ga ena] eqn:Ca.
  rewrite (bind_ok _ _ _ _ _ (eq_trans (texture_block_dirty _ albedo_texture lw2 Hlive Hda)
                                       (lift_gen_create_layers _ _ _ _ _ Ca))), bind_get.
  set (lw3 := with_base _ lw2).
  assert (Hdn3 : Generated.dirty (gen NormalCache (storage (base lw3))) = true)
    by (unfold lw3; cbn [base with_base storage]; rewrite gen_with_gen_ne; [exact Hdn|done]).
  rewrite (texture_block_dirty _ _ lw3 Hlive Hdn3).
  destruct (Generated.create_layers (textures_of normal_texture lw3 (layers_of lw3))
              (gen NormalCache (storage (base lw3))) (engine (base lw3))) as [gn enn] eqn:Cn.
  rewrite (lift_gen_create_layers _ _ _ _ _ Cn). eexists. split; [done|].
  unfold lw3, lw2, lw1, w2, layers_of, with_base, with_conns, with_engine in *.
  cbn [base storage mats conns images next_object engine] in *.
  rewrite !layers_with_gen. split_and!; [done|done|exact Hconn|].
  rewrite gen_with_gen_ne, gen_with_gen_eq by done.
  assert (Hne : textures_of normal_texture lw (layers (storage (base lw))) <> []).
  { apply layers_images_cons in Himg. destruct (layers (storage (base lw))); done. }
  destruct (Generated.create_layers_built _ _ _ _ _ _ _ (emit_wf _ _ Hwf) Himg Hshape Ca)
    as (_ & Hv & Hd & _ & Hres & Hwfa).
  destruct (Generated.create_layers_grows _ _ _ _ _ Hwfa Hne Cn) as [_ Hsub].
  assert (Hlook : resources enn !! Generated.rid ga = Some (RTextureLayered (i0 :: rest))).
  { apply (lookup_weaken (resources ena)); [rewrite Hres; apply lookup_insert_eq|done]. }
  unfold Generated.life_of. cbn [engine]. by rewrite Hd, Hv, Hlook.
Qed.

(** The prefix of [set_layers]: the list is stored and both texture
    arrays are cleared, which leaves them dirty. *)
Lemma set_layers_prefix ls lw :
  exists w1,
    lift (modify_storage (with_layers ls) ;; gen_clear AlbedoCache ;; gen_clear NormalCache) lw =
      Ok tt (with_base w1 lw) /\
    layers (storage w1) = ls /\
    Generated.dirty (gen AlbedoCache (storage w1)) = true /\
    Generated.dirty (gen NormalCache (storage w1)) = true /\
    (engine_wf (engine (base lw)) -> engine_wf (engine w1)).
Proof.
  eexists. split.
  { apply lift_ok.
    assert (E0 : modify_storage (with_layers ls) (base lw) =
                 Ok tt (with_storage (with_layers ls (storage (base lw))) (base lw))) by reflexivity.
    rewrite (bind_ok _ _ _ _ _ E0), (bind_ok _ _ _ _ _ (gen_clear_run _ _)). apply gen_clear_run. }
  cbn [storage engine]. rewrite !layers_with_gen, gen_with_gen_ne, !gen_with_gen_eq by done.
  split_and!; [done|done|done|]. intros Hwf. by apply free_all_wf, free_all_wf.
Qed.

(** No target of a layer's signal is a method ClassDB knows. *)
Lemma target_unbound t : bool_decide (target_name t ∈ Bindings.bound_methods) = false.
Proof. destruct t; vm_compute; reflexivity. Qed.

(** The methods a signal calls: each prints "Method not found", and
    nothing else changes. *)
Lemma call_targets_errs o tgts lw :
  exists lw', call_targets o tgts lw = Ok tt lw' /\ storage (base lw') = storage (base lw) /\
    resources (engine (base lw')) = resources (engine (base lw)) /\ mats lw' = mats lw /\
    log (engine (base lw')) = log (engine (base lw)) ++ ((fun _ => EvError (ErrMethodNotFound o)) <$> tgts).
Proof.
  revert lw. induction tgts as [|t rest IH]; intros lw; simpl.
  { eexists. split_and!; [done..|by rewrite app_nil_r]. }
  set (lw1 := with_base (with_engine (report (ErrMethodNotFound o) (engine (base lw))) (base lw)) lw).
  assert (E1 : call_target o t lw = Ok tt lw1) by (unfold call_target; by rewrite target_unbound).
  rewrite (bind_ok _ _ _ _ _ E1). destruct (IH lw1) as (lw' & E & Hs & Hr & Hm & Hl).
  exists lw'. split_and!; [done|done|done|done|]. rewrite Hl. cbn. by rewrite <- app_assoc.
Qed.

(** One block of [_update_textures] over live layers always returns; it
    changes only the world of the storage, and there only the cache [c]
    and the server. *)
Lemma texture_block_total c f lw :
  forallb (layer_live lw) (layers_of lw) = true ->
  exists w, (when (Generated.is_dirty (gen c (storage (base lw))))
               (texs ← layer_textures f (layers_of lw); lift (gen_create_layers c texs))) lw =
            Ok tt (with_base w lw) /\ layers (storage w) = layers_of lw.
Proof.
  intros Hlive. destruct (Generated.dirty (gen c (storage (base lw)))) eqn:Hd.
  - rewrite (texture_block_dirty _ _ _ Hlive Hd).
    destruct (Generated.create_layers (textures_of f lw (layers_of lw))
                (gen c (storage (base lw))) (engine (base lw))) as [g en] eqn:C.
    rewrite (lift_gen_create_layers _ _ _ _ _ C). eexists. split; [done|]. cbn. apply layers_with_gen.
  - unfold Generated.is_dirty. rewrite Hd. exists (base lw). by destruct lw.
Qed.

(** [_update_layers] over live layers always returns and keeps the list
    and the layer objects. *)
Lemma update_layers_total lw :
  forallb (layer_live lw) (layers_of lw) = true ->
  exists lw', _update_layers lw = Ok tt lw' /\ layers_of lw' = layers_of lw /\ mats lw' = mats lw.
Proof.
  intros Hlive. unfold _update_layers. rewrite bind_get.
  destruct (connect_layers_run _ _ Hlive) as (added & E1 & _).
  rewrite (bind_ok _ _ _ _ _ E1). set (lw1 := with_conns _ lw).
  set (w2 := with_engine (emit EvChanged (engine (base lw))) (base lw)).
  assert (E2 : _update_arrays lw1 = Ok tt (with_base w2 lw1)).
  { unfold _update_arrays. rewrite bind_get.
    destruct (layer_arrays_run (layers_of lw1) lw1 Hlive) as [arrs Ea].
    by rewrite (bind_ok _ _ _ _ _ Ea). }
  rewrite (bind_ok _ _ _ _ _ E2). set (lw2 := with_base w2 lw1).
  unfold _update_textures. rewrite bind_get.
  destruct (texture_block_total AlbedoCache albedo_texture lw2 Hlive) as (w3 & E3 & H3).
  rewrite (bind_ok _ _ _ _ _ E3), bind_get.
  assert (Hlive3 : forallb (layer_live (with_base w3 lw2)) (layers_of (with_base w3 lw2)) = true)
    by (unfold layers_of; cbn; rewrite H3; exact Hlive).
  destruct (texture_block_total NormalCache normal_texture _ Hlive3) as (w4 & E4 & H4).
  rewrite E4. eexists. split; [done|]. unfold layers_of in *. cbn in *. by rewrite H4, H3.
Qed.

(** ** Relations on the storage's world

    [on_base R]: a relation of the storage's worlds, read on the world
    with layers.  A call that does not touch the storage keeps it; a
    lifted call keeps it when it keeps [R]. *)
Definition on_base (R : relation World) (lw lw' : LWorld) : Prop := R (base lw) (base lw').

#[export] Instance on_base_preorder (R : relation World) `{!PreOrder R} : PreOrder (on_base R).
Proof. split; [intros lw; unfold on_base; reflexivity|]. intros l1 l2 l3 H12 H23. unfold on_base in *. by etrans. Qed.

Section OnBase.
Context (R : relation World) `{!PreOrder R}.

Lemma on_base_same {A} (c : L A) :
  (forall lw a lw', c lw = Ok a lw' -> base lw' = base lw) -> keeps (on_base R) c.
Proof. intros Hc lw a lw' E. unfold on_base. rewrite (Hc _ _ _ E). reflexivity. Qed.

Lemma on_base_lift {A} (c : M A) : keeps R c -> keeps (on_base R) (lift c).
Proof.
  intros Hc lw a lw'. unfold lift. destruct (c (base lw)) as [b w|] eqn:E; [|done].
  intros [= _ <-]. exact (Hc _ _ _ E).
Qed.

Lemma on_base_deref r : keeps (on_base R) (deref r).
Proof. apply on_base_same. by intros lw a lw' ->%deref_same. Qed.

Lemma on_base_index_read {A} (l : list A) i : keeps (on_base R) (index_read l i).
Proof. apply on_base_same. intros lw b lw'. unfold index_read. case_match; by intros [= _ <-]. Qed.

Lemma on_base_index_write {A} (l : list A) i x : keeps (on_base R) (index_write l i x).
Proof. apply on_base_same. intros lw b lw'. unfold index_write. case_match; by intros [= _ <-]. Qed.

Lemma on_base_connect o sig tgt : keeps (on_base R) (connect o sig tgt).
Proof. apply on_base_same. by intros lw a lw' [= _ <-]. Qed.

Lemma on_base_layer_arrays ls : keeps (on_base R) (layer_arrays ls).
Proof. apply on_base_same. by intros lw a lw' ->%layer_arrays_same. Qed.

Lemma on_base_layer_textures f ls : keeps (on_base R) (layer_textures f ls).
Proof. apply on_base_same. by intros lw a lw' ->%layer_textures_same. Qed.

Lemma on_base_new_layer m : keeps (on_base R) (new_layer m).
Proof. apply on_base_same. by intros lw a lw' [= _ <-]. Qed.

(** [disconnect] prints its error through the storage's [ERR]. *)
Lemma on_base_disconnect o sig tgt :
  keeps R (ERR (ErrNotConnected o)) -> keeps (on_base R) (disconnect o sig tgt).
Proof.
  intros He. unfold disconnect. refine (keeps_get _ _ _). intros lw.
  case_match; [|by apply keeps_at_keeps, on_base_lift].
  intros a lw' [= _ <-]. unfold on_base. reflexivity.
Qed.

End OnBase.

(** The calls that leave the storage's world alone keep every [on_base R]. *)
Create HintDb t3d_onbase.

#[export] Hint Extern 1 (keeps (on_base _) (deref _)) => apply on_base_deref; try typeclasses eauto : t3d_onbase.
#[export] Hint Extern 1 (keeps (on_base _) (index_read _ _)) => apply on_base_index_read; try typeclasses eauto : t3d_onbase.
#[export] Hint Extern 1 (keeps (on_base _) (index_write _ _ _)) => apply on_base_index_write; try typeclasses eauto : t3d_onbase.
#[export] Hint Extern 1 (keeps (on_base _) (connect _ _ _)) => apply on_base_connect; try typeclasses eauto : t3d_onbase.
#[export] Hint Extern 1 (keeps (on_base _) (disconnect _ _ _)) => apply on_base_disconnect; try typeclasses eauto : t3d_onbase.
#[export] Hint Extern 1 (keeps (on_base _) (layer_arrays _)) => apply on_base_layer_arrays; try typeclasses eauto : t3d_onbase.
#[export] Hint Extern 1 (keeps (on_base _) (layer_textures _ _)) => apply on_base_layer_textures; try typeclasses eauto : t3d_onbase.
#[export] Hint Extern 1 (keeps (on_base _) (new_layer _)) => apply on_base_new_layer; try typeclasses eauto : t3d_onbase.

(** ** Relations on the connections

    [ConnsRel R]: a relation between worlds that holds whenever the
    connections are the same; the calls that do not connect or
    disconnect keep it. *)
Class ConnsRel (R : relation LWorld) := conns_rel_same : forall lw lw', conns lw' = conns lw -> R lw lw'.

Section ConnsRel.
Context (R : relation LWorld) `{!PreOrder R, !ConnsRel R}.

Lemma keeps_same_conns {A} (m : L A) :
  (forall lw a lw', m lw = Ok a lw' -> conns lw' = conns lw) -> keeps R m.
Proof. intros Hm lw a lw' E. apply conns_rel_same. exact (Hm _ _ _ E). Qed.

Lemma rel_lift {A} (m : M A) : keeps R (lift m).
Proof. apply keeps_same_conns. intros lw a lw'. unfold lift. case_match; [by intros [= _ <-]|done]. Qed.

Lemma rel_deref r : keeps R (deref r).
Proof. apply keeps_same_conns. by intros lw a lw' ->%deref_same. Qed.

Lemma rel_index_read {A} (l : list A) i : keeps R (index_read l i).
Proof. apply keeps_same_conns. intros lw b lw'. unfold index_read. case_match; by intros [= _ <-]. Qed.

Lemma rel_index_write {A} (l : list A) i x : keeps R (index_write l i x).
Proof. apply keeps_same_conns. intros lw b lw'. unfold index_write. case_match; by intros [= _ <-]. Qed.

Lemma rel_layer_arrays ls : keeps R (layer_arrays ls).
Proof. apply keeps_same_conns. by intros lw a lw' ->%layer_arrays_same. Qed.

Lemma rel_layer_textures f ls : keeps R (layer_textures f ls).
Proof. apply keeps_same_conns. by intros lw a lw' ->%layer_textures_same. Qed.

Lemma rel_new_layer m : keeps R (new_layer m).
Proof. apply keeps_same_conns. by intros lw a lw' [= _ <-]. Qed.

End ConnsRel.

Create HintDb t3d_conn.

#[export] Hint Extern 1 (keeps _ (lift _)) => apply rel_lift; typeclasses eauto : t3d_conn.
#[export] Hint Extern 1 (keeps _ (deref _)) => apply rel_deref; typeclasses eauto : t3d_conn.
#[export] Hint Extern 1 (keeps _ (index_read _ _)) => apply rel_index_read; typeclasses eauto : t3d_conn.
#[export] Hint Extern 1 (keeps _ (index_write _ _ _)) => apply rel_index_write; typeclasses eauto : t3d_conn.
#[export] Hint Extern 1 (keeps _ (layer_arrays _)) => apply rel_layer_arrays; typeclasses eauto : t3d_conn.
#[export] Hint Extern 1 (keeps _ (layer_textures _ _)) => apply rel_layer_textures; typeclasses eauto : t3d_conn.
#[export] Hint Extern 1 (keeps _ (new_layer _)) => apply rel_new_layer; typeclasses eauto : t3d_conn.

Ltac ckeeps_auto := keeps_with ltac:(eauto with t3d_conn).

(** [holds_conn c]: a call that keeps the connection [c] when it was
    made. *)
Definition holds_conn (c : connection) (lw lw' : LWorld) : Prop := c ∈ conns lw -> c ∈ conns lw'.

#[export] Instance holds_conn_preorder c : PreOrder (holds_conn c).
Proof. split; [intros lw H; exact H|]. intros l1 l2 l3 H12 H23 H. auto. Qed.

#[export] Instance holds_conn_rel c : ConnsRel (holds_conn c).
Proof. intros lw lw' E H. by rewrite E. Qed.

Lemma conn_connect c o sig tgt : keeps (holds_conn c) (connect o sig tgt).
Proof. refine (keeps_modify _ _ _). intros lw H. cbn. set_solver. Qed.

(** Disconnecting another connection keeps [c]. *)
Lemma conn_disconnect c o sig tgt : (o, sig, tgt) <> c -> keeps (holds_conn c) (disconnect o sig tgt).
Proof.
  intros Hne. unfold disconnect. refine (keeps_get _ _ _). intros lw.
  case_match; [|apply keeps_at_keeps, rel_lift; typeclasses eauto].
  intros a lw' [= _ <-] Hc. cbn. apply list_elem_of_filter. split; [congruence|done].
Qed.

(** [arrays_free]: no layer is connected to ["_update_arrays"]. *)
Definition arrays_free (lw : LWorld) : Prop := forall c, c ∈ conns lw -> c.2 <> TgtUpdateArrays.

Definition keeps_arrays_free (lw lw' : LWorld) : Prop := arrays_free lw -> arrays_free lw'.

#[export] Instance keeps_arrays_free_preorder : PreOrder keeps_arrays_free.
Proof. split; [intros lw H; exact H|]. intros l1 l2 l3 H12 H23 H. auto. Qed.

#[export] Instance keeps_arrays_free_rel : ConnsRel keeps_arrays_free.
Proof. intros lw lw' E H. unfold arrays_free. by rewrite E. Qed.

Lemma af_connect o sig tgt : tgt <> TgtUpdateArrays -> keeps keeps_arrays_free (connect o sig tgt).
Proof.
  intros Ht. refine (keeps_modify _ _ _). intros lw H c. cbn.
  intros [Hc|Hc]%elem_of_app; [by apply H|]. apply list_elem_of_singleton in Hc as ->. done.
Qed.

Lemma af_disconnect o sig tgt : keeps keeps_arrays_free (disconnect o sig tgt).
Proof.
  unfold disconnect. refine (keeps_get _ _ _). intros lw.
  case_match; [|apply keeps_at_keeps, rel_lift; typeclasses eauto].
  intros a lw' [= _ <-] Haf c. cbn. intros [_ Hc]%list_elem_of_filter. by apply Haf.
Qed.

#[export] Hint Resolve conn_connect af_disconnect : t3d_conn.
#[export] Hint Extern 1 (keeps _ (disconnect _ _ _)) =>
  apply conn_disconnect; intros [= ]; fail : t3d_conn.
#[export] Hint Extern 1 (keeps keeps_arrays_free (connect _ _ _)) =>
  apply af_connect; discriminate : t3d_conn.

Lemma conn_connect_layers c ls : keeps (holds_conn c) (connect_layers ls).
Proof. induction ls; simpl; ckeeps_auto. Qed.

Lemma af_connect_layers ls : keeps keeps_arrays_free (connect_layers ls).
Proof. induction ls; simpl; ckeeps_auto. Qed.

#[export] Hint Resolve conn_connect_layers af_connect_layers : t3d_conn.

Lemma conn_update_layers c : keeps (holds_conn c) _update_layers.
Proof. unfold _update_layers, _update_arrays, _update_textures. ckeeps_auto. Qed.

Lemma af_update_layers : keeps keeps_arrays_free _update_layers.
Proof. unfold _update_layers, _update_arrays, _update_textures. ckeeps_auto. Qed.

Lemma af_call_targets o tgts : keeps keeps_arrays_free (call_targets o tgts).
Proof. induction tgts as [|[] rest IH]; simpl; unfold call_target, _update_arrays, _update_textures; ckeeps_auto. Qed.

#[export] Hint Resolve conn_update_layers af_update_layers af_call_targets : t3d_conn.

Lemma af_edit_layer o f sig : keeps keeps_arrays_free (edit_layer o f sig).
Proof.
  unfold edit_layer, emit_signal. refine (keeps_get _ _ _). intros lw.
  destruct (mats lw !! o); [|apply keeps_crash].
  intros a lw''. unfold mbind, st_mbind, st_bind, st_put. intros Hrun H.
  exact (af_call_targets _ _ _ _ _ Hrun H).
Qed.

#[export] Hint Resolve af_edit_layer : t3d_conn.

(** No call of the program connects a layer to ["_update_arrays"]. *)
Lemma lstep_arrays_free lw lw' : lstep lw lw' -> keeps_arrays_free lw lw'.
Proof.
  intros [c lw0 lw1 Hc]. enough (Hk : keeps keeps_arrays_free (lmethod_of c)) by exact (Hk lw0 tt lw1 Hc).
  destruct c; cbn [lmethod_of]; unfold set_layer, set_layers, get_layer, set_albedo_texture, set_uv_scale;
    cbv zeta; ckeeps_auto.
Qed.

Lemma lreachable_arrays_free lw : lreachable lw -> arrays_free lw.
Proof.
  intros Hr. refine (rtc_ind_r arrays_free lworld_init _ _ lw Hr); [intros c Hc; set_solver|].
  intros y z _ Hs IH. exact (lstep_arrays_free _ _ Hs IH).
Qed.

(** [Object::disconnect] returns, and leaves the list and the layer
    objects alone. *)
Lemma disconnect_run o sig tgt lw :
  exists lw', disconnect o sig tgt lw = Ok tt lw' /\ layers_of lw' = layers_of lw /\ mats lw' = mats lw.
Proof.
  unfold disconnect. rewrite bind_get. case_match; [by eexists|].
  eexists. split; [apply lift_ok; reflexivity|done].
Qed.

(** The end of [set_layer], after the list was changed: clear both
    texture arrays, [_update_layers], [notify_property_list_changed]. *)
Lemma set_layer_tail lw :
  forallb (layer_live lw) (layers_of lw) = true ->
  exists lw', (lift (gen_clear AlbedoCache ;; gen_clear NormalCache) ;; _update_layers ;;
               lift notify_property_list_changed) lw = Ok tt lw' /\ layers_of lw' = layers_of lw.
Proof.
  intros Hlive. destruct (clear_textures_run lw) as (w1 & E1 & Hl1 & _).
  rewrite (bind_ok _ _ _ _ _ E1).
  destruct (update_layers_total (with_base w1 lw)) as (lw2 & E2 & Hl2 & _);
    [unfold layers_of; cbn; by rewrite Hl1|].
  rewrite (bind_ok _ _ _ _ _ E2). eexists. split; [apply lift_ok; reflexivity|].
  unfold layers_of in *. cbn in *. by rewrite Hl2, Hl1.
Qed.

Lemma lworld_built_reachable : lreachable lworld_built.
Proof. apply (run_lcalls_reachable demo_calls lworld_init lworld_init); [reflexivity|vm_compute; reflexivity]. Qed.

(** ** Claims *)

(** (C31) [set_layer(null, i)] with [i] at or past the end of the list
    appends a null layer ([layers.push_back(p_material)]) and then
    crashes: [_update_layers] dereferences every layer. *)
Theorem set_layer_null_append_crashes lw i :
  (size_Z (layers_of lw) <= i)%Z -> set_layer None i lw = Crash NullDeref.
Proof.
  intros Hi. unfold set_layer. rewrite bind_get. cbv zeta. rewrite bool_decide_false by lia.
  rewrite (bind_ok _ _ _ _ _ (lift_modify_storage _ _)).
  set (lw1 := with_base _ lw).
  destruct (clear_textures_run lw1) as (w2 & E2 & Hl2 & _).
  rewrite (bind_ok _ _ _ _ _ E2).
  assert (Hu : _update_layers (with_base w2 lw1) = Crash NullDeref).
  { unfold _update_layers. rewrite bind_get. apply bind_crash, connect_layers_dead.
    unfold layers_of. cbn [base with_base]. rewrite Hl2. unfold layers_of, lw1. cbn.
    rewrite forallb_app. simpl. by rewrite andb_false_r. }
  by rewrite (bind_crash _ _ _ _ Hu).
Qed.

Lemma set_layer_null_append_crashes_witness :
  (size_Z (layers_of (mkLWorld world_constructed ∅ 0 [])) <= 0)%Z /\
  set_layer None 0 (mkLWorld world_constructed ∅ 0 []) = Crash NullDeref.
Proof.
  assert (H : (size_Z (layers_of (mkLWorld world_constructed ∅ 0 [])) <= 0)%Z) by (vm_compute; congruence).
  split; [exact H|]. exact (set_layer_null_append_crashes _ _ H).
Defined.

(** (C32) [set_layer(m, i)] with a negative index reads or writes
    [layers[i]] unchecked: it crashes, whether [m] is null or not. *)
Theorem set_layer_negative_index m i lw :
  (i < 0)%Z -> set_layer m i lw = Crash (IndexOutOfRange i).
Proof.
  intros Hi. unfold set_layer. rewrite bind_get. cbv zeta.
  rewrite bool_decide_true by (unfold size_Z; lia).
  destruct m as [o|].
  - unfold index_write. rewrite lookup_Z_out_of_range by lia. done.
  - unfold index_read. rewrite lookup_Z_out_of_range by lia. done.
Qed.

Lemma set_layer_negative_index_witness :
  (-1 < 0)%Z /\ set_layer (Some 0%nat) (-1) (mkLWorld world_constructed ∅ 0 []) = Crash (IndexOutOfRange (-1)).
Proof. split; [lia|]. apply set_layer_negative_index. lia. Defined.

(** (C6) [set_layers(p_layers)] with live layers whose albedo textures
    are all set and of one shape connects [texture_changed] and
    [value_changed] of every layer, and leaves the albedo array Clean,
    holding the albedo textures of the layers in order (section 4.3), with
    the ownership invariant kept. *)
Theorem set_layers_builds_albedo lw ls i0 rest :
  own_inv (base lw) -> forallb (layer_live lw) ls = true ->
  layers_images (textures_of albedo_texture lw ls) = Some (i0 :: rest) ->
  same_shape i0 rest = true ->
  exists lw', set_layers ls lw = Ok tt lw' /\ layers_of lw' = ls /\ mats lw' = mats lw /\
    (forall o, Some o ∈ ls ->
       (o, SigTextureChanged, TgtUpdateTextures) ∈ conns lw' /\
       (o, SigValueChanged, TgtUpdateValues) ∈ conns lw') /\
    Generated.life_of (gen AlbedoCache (storage (base lw'))) (engine (base lw')) =
      Generated.Clean (RTextureLayered (i0 :: rest)) /\
    own_inv (base lw').
Proof.
  intros Hinv Hlive Himg Hshape.
  destruct (set_layers_prefix ls lw) as (w1 & E1 & Hl & Hda & Hdn & Hwf).
  destruct (update_layers_builds (with_base w1 lw) i0 rest) as (lw' & E2 & Hl' & Hm & Hc & Hclean);
    [apply Hwf, own_wf, Hinv|unfold layers_of; cbn; by rewrite Hl|done|done|unfold layers_of; cbn; by rewrite Hl|done|].
  assert (E : set_layers ls lw = Ok tt lw') by (unfold set_layers; by rewrite (bind_ok _ _ _ _ _ E1)).
  exists lw'. rewrite Hl', Hm in *. unfold layers_of in Hc |- *. cbn in Hc |- *. rewrite Hl in Hc |- *.
  split_and!; [done|done|done|done|done|exact (keeps_set_layers ls lw tt lw' E Hinv)].
Qed.

Lemma set_layers_builds_albedo_witness :
  exists lw', set_layers [Some 0; Some 1] lworld_two = Ok tt lw' /\ layers_of lw' = [Some 0; Some 1] /\
    mats lw' = mats lworld_two /\
    (forall o, Some o ∈ [Some 0; Some 1] ->
       (o, SigTextureChanged, TgtUpdateTextures) ∈ conns lw' /\
       (o, SigValueChanged, TgtUpdateValues) ∈ conns lw') /\
    Generated.life_of (gen AlbedoCache (storage (base lw'))) (engine (base lw')) =
      Generated.Clean (RTextureLayered [tex_img; tex_img]) /\
    own_inv (base lw').
Proof.
  apply (set_layers_builds_albedo lworld_two [Some 0; Some 1] tex_img [tex_img]);
    [exact own_inv_constructed|vm_compute; reflexivity..].
Defined.

(** (C7) No edit of a layer reaches the storage.  The setters of a
    layer ([set_albedo_texture], [set_uv_scale], ...) emit
    [texture_changed] or [value_changed]; the storage connected them to
    ["_update_textures"] and ["_update_values"], names [_bind_methods]
    never registers, so each connection prints "Method not found" and
    the storage (its texture caches included) and the server's
    resources stay as they were, while the layer holds the new value.
    Section 4.3 wants a layer's texture or value change to mark the
    texture arrays dirty. *)
Theorem layer_edit_not_propagated lw o m f sig :
  mats lw !! o = Some m ->
  exists lw', edit_layer o f sig lw = Ok tt lw' /\ mats lw' !! o = Some (f m) /\
    storage (base lw') = storage (base lw) /\
    resources (engine (base lw')) = resources (engine (base lw)) /\
    log (engine (base lw')) = log (engine (base lw)) ++
      ((fun _ => EvError (ErrMethodNotFound o)) <$> filter (fun c => c.1 = (o, sig)) (conns lw)).
Proof.
  intros Hm. unfold edit_layer, emit_signal. rewrite bind_get, Hm.
  set (lw1 := mkLWorld (base lw) (<[o := f m]> (mats lw)) (next_mat lw) (conns lw)).
  destruct (call_targets_errs o ((fun c => c.2) <$> filter (fun c => c.1 = (o, sig)) (conns lw1)) lw1)
    as (lw' & E & Hs & Hr & Hm' & Hl).
  exists lw'. split; [exact E|]. rewrite Hm', Hs, Hr, Hl, <- list_fmap_compose. cbn.
  by rewrite lookup_insert_eq.
Qed.

Lemma layer_edit_not_propagated_witness :
  mats lworld_built !! 0%nat = Some layer_demo /\
  exists lw', set_albedo_texture 0 None lworld_built = Ok tt lw' /\
    mats lw' !! 0%nat = Some (mkLayer None (normal_texture layer_demo) (uv_scale layer_demo) (albedo layer_demo)) /\
    storage (base lw') = storage (base lworld_built) /\
    resources (engine (base lw')) = resources (engine (base lworld_built)) /\
    log (engine (base lw')) = log (engine (base lworld_built)) ++
      ((fun _ => EvError (ErrMethodNotFound 0)) <$>
         filter (fun c => c.1 = (0%nat, SigTextureChanged)) (conns lworld_built)).
Proof.
  assert (Hm : mats lworld_built !! 0%nat = Some layer_demo) by (vm_compute; reflexivity).
  split; [exact Hm|]. exact (layer_edit_not_propagated lworld_built 0 layer_demo _ SigTextureChanged Hm).
Defined.

(** (C30) No call of [set_layer] removes the connection of a layer's
    [value_changed] to ["_update_values"]: [set_layer(null, i)]
    disconnects [value_changed] from ["_update_arrays"], a connection
    [_update_layers] never makes, so a layer removed from the list stays
    connected (section 4.5 says removal disconnects both signals). *)
Theorem set_layer_keeps_values_connection m i o lw lw' :
  set_layer m i lw = Ok tt lw' ->
  (o, SigValueChanged, TgtUpdateValues) ∈ conns lw -> (o, SigValueChanged, TgtUpdateValues) ∈ conns lw'.
Proof.
  assert (Hk : keeps (holds_conn (o, SigValueChanged, TgtUpdateValues)) (set_layer m i))
    by (unfold set_layer; cbv zeta; ckeeps_auto).
  exact (Hk lw tt lw').
Qed.

Lemma set_layer_keeps_values_connection_witness :
  set_layer None 0 lworld_built = Ok tt (after_l (set_layer None 0) lworld_built) /\
  (0%nat, SigValueChanged, TgtUpdateValues) ∈ conns lworld_built /\
  (0%nat, SigValueChanged, TgtUpdateValues) ∈ conns (after_l (set_layer None 0) lworld_built).
Proof.
  assert (E : set_layer None 0 lworld_built = Ok tt (after_l (set_layer None 0) lworld_built))
    by (vm_compute; reflexivity).
  assert (H : (0%nat, SigValueChanged, TgtUpdateValues) ∈ conns lworld_built)
    by (apply (bool_decide_unpack _); vm_compute; reflexivity).
  split_and!; [exact E|exact H|exact (set_layer_keeps_values_connection _ _ _ _ _ E H)].
Defined.

(** (C8) The removal of a layer, run: after [set_layers([layer 0, layer
    1])], [set_layer(null, 0)] leaves the list [[layer 1]], prints the
    error of [disconnect] on a connection that does not exist, and
    leaves layer 0 connected to ["_update_values"]; a later value edit of
    layer 0 ([set_uv_scale]) then calls that method, which the storage
    does not have, and only prints an error. *)
Theorem removed_layer_leak :
  exists lw1 lw2, set_layer None 0 lworld_built = Ok tt lw1 /\ layers_of lw1 = [Some 1%nat] /\
    EvError (ErrNotConnected 0) ∈ log (engine (base lw1)) /\
    (0%nat, SigValueChanged, TgtUpdateValues) ∈ conns lw1 /\
    set_uv_scale 0 (mkVector3 2 2 2) lw1 = Ok tt lw2 /\
    log (engine (base lw2)) = log (engine (base lw1)) ++ [EvError (ErrMethodNotFound 0)].
Proof.
  exists (after_l (set_layer None 0) lworld_built),
    (after_l (set_uv_scale 0 (mkVector3 2 2 2)) (after_l (set_layer None 0) lworld_built)).
  split_and!; try (vm_compute; reflexivity); apply (bool_decide_unpack _); vm_compute; reflexivity.
Qed.

(** (C27) Every world the program with layers reaches keeps the ownership
    invariant of [Machine.v]: the layer methods, the layer edits and the
    signals they emit neither leak nor double-free a RID of the storage. *)
Theorem lreachable_own_inv lw : lreachable lw -> own_inv (base lw).
Proof.
  intros Hr. refine (rtc_ind_r (fun lw => own_inv (base lw)) lworld_init own_inv_constructed _ lw Hr).
  intros y z _ Hs IH. exact (lstep_lown _ _ Hs IH).
Qed.

Lemma lreachable_own_inv_witness : lreachable lworld_built /\ own_inv (base lworld_built).
Proof. split; [exact lworld_built_reachable|exact (lreachable_own_inv _ lworld_built_reachable)]. Defined.

(** (C9) In every world the program reaches, no layer is connected to
    ["_update_arrays"]: [_update_layers] connects [value_changed] to
    ["_update_values"] instead, so a value edit of a layer (uv scale,
    albedo colour) never reaches the arrays section 4.3 builds from
    them. *)
Theorem lreachable_no_arrays_connection lw :
  lreachable lw -> forall c, c ∈ conns lw -> c.2 <> TgtUpdateArrays.
Proof. exact (lreachable_arrays_free lw). Qed.

Lemma lreachable_no_arrays_connection_witness :
  lreachable lworld_built /\ forall c, c ∈ conns lworld_built -> c.2 <> TgtUpdateArrays.
Proof. split; [exact lworld_built_reachable|exact (lreachable_no_arrays_connection _ lworld_built_reachable)]. Defined.

(** (C34) No capacity check: [set_layers] over live layers returns
    whatever their number, and [get_layer_count()] is then that number.
    Section 7 says more than 256 layers (the bound of the shader's
    arrays) must be reported and rejected. *)
Theorem set_layers_no_capacity_check lw ls :
  forallb (layer_live lw) ls = true ->
  exists lw', set_layers ls lw = Ok tt lw' /\ layers_of lw' = ls /\ get_layer_count lw' = size_Z ls.
Proof.
  intros Hlive. destruct (set_layers_prefix ls lw) as (w1 & E1 & Hl & _).
  destruct (update_layers_total (with_base w1 lw)) as (lw' & E2 & Hl' & _);
    [unfold layers_of; cbn; by rewrite Hl|].
  exists lw'. unfold set_layers, get_layer_count. rewrite (bind_ok _ _ _ _ _ E1), E2, Hl'.
  unfold layers_of. cbn. by rewrite Hl.
Qed.

Lemma set_layers_no_capacity_check_witness :
  forallb (layer_live lworld_two) (replicate 257 (Some 0%nat)) = true /\
  exists lw', set_layers (replicate 257 (Some 0%nat)) lworld_two = Ok tt lw' /\
    layers_of lw' = replicate 257 (Some 0%nat) /\ get_layer_count lw' = 257%Z.
Proof.
  assert (H : forallb (layer_live lworld_two) (replicate 257 (Some 0%nat)) = true) by (vm_compute; reflexivity).
  split; [exact H|]. exact (set_layers_no_capacity_check lworld_two _ H).
Defined.

(** [get_layer(i)] reads [layers[i]] unchecked: it returns the
    layer of slot [i] and changes nothing when [0 <= i < get_layer_count()],
    and crashes otherwise. *)
Theorem get_layer_bounds lw i :
  ((0 <= i < get_layer_count lw)%Z ->
     exists r, get_layer i lw = Ok r lw /\ layers_of lw !! Z.to_nat i = Some r) /\
  ((i < 0 \/ get_layer_count lw <= i)%Z -> get_layer i lw = Crash (IndexOutOfRange i)).
Proof.
  unfold get_layer, get_layer_count, index_read. rewrite bind_get. split.
  - intros Hi. destruct (lookup_Z_in_range _ _ Hi) as [r Hr]. exists r. rewrite Hr.
    split; [done|]. unfold lookup_Z in Hr. destruct (Z.ltb_spec i 0); [lia|done].
  - intros Hi. by rewrite lookup_Z_out_of_range.
Qed.

Lemma get_layer_bounds_witness :
  (0 <= 1 < get_layer_count lworld_built)%Z /\
  exists r, get_layer 1 lworld_built = Ok r lworld_built /\ layers_of lworld_built !! Z.to_nat 1 = Some r.
Proof.
  assert (H : (0 <= 1 < get_layer_count lworld_built)%Z) by (vm_compute; split; congruence).
  split; [exact H|]. exact (proj1 (get_layer_bounds lworld_built 1) H).
Defined.

(** (C38) [set_layers] disconnects nothing: every connection a layer
    had to the storage stays, also for the layers the new list drops,
    which keep calling the storage.  Section 3 wants a removed layer's
    subscriptions detached. *)
Theorem set_layers_keeps_connections ls c lw lw' :
  set_layers ls lw = Ok tt lw' -> c ∈ conns lw -> c ∈ conns lw'.
Proof.
  assert (Hk : keeps (holds_conn c) (set_layers ls)) by (unfold set_layers; ckeeps_auto).
  exact (Hk lw tt lw').
Qed.

Lemma set_layers_keeps_connections_witness :
  set_layers [Some 1%nat] lworld_built = Ok tt (after_l (set_layers [Some 1%nat]) lworld_built) /\
  (0%nat, SigTextureChanged, TgtUpdateTextures) ∈ conns lworld_built /\
  layers_of (after_l (set_layers [Some 1%nat]) lworld_built) = [Some 1%nat] /\
  (0%nat, SigTextureChanged, TgtUpdateTextures) ∈ conns (after_l (set_layers [Some 1%nat]) lworld_built).
Proof.
  assert (E : set_layers [Some 1%nat] lworld_built = Ok tt (after_l (set_layers [Some 1%nat]) lworld_built))
    by (vm_compute; reflexivity).
  assert (H : (0%nat, SigTextureChanged, TgtUpdateTextures) ∈ conns lworld_built)
    by (apply (bool_decide_unpack _); vm_compute; reflexivity).
  split_and!; [exact E|exact H|vm_compute; reflexivity|].
  exact (set_layers_keeps_connections _ _ _ _ E H).
Defined.

(** (C39) [set_layer(m, i)] refines section 4.5 on live layers and a
    non-negative index: it returns, and the list is then [set_layer_spec
    m i] of the old one (slot removed and compacted, replaced, or
    appended). *)
Theorem set_layer_refines lw m i :
  (0 <= i)%Z -> forallb (layer_live lw) (layers_of lw) = true ->
  forallb (layer_live lw) (set_layer_spec m i (layers_of lw)) = true ->
  exists lw', set_layer m i lw = Ok tt lw' /\ layers_of lw' = set_layer_spec m i (layers_of lw).
Proof.
  intros Hi Hlive Hlive'. unfold set_layer. rewrite bind_get. cbv zeta.
  assert (Htail : forall lw1, layers_of lw1 = set_layer_spec m i (layers_of lw) -> mats lw1 = mats lw ->
            exists lw', (lift (gen_clear AlbedoCache ;; gen_clear NormalCache) ;; _update_layers ;;
                         lift notify_property_list_changed) lw1 = Ok tt lw' /\
                        layers_of lw' = set_layer_spec m i (layers_of lw)).
  { intros lw1 Hl Hm. destruct (set_layer_tail lw1) as (lw' & E & Hl'); [|exists lw'; by rewrite Hl', Hl].
    unfold layer_live. rewrite Hm, Hl. exact Hlive'. }
  unfold set_layer_spec in Htail |- *.
  destruct (decide (i < size_Z (layers_of lw))%Z) as [Hin|Hin];
    [rewrite !bool_decide_true in * by done|rewrite !bool_decide_false in * by done].
  - destruct (lookup_Z_in_range (layers_of lw) i) as [r Hr]; [lia|]. destruct m as [o|].
    + erewrite bind_ok; [|unfold index_write; rewrite Hr; reflexivity]. by apply Htail.
    + assert (Hrl : layer_live lw r = true).
      { apply forallb_forall with (x := r) in Hlive; [done|].
        apply list_elem_of_In, list_elem_of_lookup_2 with (Z.to_nat i).
        revert Hr. unfold lookup_Z. by destruct (Z.ltb_spec i 0); [lia|]. }
      destruct (deref_live _ _ Hrl) as (o & mo & -> & Hm & Hd).
      destruct (disconnect_run o SigTextureChanged TgtUpdateTextures lw) as (lw1 & E1 & Hl1 & Hm1).
      destruct (disconnect_run o SigValueChanged TgtUpdateArrays lw1) as (lw2 & E2 & Hl2 & Hm2).
      erewrite bind_ok.
      2:{ unfold index_read. rewrite Hr, bind_ret, (bind_ok _ _ _ _ _ Hd). cbn iota.
          rewrite (bind_ok _ _ _ _ _ E1), (bind_ok _ _ _ _ _ E2).
          unfold array_remove_at. rewrite decide_True by lia. reflexivity. }
      apply Htail; [reflexivity|cbn; by rewrite Hm2, Hm1].
  - erewrite bind_ok; [|reflexivity]. by apply Htail.
Qed.

Lemma set_layer_refines_witness :
  (0 <= 0)%Z /\ forallb (layer_live lworld_built) (layers_of lworld_built) = true /\
  forallb (layer_live lworld_built) (set_layer_spec None 0 (layers_of lworld_built)) = true /\
  exists lw', set_layer None 0 lworld_built = Ok tt lw' /\
    layers_of lw' = set_layer_spec None 0 (layers_of lworld_built).
Proof.
  assert (H1 : forallb (layer_live lworld_built) (layers_of lworld_built) = true) by (vm_compute; reflexivity).
  assert (H2 : forallb (layer_live lworld_built) (set_layer_spec None 0 (layers_of lworld_built)) = true)
    by (vm_compute; reflexivity).
  split; [lia|split; [exact H1|split; [exact H2|]]].
  exact (set_layer_refines lworld_built None 0 ltac:(lia) H1 H2).
Defined.

End LayerProps.
