(* ===== verification/Shader.v ===== *)
(** * The shader text and the material's parameters

    The GLSL code [_update_material] assembles (lines 393-497 of
    [src/src/terrain_storage.cpp]) as the list of its lines, one per
    [code += "...\n"] fragment, the noise lines only when a noise texture
    is set; the uniforms it declares; and the parameters the storage
    sets on its material with [material_set_param] (lines 64, 65, 74,
    234, 244, 249, 254 and 373-376).

    The invariant [params_in storage_params] says that every material of
    the server holds only parameters of those names.  Every call of the
    program, with or without layers, keeps it, so in every reachable
    world the material holds no value for the layer uniforms of the
    shader ([texture_array_albedo], ...): the texture arrays the layer
    registry builds never reach the shader. *)

From S2P Require Import Prelude Godot GeneratedCache RegionIndex RegionMap Storage Machine Layers.
Import RegionIndex Storage Machine Layers LayerProps.

Module Shader.

(** The code of [_update_material], line by line. *)
Definition shader_code (use_noise : bool) : list string :=
    [
     "shader_type spatial;";
     "render_mode depth_draw_opaque, diffuse_burley;";
     "";
     "uniform float terrain_height = 512.0;";
     "uniform float region_size = 1024.0;";
     "uniform float region_pixel_size = 1.0;";
     "uniform int region_map_size = 16;";
     "";
     "uniform sampler2D region_map : filter_linear, repeat_disable, hint_default_black;";
     "uniform sampler2DArray height_maps : filter_linear_mipmap, repeat_enable;";
     "uniform sampler2DArray control_maps : filter_linear_mipmap, repeat_enable;";
     ""] ++
    (if use_noise then [
     "uniform sampler2D noise : filter_linear_mipmap_anisotropic, hint_default_black;";
     "uniform float noise_scale = 1.0;";
     "uniform float noise_height = 0.5;";
     "uniform float noise_fade = 5.0;"] else []) ++
    [
     "uniform sampler2DArray texture_array_albedo : source_color, filter_linear_mipmap_anisotropic, repeat_enable;";
     "uniform sampler2DArray texture_array_normal : hint_normal, filter_linear_mipmap_anisotropic, repeat_enable;";
     "";
     "uniform vec3 texture_uv_scale_array[256];";
     "uniform vec3 texture_3d_projection_array[256];";
     "uniform vec4 texture_color_array[256];";
     "uniform int texture_array_normal_max;";
     "";
     "vec3 unpack_normal(vec4 rgba) {";
     "	vec3 n = rgba.xzy * 2.0 - vec3(1.0);";
     "	n.z *= -1.0;";
     "	return n;";
     "}";
     "";
     "vec4 pack_normal(vec3 n, float a) {";
     "	n.z *= -1.0;";
     "	return vec4((n.xzy + vec3(1.0)) * 0.5, a);";
     "}";
     "";
     "float get_height(vec2 uv) {";
     "	float index = floor(texelFetch(region_map, ivec2(floor(uv))+(region_map_size/2), 0).r * 255.0);"] ++
    (if use_noise then [
     "	float weight = texture(region_map, (uv/float(region_map_size))+0.5).g;"] else []) ++
    [
     "	float height = 0.0;";
     "	if (index > 0.0){";
     "		height = texture(height_maps, vec3(uv, index - 1.0)).r;";
     "	}"] ++
    (if use_noise then [
     "	height = mix(height, texture(noise, uv * noise_scale).r * noise_height, pow(1.0-weight, noise_fade) );"] else []) ++
    [
     "	return height * terrain_height;";
     "}";
     "";
     "vec3 get_normal(vec2 uv) {";
     "	float left = get_height(uv + vec2(-region_pixel_size, 0));";
     "	float right = get_height(uv + vec2(region_pixel_size, 0));";
     "	float back = get_height(uv + vec2(0, -region_pixel_size));";
     "	float fore = get_height(uv + vec2(0, region_pixel_size));";
     "";
     "	vec3 horizontal = vec3(2.0, right - left, 0.0);";
     "	vec3 vertical = vec3(0.0, back - fore, 2.0);";
     "	vec3 normal = normalize(cross(vertical, horizontal));";
     "	normal.z *= -1.0;";
     "	return normal;";
     "}";
     "";
     "void vertex() {";
     "	vec3 world_vertex = (MODEL_MATRIX * vec4(VERTEX, 1.0)).xyz;";
     "	UV2 = (world_vertex.xz / vec2(region_size)) + vec2(0.5);";
     "	UV = world_vertex.xz * 0.5;";
     "	VERTEX.y = get_height(UV2);";
     "";
     "	NORMAL = vec3(0, 1, 0);";
     "	TANGENT = cross(NORMAL, vec3(0, 0, 1));";
     "	BINORMAL = cross(NORMAL, TANGENT);";
     "}";
     "";
     "void fragment() {";
     "	vec3 normal = vec3(0.5, 0.5, 1.0);";
     "	vec3 color = vec3(0.0);";
     "	float rough = 1.0;";
     "";
     "	NORMAL = mat3(VIEW_MATRIX) * get_normal(UV2);";
     "";
     "	vec2 p = UV * 4.0;";
     "	vec2 ddx = dFdx(p);";
     "	vec2 ddy = dFdy(p);";
     "	vec2 w = max(abs(ddx), abs(ddy)) + 0.01;";
     "	vec2 i = 2.0 * (abs(fract((p - 0.5 * w) / 2.0) - 0.5) - abs(fract((p + 0.5 * w) / 2.0) - 0.5)) / w;";
     "	color = vec3((0.5 - 0.5 * i.x * i.y) * 0.2 + 0.2);";
     "";
     "	ALBEDO = color;"].

Definition newline : string := String (Ascii.ascii_of_nat 10) EmptyString.

(** The [String] passed to [shader_set_code]: every fragment ends with a
    newline. *)
Definition shader_text (use_noise : bool) : string :=
  foldr (fun l acc => String.append l (String.append newline acc)) EmptyString (shader_code use_noise).

(** The text of a shader the storage creates. *)
Definition source_of (code : ShaderSource) : string :=
  match code with TerrainShader use_noise => shader_text use_noise end.

(** ** Uniform declarations *)

Definition ident_char (a : Ascii.ascii) : bool :=
  let n := Ascii.nat_of_ascii a in
  ((48 <=? n) && (n <=? 57)) || ((65 <=? n) && (n <=? 90)) || ((97 <=? n) && (n <=? 122)) || (n =? 95).

(** The identifier at the start of a word ([texture_color_array[256];]
    gives [texture_color_array]). *)
Fixpoint ident_prefix (s : string) : string :=
  match s with
  | String a rest => if ident_char a then String a (ident_prefix rest) else EmptyString
  | EmptyString => EmptyString
  end.

(** The name a line [uniform <type> <name> ...] declares. *)
Definition uniform_name (line : string) : option string :=
  match String.words line with
  | "uniform"%string :: _ :: name :: _ => Some (ident_prefix name)
  | _ => None
  end.

Definition uniforms (use_noise : bool) : list string := omap uniform_name (shader_code use_noise).

(** The names of the storage's [material_set_param] calls. *)
Definition storage_params : list string :=
  ["region_size"; "region_pixel_size"; "terrain_height"; "noise"; "noise_scale"; "noise_height";
   "noise_fade"; "height_maps"; "control_maps"; "region_map"; "region_map_size"]%string.

(** The uniforms of the layer arrays. *)
Definition layer_uniforms : list string :=
  ["texture_array_albedo"; "texture_array_normal"; "texture_uv_scale_array";
   "texture_3d_projection_array"; "texture_color_array"; "texture_array_normal_max"]%string.

(** ** Parameters of the server's materials *)

(** Every material of the server holds parameters of the names [N]
    only. *)
Definition params_in (N : list string) (en : Engine) : Prop :=
  forall m sh ps name v, resources en !! m = Some (RMaterial sh ps) -> ps !! name = Some v -> name ∈ N.

(** The same, as a test on the table. *)
Definition params_ok_b (N : list string) (en : Engine) : bool :=
  forallb (fun '(_, r) => match r with
                          | RMaterial _ ps => forallb (fun '(name, _) => bool_decide (name ∈ N)) (map_to_list ps)
                          | _ => true
                          end) (map_to_list (resources en)).

Section ParamsIn.
Context (N : list string).

(** A call of the server that keeps [params_in N]. *)
Definition keeps_params_en (f : Engine -> Engine) : Prop := forall en, params_in N en -> params_in N (f en).

Lemma params_in_same en en' : resources en' = resources en -> params_in N en -> params_in N en'.
Proof. intros Hr H m sh ps name v. rewrite Hr. apply H. Qed.

(** A resource stored at [r]: a material must have known parameters. *)
Lemma params_in_insert en en' r res :
  resources en' = <[r := res]> (resources en) ->
  (forall sh ps name v, res = RMaterial sh ps -> ps !! name = Some v -> name ∈ N) ->
  params_in N en -> params_in N en'.
Proof.
  intros Hr Hres H m sh ps name v. rewrite Hr, lookup_insert_Some.
  intros [[<- Heq]|[_ Hm]] Hv; [exact (Hres sh ps name v Heq Hv)|exact (H _ _ _ _ _ Hm Hv)].
Qed.

Lemma params_in_delete en en' r :
  resources en' = delete r (resources en) -> params_in N en -> params_in N en'.
Proof. intros Hr H m sh ps name v. rewrite Hr, lookup_delete_Some. intros [_ Hm] Hv. exact (H _ _ _ _ _ Hm Hv). Qed.

(** A server call that leaves the resources as they were. *)
Ltac params_same := match goal with H : params_in _ ?en |- _ => exact (params_in_same en _ eq_refl H) end.

Lemma keeps_params_report e : keeps_params_en (report e).
Proof. intros en H. params_same. Qed.

Lemma keeps_params_report_all es : keeps_params_en (report_all es).
Proof. intros en H. params_same. Qed.

Lemma keeps_params_emit ev : keeps_params_en (emit ev).
Proof. intros en H. params_same. Qed.

Lemma keeps_params_free_rid r : keeps_params_en (free_rid r).
Proof.
  intros en H. unfold free_rid. case_match; [|params_same].
  eapply (params_in_delete en); [reflexivity|exact H].
Qed.

Lemma keeps_params_alloc res en r en' :
  (forall sh ps, res = RMaterial sh ps -> ps = ∅) ->
  alloc res en = (r, en') -> params_in N en -> params_in N en'.
Proof.
  intros Hres [= <- <-]. eapply params_in_insert; [done|].
  intros sh ps name v Heq Hv. specialize (Hres sh ps Heq). subst ps. by rewrite lookup_empty in Hv.
Qed.

Lemma keeps_params_texture_2d_create img : keeps_params_en (fun en => (texture_2d_create img en).2).
Proof.
  intros en H. unfold texture_2d_create. case_bool_decide; [params_same|].
  destruct (alloc _ _) as [r en'] eqn:E. by eapply keeps_params_alloc; [|exact E|].
Qed.

Lemma keeps_params_texture_2d_layered_create l : keeps_params_en (fun en => (texture_2d_layered_create l en).2).
Proof.
  intros en H. unfold texture_2d_layered_create.
  repeat case_match; try params_same.
  match goal with |- params_in N (alloc ?res en).2 => destruct (alloc res en) as [r en'] eqn:E end.
  refine (keeps_params_alloc _ en _ _ _ E H). by intros.
Qed.

(** A parameter of a known name. *)
Lemma keeps_params_material_set_param m name v :
  name ∈ N -> keeps_params_en (material_set_param m name v).
Proof.
  intros Hn en H. unfold material_set_param.
  destruct (resources en !! m) as [[]|] eqn:Hm; try params_same.
  eapply (params_in_insert en); [reflexivity| |exact H]. intros sh ps name' v' [= <- <-].
  rewrite lookup_insert_Some. intros [[<- _]|[_ Hv]]; [done|]. by eapply H.
Qed.

Lemma keeps_params_material_set_shader m sh : keeps_params_en (material_set_shader m sh).
Proof.
  intros en H. unfold material_set_shader.
  destruct (resources en !! m) as [[]|] eqn:Hm; try params_same.
  eapply (params_in_insert en); [reflexivity| |exact H]. intros sh' ps name' v' [= <- <-]. by eapply H.
Qed.

Lemma keeps_params_shader_set_code sh code : keeps_params_en (shader_set_code sh code).
Proof.
  intros en H. unfold shader_set_code.
  destruct (resources en !! sh) as [[]|] eqn:Hm; try params_same.
  eapply (params_in_insert en); [reflexivity| |exact H]. done.
Qed.

Lemma keeps_params_clear g : keeps_params_en (fun en => (Generated.clear g en).2).
Proof. intros en H. unfold Generated.clear. cbn. case_match; [|done]. by apply keeps_params_free_rid. Qed.

Lemma keeps_params_create_layers l g : keeps_params_en (fun en => (Generated.create_layers l g en).2).
Proof.
  intros en H. unfold Generated.create_layers. destruct l as [|o l]; [by apply keeps_params_clear|].
  pose proof (keeps_params_texture_2d_layered_create (o :: l) en H) as H'. cbn beta in H'.
  destruct (texture_2d_layered_create (o :: l) en). exact H'.
Qed.

Lemma keeps_params_create_image img g : keeps_params_en (fun en => (Generated.create_image img g en).2).
Proof.
  intros en H. unfold Generated.create_image.
  pose proof (keeps_params_texture_2d_create img en H) as H'. cbn beta in H'.
  destruct (texture_2d_create img en). exact H'.
Qed.

End ParamsIn.

(** ** The invariant on worlds *)

Definition keeps_params (w w' : World) : Prop :=
  params_in storage_params (engine w) -> params_in storage_params (engine w').

#[export] Instance keeps_params_preorder : PreOrder keeps_params.
Proof. split; [intros w H; exact H|]. intros w1 w2 w3 H12 H23 H. auto. Qed.

Lemma params_same_engine {A} (c : M A) :
  (forall w a w', c w = Ok a w' -> engine w' = engine w) -> keeps keeps_params c.
Proof. intros Hc w a w' E. unfold keeps_params. by rewrite (Hc _ _ _ E). Qed.

Lemma params_engine_do f : keeps_params_en storage_params f -> keeps keeps_params (engine_do f).
Proof. intros Hf. refine (keeps_modify _ _ _). intros w H. exact (Hf _ H). Qed.

Lemma params_engine_call {A} (f : Engine -> A * Engine) :
  keeps_params_en storage_params (fun en => (f en).2) -> keeps keeps_params (engine_call f).
Proof.
  intros Hf w a w'. unfold engine_call. pose proof (Hf (engine w)) as Hw. cbn beta in Hw.
  destruct (f (engine w)). intros [= _ <-]. exact Hw.
Qed.

Lemma params_modify_storage f : keeps keeps_params (modify_storage f).
Proof. apply params_same_engine. by intros w a w' [= _ <-]. Qed.

Lemma params_new_image img : keeps keeps_params (new_image img).
Proof. apply params_same_engine. by intros w a w' [= _ <-]. Qed.

Lemma params_set_material_param name v :
  name ∈ storage_params -> keeps keeps_params (set_material_param name v).
Proof. intros Hn w a w' [= _ <-]. exact (keeps_params_material_set_param _ _ _ _ Hn (engine w)). Qed.

Lemma params_gen_clear c : keeps keeps_params (gen_clear c).
Proof.
  intros w a w'. unfold gen_clear. pose proof (keeps_params_clear storage_params (gen c (storage w)) (engine w)) as Hw.
  cbn beta in Hw. destruct (Generated.clear _ _). intros [= _ <-]. exact Hw.
Qed.

Lemma params_gen_create_layers c l : keeps keeps_params (gen_create_layers c l).
Proof.
  intros w a w'. unfold gen_create_layers.
  pose proof (keeps_params_create_layers storage_params l (gen c (storage w)) (engine w)) as Hw.
  cbn beta in Hw. destruct (Generated.create_layers _ _ _). intros [= _ <-]. exact Hw.
Qed.

Lemma params_gen_create_image c img : keeps keeps_params (gen_create_image c img).
Proof.
  intros w a w'. unfold gen_create_image.
  pose proof (keeps_params_create_image storage_params img (gen c (storage w)) (engine w)) as Hw.
  cbn beta in Hw. destruct (Generated.create_image _ _ _). intros [= _ <-]. exact Hw.
Qed.

Create HintDb t3d_params.

#[export] Hint Resolve params_modify_storage params_new_image params_gen_clear params_gen_create_layers
  params_gen_create_image keeps_params_report keeps_params_report_all keeps_params_emit
  keeps_params_material_set_shader keeps_params_shader_set_code : t3d_params.
#[export] Hint Extern 1 (keeps _ (engine_do _)) => apply params_engine_do : t3d_params.
#[export] Hint Extern 1 (keeps _ (st_crash _)) => apply keeps_crash : t3d_params.
#[export] Hint Extern 1 (keeps _ (ERR _)) => unfold ERR : t3d_params.
#[export] Hint Extern 1 (keeps _ (report_errs _)) => unfold report_errs : t3d_params.
#[export] Hint Extern 1 (keeps _ emit_changed) => unfold emit_changed : t3d_params.
#[export] Hint Extern 1 (keeps _ notify_property_list_changed) => unfold notify_property_list_changed : t3d_params.
#[export] Hint Extern 1 (keeps _ (set_material_param _ _)) =>
  apply params_set_material_param; apply (bool_decide_unpack _); vm_compute; reflexivity : t3d_params.
#[export] Hint Extern 1 (keeps _ (engine_call _)) =>
  apply params_engine_call; intros ?en ?H; eapply keeps_params_alloc; [|reflexivity|exact H];
  intros ? ? [=]; done : t3d_params.

Ltac pkeeps_auto := keeps_with ltac:(eauto with t3d_params).

Lemma params_update_regions : keeps keeps_params _update_regions.
Proof. unfold _update_regions. pkeeps_auto. Qed.

Lemma params_set_region_size p : keeps keeps_params (set_region_size p).
Proof. unfold set_region_size. pkeeps_auto. Qed.

#[export] Hint Resolve params_update_regions params_set_region_size : t3d_params.

Lemma params_update_material : keeps keeps_params _update_material.
Proof. unfold _update_material. cbv zeta. pkeeps_auto. Qed.

#[export] Hint Resolve params_update_material : t3d_params.

Lemma params_client_set_pixel id p col : keeps keeps_params (client_set_pixel id p col).
Proof.
  unfold client_set_pixel. refine (keeps_get _ _ _). intros w.
  destruct (images w !! id); [|apply keeps_crash].
  destruct (image_set_pixelv p col _); [intros a w' [= _ <-] H; exact H|].
  apply keeps_at_keeps. unfold ERR. auto with t3d_params.
Qed.

Lemma params_force_update_maps t : keeps keeps_params (force_update_maps t).
Proof. unfold force_update_maps. destruct t; pkeeps_auto. Qed.

Lemma params_get_map i t : keeps keeps_params (get_map i t).
Proof. unfold get_map. destruct t; pkeeps_auto. Qed.

#[export] Hint Resolve params_force_update_maps params_get_map : t3d_params.

(** Every call of [Machine.v] keeps the parameters of the server's
    materials among the storage's names. *)
Lemma params_method c : keeps keeps_params (method_of c).
Proof.
  destruct c; cbn [method_of];
    unfold set_max_height, add_region, remove_region, regions_changed, set_region_offsets,
      set_height_maps, set_control_maps, set_shader_override, set_noise_texture,
      set_noise_scale, set_noise_height, set_noise_fade; cbv zeta;
    try (apply params_client_set_pixel); pkeeps_auto.
Qed.

(** ** The program with layers *)

Lemma params_lift {A} (c : M A) : keeps keeps_params c -> keeps (on_base keeps_params) (lift c).
Proof. exact (on_base_lift keeps_params c). Qed.

(** Decompose a layer method; a lifted block of the storage is
    decomposed in turn. *)
Ltac lpkeeps_auto :=
  keeps_with ltac:(first [apply params_lift; solve [pkeeps_auto] | eauto with t3d_params t3d_onbase]).

Lemma params_connect_layers ls : keeps (on_base keeps_params) (connect_layers ls).
Proof. induction ls; simpl; lpkeeps_auto. Qed.

#[export] Hint Resolve params_connect_layers : t3d_params.

Lemma params_update_layers : keeps (on_base keeps_params) _update_layers.
Proof. unfold _update_layers, _update_arrays, _update_textures. lpkeeps_auto. Qed.

Lemma params_call_targets o tgts : keeps (on_base keeps_params) (call_targets o tgts).
Proof. induction tgts as [|[] rest IH]; simpl; unfold call_target, _update_arrays, _update_textures; lpkeeps_auto. Qed.

#[export] Hint Resolve params_update_layers params_call_targets : t3d_params.

Lemma params_edit_layer o f sig : keeps (on_base keeps_params) (edit_layer o f sig).
Proof.
  unfold edit_layer, emit_signal. refine (keeps_get _ _ _). intros lw.
  destruct (mats lw !! o); [|apply keeps_crash].
  intros a lw''. unfold mbind, st_mbind, st_bind, st_put. intros Hrun.
  exact (params_call_targets _ _ _ _ _ Hrun).
Qed.

#[export] Hint Resolve params_edit_layer : t3d_params.

Lemma params_lstep lw lw' : lstep lw lw' -> on_base keeps_params lw lw'.
Proof.
  intros [c lw0 lw1 Hc]. enough (Hk : keeps (on_base keeps_params) (lmethod_of c)) by exact (Hk lw0 tt lw1 Hc).
  destruct c; cbn [lmethod_of]; unfold set_layer, set_layers, get_layer, set_albedo_texture, set_uv_scale;
    cbv zeta; [apply params_lift, params_method|lpkeeps_auto..].
Qed.

Lemma params_ok_b_sound N en : params_ok_b N en = true -> params_in N en.
Proof.
  unfold params_ok_b. intros H m sh ps name v Hm Hv.
  apply forallb_forall with (x := (m, RMaterial sh ps)) in H;
    [|apply list_elem_of_In, elem_of_map_to_list; exact Hm].
  apply forallb_forall with (x := (name, v)) in H; [|apply list_elem_of_In, elem_of_map_to_list; exact Hv].
  exact (bool_decide_eq_true_1 _ H).
Qed.

Lemma lreachable_params lw : lreachable lw -> params_in storage_params (engine (base lw)).
Proof.
  intros Hr. refine (rtc_ind_r (fun lw => params_in storage_params (engine (base lw))) lworld_init _ _ lw Hr).
  - apply params_ok_b_sound. vm_compute. reflexivity.
  - intros y z _ Hs IH. exact (params_lstep _ _ Hs IH).
Qed.

Lemma storage_params_declared n : n ∈ storage_params -> n ∈ uniforms true.
Proof.
  revert n. apply Forall_forall. apply (bool_decide_unpack _). vm_compute. reflexivity.
Qed.

Lemma layer_uniforms_declared u : u ∈ layer_uniforms -> u ∈ uniforms false /\ u ∈ uniforms true /\ u ∉ storage_params.
Proof.
  revert u. apply Forall_forall. apply (bool_decide_unpack _). vm_compute. reflexivity.
Qed.

(** ** Claims *)



(** (C10) The layer uniforms of the shader ([texture_array_albedo],
    [texture_array_normal], [texture_uv_scale_array],
    [texture_3d_projection_array], [texture_color_array],
    [texture_array_normal_max]), declared in both variants of the text,
    are never set: in every world the program with layers reaches, no
    material of the server holds a value for them.  The albedo and
    normal arrays the layer registry builds, and the uv scales and
    colours of [_update_arrays], never reach the shader. *)
Theorem layer_uniforms_never_set lw u :
  lreachable lw -> u ∈ layer_uniforms ->
  u ∈ uniforms false /\ u ∈ uniforms true /\ forall m, material_param (engine (base lw)) m u = None.
Proof.
  intros Hr Hu. destruct (layer_uniforms_declared u Hu) as (Hf & Ht & Hn).
  split; [exact Hf|split; [exact Ht|]]. intros m. unfold material_param.
  destruct (resources (engine (base lw)) !! m) as [[]|] eqn:Hm; try done.
  destruct (params !! u) as [v|] eqn:Hv; [|done].
  exfalso. exact (Hn (lreachable_params lw Hr _ _ _ _ _ Hm Hv)).
Qed.

Lemma layer_uniforms_never_set_witness :
  lreachable lworld_built /\ "texture_array_albedo"%string ∈ layer_uniforms /\
  ("texture_array_albedo"%string ∈ uniforms false /\ "texture_array_albedo"%string ∈ uniforms true /\
   forall m, material_param (engine (base lworld_built)) m "texture_array_albedo" = None).
Proof.
  assert (Hu : "texture_array_albedo"%string ∈ layer_uniforms) by (apply (bool_decide_unpack _); vm_compute; reflexivity).
  split; [exact lworld_built_reachable|split; [exact Hu|]].
  exact (layer_uniforms_never_set lworld_built _ lworld_built_reachable Hu).
Defined.

End Shader.
