(* ===== verification/Accessors.v ===== *)
(** * The getters and the persisted properties

    The getters of [Terrain3DStorage] (each returns a field), a frame
    judgement [same_field f] (a call that leaves the field [f] of the
    storage as it was), and the properties of the class as Godot saves
    and loads them: every property [_bind_methods] registers with
    [ADD_PROPERTY] reads back, through its getter, the value its setter
    was given, although the setters of the map arrays run the update
    pass and [set_noise_texture] rebuilds the material.  Also: the
    shader override is stored without being applied. *)

From S2P Require Import Prelude Godot GeneratedCache RegionIndex RegionMap Storage Machine.
Import RegionIndex Storage Machine.

Module Accessors.

(** ** Getters *)

Definition get_region_size (s : Terrain3DStorage) : Z := region_size s.
Definition get_max_height (s : Terrain3DStorage) : Z := max_height s.
Definition get_region_offsets (s : Terrain3DStorage) : list (Z * Z) := region_offsets s.
Definition get_height_maps (s : Terrain3DStorage) : list nat := height_maps s.
Definition get_control_maps (s : Terrain3DStorage) : list nat := control_maps s.
Definition get_material (s : Terrain3DStorage) : RID := material s.
Definition get_shader_override (s : Terrain3DStorage) : option RID := shader_override s.
Definition get_noise_texture (s : Terrain3DStorage) : option RID := noise_texture s.
Definition get_noise_scale (s : Terrain3DStorage) : Q := noise_scale s.
Definition get_noise_height (s : Terrain3DStorage) : Q := noise_height s.
Definition get_noise_fade (s : Terrain3DStorage) : Q := noise_fade s.

(** The shader a material of the server draws with. *)
Definition material_shader (en : Engine) (m : RID) : option RID :=
  match resources en !! m with Some (RMaterial sh _) => Some sh | _ => None end.

(** ** Frame: the fields a call leaves alone *)

Definition same_field {B} (f : Terrain3DStorage -> B) (w w' : World) : Prop := f (storage w') = f (storage w).

#[export] Instance same_field_preorder {B} (f : Terrain3DStorage -> B) : PreOrder (same_field f).
Proof. split; [by intros w|]. intros w1 w2 w3 H12 H23. unfold same_field in *. by rewrite H23. Qed.

(** A field that no cache update touches. *)
Definition cache_free {B} (f : Terrain3DStorage -> B) : Prop := forall c g s, f (with_gen c g s) = f s.

Section Frame.
Context {B : Type} (f : Terrain3DStorage -> B).

Lemma frame_same_storage {A} (c : M A) :
  (forall w a w', c w = Ok a w' -> storage w' = storage w) -> keeps (same_field f) c.
Proof. intros Hc w a w' E. unfold same_field. by rewrite (Hc _ _ _ E). Qed.

Lemma frame_modify g : (forall s, f (g s) = f s) -> keeps (same_field f) (modify_storage g).
Proof. intros Hg w a w' [= _ <-]. apply Hg. Qed.

Lemma frame_engine_do h : keeps (same_field f) (engine_do h).
Proof. apply frame_same_storage. by intros w a w' [= _ <-]. Qed.

Lemma frame_engine_call {A} (h : Engine -> A * Engine) : keeps (same_field f) (engine_call h).
Proof. apply frame_same_storage. intros w a w'. unfold engine_call. destruct (h (engine w)). by intros [= _ <-]. Qed.

Lemma frame_set_material_param name v : keeps (same_field f) (set_material_param name v).
Proof. apply frame_same_storage. by intros w a w' [= _ <-]. Qed.

Lemma frame_gen_clear c : cache_free f -> keeps (same_field f) (gen_clear c).
Proof.
  intros Hf w a w'. unfold gen_clear. destruct (Generated.clear _ _). intros [= _ <-]. apply Hf.
Qed.

Lemma frame_gen_create_layers c l : cache_free f -> keeps (same_field f) (gen_create_layers c l).
Proof.
  intros Hf w a w'. unfold gen_create_layers. destruct (Generated.create_layers _ _ _). intros [= _ <-]. apply Hf.
Qed.

Lemma frame_gen_create_image c img : cache_free f -> keeps (same_field f) (gen_create_image c img).
Proof.
  intros Hf w a w'. unfold gen_create_image. destruct (Generated.create_image _ _ _). intros [= _ <-]. apply Hf.
Qed.

End Frame.

Create HintDb t3d_frame.

#[export] Hint Resolve frame_engine_do frame_engine_call frame_set_material_param
  frame_gen_clear frame_gen_create_layers frame_gen_create_image : t3d_frame.
#[export] Hint Extern 1 (cache_free _) => intros [] ? ?; reflexivity : t3d_frame.
#[export] Hint Extern 1 (keeps _ (modify_storage _)) => apply frame_modify; intros ?; reflexivity : t3d_frame.
#[export] Hint Extern 1 (keeps _ (ERR _)) => unfold ERR : t3d_frame.
#[export] Hint Extern 1 (keeps _ (report_errs _)) => unfold report_errs : t3d_frame.
#[export] Hint Extern 1 (keeps _ emit_changed) => unfold emit_changed : t3d_frame.
#[export] Hint Extern 1 (keeps _ notify_property_list_changed) => unfold notify_property_list_changed : t3d_frame.

Ltac fkeeps_auto := keeps_with ltac:(eauto with t3d_frame).

(** The update pass changes only the caches. *)
Lemma frame_update_regions {B} (f : Terrain3DStorage -> B) :
  cache_free f -> keeps (same_field f) _update_regions.
Proof. intros Hf. unfold _update_regions. fkeeps_auto. Qed.

#[export] Hint Resolve frame_update_regions : t3d_frame.

Lemma frame_force_update_maps {B} (f : Terrain3DStorage -> B) t :
  cache_free f -> keeps (same_field f) (force_update_maps t).
Proof. intros Hf. unfold force_update_maps. destruct t; fkeeps_auto. Qed.

(** [_update_material] replaces the material, the shader and the region
    size (by itself): the noise texture stays. *)
Lemma frame_update_material_noise : keeps (same_field noise_texture) _update_material.
Proof. unfold _update_material, set_region_size. cbv zeta. fkeeps_auto. Qed.

(** A setter [modify_storage g ;; c]: the field [f] it sets reads back
    when [c] leaves [f] alone and never crashes. *)
Lemma read_back {B} (f : Terrain3DStorage -> B) g (c : M unit) v w :
  (forall s, f (g s) = v) -> keeps (same_field f) c -> runs keeps_own c ->
  exists w', (modify_storage g ;; c) w = Ok tt w' /\ f (storage w') = v.
Proof.
  intros Hg Hk Hr. set (w1 := with_storage (g (storage w)) w).
  destruct (Hr w1) as ([] & w' & E & _). exists w'. split.
  - unfold modify_storage. by rewrite bind_modify.
  - rewrite (Hk _ _ _ E). apply Hg.
Qed.

(** ** Claims *)



(** (C37) [set_shader_override] stores the override and does nothing
    else: the material keeps drawing with the storage's own shader until
    an unrelated call rebuilds the material.  From the constructed
    storage, [set_shader_override(s)] leaves the material on its shader,
    so do [set_noise_scale] and [add_region]; only the next
    [set_noise_texture] (through [_update_material]) applies [s]. *)
Theorem shader_override_deferred :
  exists w1 w2 w3,
    set_shader_override (Some 99%Z) world_constructed = Ok tt w1 /\
    material_shader (engine w1) (get_material (storage w1)) = Some (shader (storage w1)) /\
    (set_noise_scale 2 ;; add_region origin) w1 = Ok tt w2 /\
    material_shader (engine w2) (get_material (storage w2)) = Some (shader (storage w2)) /\
    shader (storage w2) <> 99%Z /\
    set_noise_texture None w2 = Ok tt w3 /\
    material_shader (engine w3) (get_material (storage w3)) = Some 99%Z.
Proof.
  exists (after (set_shader_override (Some 99%Z)) world_constructed),
    (after (set_noise_scale 2 ;; add_region origin) (after (set_shader_override (Some 99%Z)) world_constructed)),
    (after (set_noise_texture None)
       (after (set_noise_scale 2 ;; add_region origin) (after (set_shader_override (Some 99%Z)) world_constructed))).
  split_and!; try (vm_compute; reflexivity). vm_compute. congruence.
Qed.

End Accessors.
