(* ===== verification/Persistence.v ===== *)
(** * Saving and loading a [Terrain3DStorage] resource

    A [Terrain3DStorage] is a [Resource]: Godot saves it by reading, in
    the order [_bind_methods] added them, the properties of the class
    through their getters, and loads it by creating a new instance and
    calling the setters on the values read back.  Nothing but the
    registration of [Registration.v] connects the saved file to the
    code: a property is saved only if ClassDB finds its getter, and
    loaded through whatever method ClassDB finds under its setter's
    name.

    The engine's side (outside [src/]) is modelled from what Godot does:
    - [get_property] and [set_property] ([ClassDB::get_property] and
      [ClassDB::set_property]) find the property, then the method bound
      under its getter or setter name, and call it through the method
      pointer ([call_getter], [call_setter], the calls the method binds
      of lines 525-559 make);
    - [save_resource] (the text saver) writes every property whose value
      is not the class default ([class_default], read on a fresh
      instance), compared with [Variant]'s [==] ([value_eqb]: floats by
      value, arrays element by element, objects by identity);
    - [load_resource] sets the written properties, in order, on a new
      instance ([instantiate]) that shares the world's images and layer
      objects, which the loader has loaded before.

    The theorems: every world the program with layers reaches keeps its
    region size in [[64, 2048]] and its layers live (objects of the
    heap); and from every such world, saving and loading gives back
    every property's value, up to [Variant] equality, although each
    setter runs its update pass and [set_noise_texture] rebuilds the
    material on the half-loaded object. *)

From S2P Require Import Prelude Godot GeneratedCache RegionIndex RegionMap Storage Registration Machine Passes Layers Accessors.
Import RegionIndex Storage Machine Layers LayerProps Accessors ClassDB Bindings.

Module Persistence.

(** ** Values *)

(** A property's value as a [Variant]: [INT], [FLOAT], the three arrays
    ([Image] objects, [Vector2i]s, layer objects) and an [Object] (a
    texture or a shader, by its RID). *)
Inductive Value :=
  | VInt (z : Z)
  | VFloat (q : Q)
  | VImages (l : list nat)
  | VOffsets (l : list (Z * Z))
  | VObject (o : option RID)
  | VLayers (l : list (option nat)).

(** [Variant::operator==]: numbers by value (an [INT] equals a [FLOAT]
    of the same value), arrays element by element, objects by
    identity; values of other types differ. *)
Definition value_eqb (v v' : Value) : bool :=
  match v, v' with
  | VInt a, VInt b => bool_decide (a = b)
  | VInt a, VFloat b => Qeq_bool (inject_Z a) b
  | VFloat a, VInt b => Qeq_bool a (inject_Z b)
  | VFloat a, VFloat b => Qeq_bool a b
  | VImages a, VImages b => bool_decide (a = b)
  | VOffsets a, VOffsets b => bool_decide (a = b)
  | VObject a, VObject b => bool_decide (a = b)
  | VLayers a, VLayers b => bool_decide (a = b)
  | _, _ => false
  end.

#[export] Instance value_equiv : Equiv Value := fun v v' => value_eqb v v' = true.

Lemma inject_Z_Qeq a b : (inject_Z a == inject_Z b)%Q <-> a = b.
Proof. split; [apply inject_Z_injective|by intros ->]. Qed.

#[export] Instance value_equivalence : Equivalence (≡@{Value}).
Proof.
  unfold equiv, value_equiv. split.
  - intros x. change (value_eqb x x = true). destruct x; cbn [value_eqb]; first [apply bool_decide_eq_true_2; reflexivity | apply Qeq_bool_refl].
  - intros x y H. change (value_eqb x y = true) in H. change (value_eqb y x = true). destruct x, y; cbn [value_eqb] in *; try done;
      rewrite ?bool_decide_eq_true, ?Qeq_bool_iff in *; first [by symmetry | by apply Qeq_sym].
  - intros x y z H1 H2. change (value_eqb x y = true) in H1. change (value_eqb y z = true) in H2.
    change (value_eqb x z = true). destruct x, y, z; cbn [value_eqb] in *; try done;
      rewrite ?bool_decide_eq_true, ?Qeq_bool_iff in *; subst; try done;
      first [by eapply Qeq_trans | apply inject_Z_Qeq; by eapply Qeq_trans].
Qed.

(** ** ClassDB's calls *)

(** A getter called through its method bind ([ptrcall] of a method of
    no argument that returns a value). *)
Definition call_getter (m : method) (lw : LWorld) : option Value :=
  let s := storage (base lw) in
  match m with
  | m_get_region_size => Some (VInt (get_region_size s))
  | m_get_max_height => Some (VInt (get_max_height s))
  | m_get_height_maps => Some (VImages (get_height_maps s))
  | m_get_control_maps => Some (VImages (get_control_maps s))
  | m_get_region_offsets => Some (VOffsets (get_region_offsets s))
  | m_get_noise_texture => Some (VObject (get_noise_texture s))
  | m_get_noise_scale => Some (VFloat (get_noise_scale s))
  | m_get_noise_height => Some (VFloat (get_noise_height s))
  | m_get_noise_fade => Some (VFloat (get_noise_fade s))
  | m_get_shader_override => Some (VObject (get_shader_override s))
  | m_get_layers => Some (VLayers (layers_of lw))
  | m_get_layer_count => Some (VInt (get_layer_count lw))
  | m_get_region_count => Some (VInt (get_region_count s))
  | _ => None
  end.

(** A setter called through its method bind with one argument: [true]
    when the call is made, [false] when the argument does not convert
    to the parameter's type (an [INT] converts to a [float]; other
    conversions are not modelled and refused) or the method is not a
    setter. *)
Definition call_setter (m : method) (v : Value) : L bool :=
  match m, v with
  | m_set_region_size, VInt z => lift (set_region_size z) ;; mret true
  | m_set_max_height, VInt z => lift (set_max_height z) ;; mret true
  | m_set_height_maps, VImages l => lift (set_height_maps l) ;; mret true
  | m_set_control_maps, VImages l => lift (set_control_maps l) ;; mret true
  | m_set_region_offsets, VOffsets l => lift (set_region_offsets l) ;; mret true
  | m_set_noise_texture, VObject o => lift (set_noise_texture o) ;; mret true
  | m_set_noise_scale, VFloat q => lift (set_noise_scale q) ;; mret true
  | m_set_noise_scale, VInt z => lift (set_noise_scale (inject_Z z)) ;; mret true
  | m_set_noise_height, VFloat q => lift (set_noise_height q) ;; mret true
  | m_set_noise_height, VInt z => lift (set_noise_height (inject_Z z)) ;; mret true
  | m_set_noise_fade, VFloat q => lift (set_noise_fade q) ;; mret true
  | m_set_noise_fade, VInt z => lift (set_noise_fade (inject_Z z)) ;; mret true
  | m_set_shader_override, VObject o => lift (set_shader_override o) ;; mret true
  | m_set_layers, VLayers l => set_layers l ;; mret true
  | _, _ => mret false
  end.

(** The setter and getter names of a property. *)
Definition find_prop (c : ClassInfo method) (name : string) : option (string * string) :=
  match list_find (fun e => prop_name e = Some name) (props c) with
  | Some (_, PProp _ st gt) => Some (st, gt)
  | _ => None
  end.

(** [ClassDB::get_property]. *)
Definition get_property (c : ClassInfo method) (name : string) (lw : LWorld) : option Value :=
  match find_prop c name with
  | Some (_, gt) => match find_method c gt with Some mb => call_getter (mb_ptr mb) lw | None => None end
  | None => None
  end.

(** [ClassDB::set_property]: [false] when the class has no such
    property or no setter bound under its name. *)
Definition set_property (c : ClassInfo method) (name : string) (v : Value) : L bool :=
  match find_prop c name with
  | Some (st, _) => match find_method c st with Some mb => call_setter (mb_ptr mb) v | None => mret false end
  | None => mret false
  end.

(** ** Saving and loading *)

(** The properties with [PROPERTY_USAGE_STORAGE], in order: every
    property [ADD_PROPERTY] adds (a group is not stored). *)
Definition stored_props (c : ClassInfo method) : list string := omap prop_name (props c).

(** [ClassDB::class_get_default_property_value]: the value on a fresh
    instance. *)
Definition class_default (c : ClassInfo method) (name : string) : option Value :=
  get_property c name lworld_init.

(** The text saver: each stored property with its value, unless the
    value equals the class default. *)
Definition save_resource (c : ClassInfo method) (lw : LWorld) : list (string * Value) :=
  omap (fun name =>
          match get_property c name lw with
          | None => None
          | Some v => match class_default c name with
                      | Some d => if value_eqb v d then None else Some (name, v)
                      | None => Some (name, v)
                      end
          end) (stored_props c).

(** The loader: [set] each saved property in turn. *)
Fixpoint load_resource (c : ClassInfo method) (ps : list (string * Value)) : L unit :=
  match ps with
  | [] => mret tt
  | (name, v) :: rest => set_property c name v ;; load_resource c rest
  end.

(** A new instance of the class in the world of [lw]: a storage with
    its field defaults, constructed, beside the images and layer
    objects of [lw], with no connection. *)
Definition instantiate (lw : LWorld) : LWorld :=
  mkLWorld (after constructor (mkWorld storage_defaults (images (base lw)) (next_object (base lw)) (engine (base lw))))
           (mats lw) (next_mat lw) [].

(** ** Association lists *)

Section Assoc.
Context {K V : Type} `{EqDecision K}.

Definition assoc (k : K) (l : list (K * V)) : option V := (fun p => p.2.2) <$> list_find (fun kv => kv.1 = k) l.

Definition assoc_set (k : K) (v : V) (l : list (K * V)) : list (K * V) :=
  map (fun kv => if bool_decide (kv.1 = k) then (k, v) else kv) l.

Lemma assoc_cons k k' v l : assoc k ((k', v) :: l) = if bool_decide (k' = k) then Some v else assoc k l.
Proof.
  unfold assoc. simpl. case_bool_decide as H; case_decide; try done.
  by destruct (list_find _ l) as [[]|].
Qed.

Lemma assoc_set_cons k v k0 v0 l :
  assoc_set k v ((k0, v0) :: l) = (if bool_decide (k0 = k) then (k, v) else (k0, v0)) :: assoc_set k v l.
Proof. reflexivity. Qed.

Lemma assoc_assoc_set k k' v l :
  assoc k (assoc_set k' v l) = if bool_decide (k' = k) then (fun _ => v) <$> assoc k l else assoc k l.
Proof.
  induction l as [|[k0 v0] l IH]; [by case_bool_decide|].
  rewrite assoc_set_cons. destruct (decide (k0 = k')) as [->|H0].
  - rewrite bool_decide_true, !assoc_cons, IH by done. by repeat case_bool_decide.
  - rewrite (bool_decide_false (k0 = k')), !assoc_cons, IH by done. repeat case_bool_decide; subst; done.
Qed.

Lemma assoc_keys k l : is_Some (assoc k l) -> k ∈ l.*1.
Proof.
  unfold assoc. intros [x Hx]. apply fmap_Some in Hx as ([i [k0 v0]] & Hf & _).
  apply list_find_Some in Hf as (Hi & Hk0 & _). simpl in Hk0. subst k0.
  apply list_elem_of_fmap. exists (k, v0). split; [done|]. by eapply list_elem_of_lookup_2.
Qed.

Lemma assoc_is_Some k l : k ∈ l.*1 -> is_Some (assoc k l).
Proof.
  induction l as [|[k0 v0] l IH]; [by intros ?%elem_of_nil|]. rewrite assoc_cons.
  intros Hk. cbn in Hk. apply elem_of_cons in Hk as [->|Hk]; case_bool_decide; try done. by apply IH.
Qed.

Lemma omap_ext_in {A B} (f g : A -> option B) (l : list A) :
  (forall x, x ∈ l -> f x = g x) -> omap f l = omap g l.
Proof.
  induction l as [|x l IH]; intros H; [done|]. cbn.
  rewrite (H x ltac:(by apply elem_of_cons; left)), IH; [done|]. intros y Hy. apply H, elem_of_cons. by right.
Qed.

(** Setting the pairs of [ps] in turn: a key of [l] ends with the value
    [ps] gives it, or keeps its own. *)
Lemma assoc_foldl_set k l ps :
  NoDup ps.*1 -> is_Some (assoc k l) ->
  assoc k (foldl (fun l kv => assoc_set kv.1 kv.2 l) l ps) =
    match assoc k ps with Some v => Some v | None => assoc k l end.
Proof.
  revert l. induction ps as [|[k' v] ps IH]; intros l Hnd Hk; [done|].
  cbn in Hnd. apply NoDup_cons in Hnd as [Hk' Hnd]. cbn [foldl fst snd].
  rewrite IH; [|done|].
  2:{ rewrite assoc_assoc_set. case_bool_decide; [|done]. destruct Hk as [x ->]. by eexists. }
  rewrite assoc_cons, assoc_assoc_set. case_bool_decide as E; [subst k'|done].
  destruct Hk as [x ->]. destruct (assoc k ps) eqn:Hps; [|done].
  exfalso. apply Hk', assoc_keys. by rewrite Hps.
Qed.

(** The pairs kept by a filter over distinct keys. *)
Lemma omap_keys_elem (g : K -> option V) k ks :
  k ∈ (omap (fun k => (fun v => (k, v)) <$> g k) ks).*1 -> k ∈ ks.
Proof.
  intros Hin. apply list_elem_of_fmap in Hin as ([k' v] & -> & Hin).
  apply list_elem_of_omap in Hin as (k'' & Hk'' & Hg). destruct (g k''); simplify_eq/=. done.
Qed.

Lemma assoc_omap_keys (g : K -> option V) k ks :
  NoDup ks -> k ∈ ks -> assoc k (omap (fun k => (fun v => (k, v)) <$> g k) ks) = g k.
Proof.
  induction ks as [|k0 ks IH]; intros Hnd Hk; [by apply elem_of_nil in Hk|].
  apply NoDup_cons in Hnd as [Hk0 Hnd]. apply elem_of_cons in Hk.
  simpl. destruct (g k0) as [v0|] eqn:Hg; simpl.
  - rewrite assoc_cons. case_bool_decide as E; [by subst k0|].
    destruct Hk as [->|Hk]; [done|]. by apply IH.
  - destruct Hk as [->|Hk]; [|by apply IH]. rewrite Hg.
    destruct (assoc k0 _) eqn:E; [|done]. exfalso. apply Hk0.
    eapply omap_keys_elem, assoc_keys. by rewrite E.
Qed.

Lemma omap_keys_NoDup (g : K -> option V) ks :
  NoDup ks -> NoDup (omap (fun k => (fun v => (k, v)) <$> g k) ks).*1.
Proof.
  induction ks as [|k0 ks IH]; intros Hnd; [constructor|]. apply NoDup_cons in Hnd as [Hk0 Hnd].
  simpl. destruct (g k0); simpl; [|by apply IH]. constructor; [|by apply IH].
  intros Hin. by apply Hk0, (omap_keys_elem g).
Qed.

End Assoc.

(** ** The stored values of a storage *)

(** The values the getters of the eleven properties read, by name, in
    the order [_bind_methods] adds them. *)
Definition sview (s : Terrain3DStorage) : list (string * Value) :=
  [("region_size", VInt (get_region_size s)); ("max_height", VInt (get_max_height s));
   ("height_maps", VImages (get_height_maps s)); ("control_maps", VImages (get_control_maps s));
   ("region_offsets", VOffsets (get_region_offsets s));
   ("noise_texture", VObject (get_noise_texture s)); ("noise_scale", VFloat (get_noise_scale s));
   ("noise_height", VFloat (get_noise_height s)); ("noise_fade", VFloat (get_noise_fade s));
   ("shader_override", VObject (get_shader_override s)); ("layers", VLayers (layers s))]%string.

Definition pkeys : list string := (sview storage_defaults).*1.

Lemma sview_keys s : (sview s).*1 = pkeys.
Proof. reflexivity. Qed.

Lemma stored_props_registered : stored_props registered_class = pkeys.
Proof. vm_compute. reflexivity. Qed.

Lemma pkeys_NoDup : NoDup pkeys.
Proof. apply (bool_decide_unpack _). vm_compute. reflexivity. Qed.

(** ClassDB reads each stored property of the registered class through
    its getter: the value of [sview]. *)
Lemma get_property_sview n lw :
  n ∈ pkeys -> get_property registered_class n lw = assoc n (sview (storage (base lw))).
Proof.
  intros Hn. repeat (apply elem_of_cons in Hn as [->|Hn]; [vm_compute; reflexivity|]).
  by apply elem_of_nil in Hn.
Qed.

(** ** Frame: what leaves the stored values alone *)

Lemma cache_free_sview : cache_free sview.
Proof. intros [] ? ?; reflexivity. Qed.

Lemma with_region_size_self s : with_region_size (region_size s) s = s.
Proof. by destruct s. Qed.

(** [set_region_size] on the size the storage already has changes no
    field. *)
Lemma set_region_size_self p w a w' :
  region_size (storage w) = p -> set_region_size p w = Ok a w' -> storage w' = storage w.
Proof.
  intros <-. unfold set_region_size. case_bool_decide; [by intros [= _ <-]|].
  case_bool_decide; [by intros [= _ <-]|].
  unfold modify_storage. rewrite bind_modify. unfold set_material_param. cbn.
  intros E. injection E as _ E. rewrite <- E. cbn. apply with_region_size_self.
Qed.

(** [_update_material] re-applies the region size it reads: the stored
    values stay. *)
Lemma frame_update_material_sview : keeps (same_field sview) _update_material.
Proof.
  pose proof cache_free_sview.
  unfold _update_material.
  do 2 (refine (keeps_get _ _ _); intros ?; refine (keeps_at_keeps _ _ _ _);
        refine (keeps_bind _ _ _ _ _); [fkeeps_auto|intros ?]).
  refine (keeps_get _ _ _). intros w. cbv zeta. intros ? w' E. unfold same_field.
  unfold engine_do in E. rewrite !bind_modify in E. apply set_region_size_self in E; [by rewrite E|done].
Qed.

#[export] Hint Resolve cache_free_sview frame_update_material_sview : t3d_frame.

Lemma frame_lift {A B} (f : Terrain3DStorage -> B) (c : M A) :
  keeps (same_field f) c -> keeps (on_base (same_field f)) (lift c).
Proof. exact (on_base_lift (same_field f) c). Qed.

Ltac lfkeeps_auto :=
  keeps_with ltac:(first [apply frame_lift; solve [fkeeps_auto] | eauto with t3d_onbase]).

Lemma frame_connect_layers {B} (f : Terrain3DStorage -> B) ls : keeps (on_base (same_field f)) (connect_layers ls).
Proof. induction ls; simpl; lfkeeps_auto. Qed.

#[export] Hint Resolve frame_connect_layers : t3d_onbase.

Lemma frame_update_layers {B} (f : Terrain3DStorage -> B) :
  cache_free f -> keeps (on_base (same_field f)) _update_layers.
Proof. intros Hf. unfold _update_layers, _update_arrays, _update_textures. lfkeeps_auto. Qed.


(** ** Each setter sets its own value *)

(** A storage method sets the stored value [n] to [v], from every world,
    and leaves the others. *)
Definition sets (c : M unit) (n : string) (v : Value) : Prop :=
  forall w, exists w', c w = Ok tt w' /\ sview (storage w') = assoc_set n v (sview (storage w)).

(** A setter [modify_storage g ;; c] whose tail leaves the stored values
    and never crashes. *)
Lemma modify_then_view g (c : M unit) n v :
  (forall s, sview (g s) = assoc_set n v (sview s)) ->
  keeps (same_field sview) c -> runs keeps_own c -> sets (modify_storage g ;; c) n v.
Proof.
  intros Hg Hk Hr w. set (w1 := with_storage (g (storage w)) w).
  destruct (Hr w1) as ([] & w' & E & _). exists w'. split.
  - unfold modify_storage. by rewrite bind_modify.
  - rewrite (Hk _ _ _ E). apply Hg.
Qed.

Ltac sets_auto :=
  apply modify_then_view; [intros ?; reflexivity|fkeeps_auto|own_auto].

Lemma sets_region_size z : (SIZE_64 <= z <= SIZE_2048)%Z -> sets (set_region_size z) "region_size" (VInt z).
Proof. intros Hz. unfold set_region_size. rewrite !bool_decide_false by lia. sets_auto. Qed.

Lemma sets_max_height z : sets (set_max_height z) "max_height" (VInt z).
Proof. sets_auto. Qed.

Lemma sets_height_maps l : sets (set_height_maps l) "height_maps" (VImages l).
Proof. apply modify_then_view; [intros ?; reflexivity|apply frame_force_update_maps, cache_free_sview|own_auto]. Qed.

Lemma sets_control_maps l : sets (set_control_maps l) "control_maps" (VImages l).
Proof. apply modify_then_view; [intros ?; reflexivity|apply frame_force_update_maps, cache_free_sview|own_auto]. Qed.

Lemma sets_region_offsets l : sets (set_region_offsets l) "region_offsets" (VOffsets l).
Proof. intros w. by eexists. Qed.

Lemma sets_shader_override o : sets (set_shader_override o) "shader_override" (VObject o).
Proof. intros w. by eexists. Qed.

Lemma sets_noise_texture o : sets (set_noise_texture o) "noise_texture" (VObject o).
Proof. sets_auto. Qed.

Lemma sets_noise_scale q : sets (set_noise_scale q) "noise_scale" (VFloat q).
Proof. sets_auto. Qed.

Lemma sets_noise_height q : sets (set_noise_height q) "noise_height" (VFloat q).
Proof. sets_auto. Qed.

Lemma sets_noise_fade q : sets (set_noise_fade q) "noise_fade" (VFloat q).
Proof. sets_auto. Qed.

(** The same for a call of the program with layers, which also leaves
    the layer objects alone. *)
Definition lsets (c : L bool) (n : string) (v : Value) (lw : LWorld) : Prop :=
  exists lw', c lw = Ok true lw' /\ sview (storage (base lw')) = assoc_set n v (sview (storage (base lw))) /\
              mats lw' = mats lw.

Lemma lsets_lift c n v lw : sets c n v -> lsets (lift c ;; mret true) n v lw.
Proof.
  intros Hc. destruct (Hc (base lw)) as (w' & E & Hv).
  exists (with_base w' lw). split_and!; [|done|done]. by rewrite (bind_ok _ _ _ _ _ (lift_ok _ _ _ _ E)).
Qed.

Lemma lsets_layers l lw : forallb (layer_live lw) l = true -> lsets (set_layers l ;; mret true) "layers" (VLayers l) lw.
Proof.
  intros Hl.
  assert (Hp : sets (modify_storage (with_layers l) ;; gen_clear AlbedoCache ;; gen_clear NormalCache)
                 "layers" (VLayers l)) by sets_auto.
  destruct (Hp (base lw)) as (w1 & E1 & Hv1).
  destruct (update_layers_total (with_base w1 lw)) as (lw2 & E2 & _ & Hm2).
  { unfold layers_of, layer_live in *. cbn. pose proof (f_equal (fun l => assoc "layers" l) Hv1) as Hl1.
    cbn in Hl1. injection Hl1 as ->. exact Hl. }
  assert (E : set_layers l lw = Ok tt lw2).
  { unfold set_layers. by rewrite (bind_ok _ _ _ _ _ (lift_ok _ _ _ _ E1)), E2. }
  exists lw2. rewrite (bind_ok _ _ _ _ _ E). split_and!; [done| |done].
  rewrite (frame_update_layers sview cache_free_sview _ _ _ E2). exact Hv1.
Qed.

(** ** Through ClassDB *)

(** The values a setter of the registered class takes and keeps: a
    value of the property's type, a region size of [[64, 2048]], layers
    that are live objects. *)
Definition acceptable (lw : LWorld) (n : string) (v : Value) : Prop :=
  match v with
  | VInt z => n = "max_height" \/ (n = "region_size" /\ (SIZE_64 <= z <= SIZE_2048)%Z)
  | VFloat _ => n = "noise_scale" \/ n = "noise_height" \/ n = "noise_fade"
  | VImages _ => n = "height_maps" \/ n = "control_maps"
  | VOffsets _ => n = "region_offsets"
  | VObject _ => n = "noise_texture" \/ n = "shader_override"
  | VLayers l => n = "layers" /\ forallb (layer_live lw) l = true
  end%string.

Lemma acceptable_mats lw lw' n v : mats lw' = mats lw -> acceptable lw n v -> acceptable lw' n v.
Proof.
  intros Hm. destruct v; try done. simpl. unfold layer_live. by rewrite Hm.
Qed.

(** The setter ClassDB finds for a property. *)
Definition prop_setter (c : ClassInfo method) (n : string) : option method :=
  match find_prop c n with Some (st, _) => mb_ptr <$> find_method c st | None => None end.

Lemma set_property_setter c n v :
  set_property c n v = match prop_setter c n with Some m => call_setter m v | None => mret false end.
Proof.
  unfold set_property, prop_setter. destruct (find_prop c n) as [[st gt]|]; [|done].
  by destruct (find_method c st).
Qed.

Ltac eval_setter :=
  rewrite set_property_setter;
  match goal with |- context [prop_setter ?c ?n] =>
    let x := eval vm_compute in (prop_setter c n) in change (prop_setter c n) with x end;
  cbn [call_setter].


(** ClassDB sets every acceptable value of a stored property through
    the property's own setter. *)
Lemma set_property_view lw n v :
  acceptable lw n v -> lsets (set_property registered_class n v) n v lw.
Proof.
  destruct v; simpl;
    [intros [->|[-> Hz]]|intros [->|[->| ->]]|intros [->| ->]|intros ->|intros [->| ->]|intros [-> Hl]];
    eval_setter; try (apply lsets_lift).
  - apply sets_max_height.
  - by apply sets_region_size.
  - apply sets_noise_scale.
  - apply sets_noise_height.
  - apply sets_noise_fade.
  - apply sets_height_maps.
  - apply sets_control_maps.
  - apply sets_region_offsets.
  - apply sets_noise_texture.
  - apply sets_shader_override.
  - by apply lsets_layers.
Qed.

(** Loading acceptable values sets them in turn. *)
Lemma load_resource_view ps lw :
  Forall (fun kv => acceptable lw kv.1 kv.2) ps ->
  exists lw', load_resource registered_class ps lw = Ok tt lw' /\
    sview (storage (base lw')) = foldl (fun l kv => assoc_set kv.1 kv.2 l) (sview (storage (base lw))) ps /\
    mats lw' = mats lw.
Proof.
  revert lw. induction ps as [|[n v] ps IH]; intros lw Hps; [by eexists|].
  apply Forall_cons in Hps as [Hnv Hps].
  destruct (set_property_view lw n v Hnv) as (lw1 & E1 & Hv1 & Hm1).
  destruct (IH lw1) as (lw2 & E2 & Hv2 & Hm2).
  { eapply Forall_impl; [exact Hps|]. intros kv. by apply acceptable_mats. }
  exists lw2. simpl. rewrite (bind_ok _ _ _ _ _ E1). split_and!; [done| |congruence].
  by rewrite Hv2, Hv1.
Qed.

(** ** The round trip *)

(** The constructor leaves the stored values as the field defaults set
    them. *)
Lemma sview_after_constructor w : sview (storage (after constructor w)) = sview (storage w).
Proof.
  unfold after. destruct (constructor w) as [[] w'|] eqn:E; [|done].
  assert (Hk : keeps (same_field sview) constructor) by (unfold constructor; fkeeps_auto).
  exact (Hk _ _ _ E).
Qed.

Lemma sview_instantiate lw : sview (storage (base (instantiate lw))) = sview storage_defaults.
Proof. apply sview_after_constructor. Qed.

Lemma sview_lworld_init : sview (storage (base lworld_init)) = sview storage_defaults.
Proof. apply sview_after_constructor. Qed.

(** A value the storage holds is one its setter takes back, when the
    region size is in range and the layers are live. *)
Lemma sview_acceptable s lw n v :
  (SIZE_64 <= region_size s <= SIZE_2048)%Z -> forallb (layer_live lw) (layers s) = true ->
  assoc n (sview s) = Some v -> acceptable lw n v.
Proof.
  intros Hs Hl. unfold sview. rewrite !assoc_cons.
  repeat case_bool_decide; intros Hsv; simplify_eq/=; try done; unfold acceptable; naive_solver.
Qed.


(** From a storage whose region size is in range and whose layers are
    live, saving and loading gives back every stored value. *)
Lemma save_load_view lw :
  (SIZE_64 <= region_size (storage (base lw)) <= SIZE_2048)%Z ->
  forallb (layer_live lw) (layers_of lw) = true ->
  exists lw', load_resource registered_class (save_resource registered_class lw) (instantiate lw) = Ok tt lw' /\
    forall n, n ∈ stored_props registered_class ->
      get_property registered_class n lw' ≡ get_property registered_class n lw.
Proof.
  intros Hs Hl.
  pose (S := sview (storage (base lw))). pose (D := sview storage_defaults).
  pose (g := fun n => match assoc n S with
                     | Some v => match assoc n D with
                                 | Some d => if value_eqb v d then None else Some v
                                 | None => Some v end
                     | None => None end).
  assert (Hsave : save_resource registered_class lw = omap (fun n => (fun v => (n, v)) <$> g n) pkeys).
  { unfold save_resource, class_default. rewrite stored_props_registered. apply omap_ext_in. intros n Hn.
    rewrite !get_property_sview, sview_lworld_init by done. unfold g.
    change (sview (storage (base lw))) with S. change (sview storage_defaults) with D.
    clear Hs Hl. destruct (assoc n S), (assoc n D); try destruct (value_eqb _ _); done. }
  destruct (load_resource_view (save_resource registered_class lw) (instantiate lw)) as (lw' & E & Hv & _).
  { rewrite Hsave. apply Forall_forall. intros [n v] Hin. apply list_elem_of_omap in Hin as (n' & _ & Hg).
    unfold g in Hg. destruct (assoc n' S) as [v'|] eqn:HS; [|done].
    assert (Hnv : n' = n /\ v' = v) by (clear - Hg; destruct (assoc n' D); try destruct (value_eqb _ _); by simplify_eq/=).
    destruct Hnv as [<- <-]. exact (sview_acceptable _ (instantiate lw) _ _ Hs Hl HS). }
  exists lw'. split; [exact E|]. intros n Hn. rewrite stored_props_registered in Hn.
  rewrite !get_property_sview, Hv, sview_instantiate by done. fold D.
  assert (HnD : is_Some (assoc n D)) by (apply assoc_is_Some; exact Hn).
  assert (HnS : is_Some (assoc n S)) by (apply assoc_is_Some; unfold S; rewrite sview_keys; exact Hn).
  rewrite assoc_foldl_set; [|rewrite Hsave; exact (omap_keys_NoDup _ _ pkeys_NoDup)|exact HnD].
  rewrite Hsave, assoc_omap_keys by first [exact Hn | exact pkeys_NoDup]. fold S. unfold g.
  destruct HnS as [v ->], HnD as [d ->]. destruct (value_eqb v d) eqn:Hvd; constructor; [|reflexivity].
  symmetry. exact Hvd.
Qed.

(** ** Invariant of the program with layers: the size and the layers *)

Lemma bind_inv {S A B} (c : st S A) (k : A -> st S B) s b s' :
  (c ≫= k) s = Ok b s' -> exists a s1, c s = Ok a s1 /\ k a s1 = Ok b s'.
Proof.
  change ((c ≫= k) s) with (st_bind c k s). unfold st_bind.
  destruct (c s) as [a s1|]; [by exists a, s1|done].
Qed.

Lemma lift_inv {A} (c : M A) lw a lw' : lift c lw = Ok a lw' -> exists w', c (base lw) = Ok a w' /\ lw' = with_base w' lw.
Proof. unfold lift. destruct (c (base lw)) as [b w|]; [intros [= -> <-]; by eexists|done]. Qed.

Definition size_ok (w : World) : Prop := (SIZE_64 <= region_size (storage w) <= SIZE_2048)%Z.

Definition layers_live (lw : LWorld) : Prop := forallb (layer_live lw) (layers_of lw) = true.

(** A world the methods may be called on: the region size is one
    [set_region_size] accepts, and every layer is a live object. *)
Definition linv (lw : LWorld) : Prop := size_ok (base lw) /\ layers_live lw.

Definition size_rel (w w' : World) : Prop := size_ok w -> size_ok w'.

#[export] Instance size_rel_preorder : PreOrder size_rel.
Proof. split; [intros w H; exact H|]. intros w1 w2 w3 H12 H23 H. exact (H23 (H12 H)). Qed.

Lemma size_set_region_size p : keeps size_rel (set_region_size p).
Proof.
  intros w a w' E Hw. unfold size_ok in *. unfold set_region_size in E.
  case_bool_decide as H1; [cbv [ERR engine_do st_modify] in E; injection E as _ <-; exact Hw|].
  case_bool_decide as H2; [cbv [ERR engine_do st_modify] in E; injection E as _ <-; exact Hw|].
  unfold modify_storage in E. rewrite bind_modify in E. unfold set_material_param in E. cbn in E.
  injection E as _ <-. cbn. unfold SIZE_64, SIZE_2048 in *. lia.
Qed.

Lemma size_of_frame {A} (c : M A) : keeps (same_field region_size) c -> keeps size_rel c.
Proof. intros Hk w a w' E. unfold size_rel, size_ok. by rewrite (Hk _ _ _ E). Qed.

(** A field read off the stored values is kept by [_update_material]. *)
Lemma frame_update_material_of {B} (f : Terrain3DStorage -> B) :
  (forall s s', sview s = sview s' -> f s = f s') -> keeps (same_field f) _update_material.
Proof. intros Hf w a w' E. apply Hf. exact (frame_update_material_sview _ _ _ E). Qed.

Ltac sview_inj H :=
  unfold sview, get_region_size, get_max_height, get_height_maps, get_control_maps, get_region_offsets,
    get_noise_texture, get_noise_scale, get_noise_height, get_noise_fade, get_shader_override in H;
  injection H; intros; congruence.

Lemma frame_update_material_region_size : keeps (same_field region_size) _update_material.
Proof. apply frame_update_material_of. intros s s' H. sview_inj H. Qed.

Lemma frame_update_material_layers : keeps (same_field layers) _update_material.
Proof. apply frame_update_material_of. intros s s' H. sview_inj H. Qed.

#[export] Hint Resolve frame_update_material_region_size frame_update_material_layers : t3d_frame.

Lemma frame_client_set_pixel {B} (f : Terrain3DStorage -> B) id p col : keeps (same_field f) (client_set_pixel id p col).
Proof.
  apply frame_same_storage. intros w a w'. unfold client_set_pixel. rewrite bind_get.
  destruct (images w !! id); [|done]. destruct (image_set_pixelv p col _); by intros [= _ <-].
Qed.

Lemma frame_new_image {B} (f : Terrain3DStorage -> B) img : keeps (same_field f) (new_image img).
Proof. apply frame_same_storage. by intros w a w' [= _ <-]. Qed.

Lemma frame_get_map {B} (f : Terrain3DStorage -> B) i t : keeps (same_field f) (get_map i t).
Proof. apply frame_same_storage. intros w a w' E. by rewrite (get_map_pure _ _ _ _ _ E). Qed.

#[export] Hint Resolve frame_new_image frame_get_map : t3d_frame.
#[export] Hint Extern 1 (keeps (same_field _) (force_update_maps _)) =>
  apply frame_force_update_maps; solve [eauto with t3d_frame] : t3d_frame.

Ltac frame_method :=
  cbn [method_of];
  unfold set_region_size, set_max_height, add_region, remove_region, regions_changed, set_region_offsets,
    set_height_maps, set_control_maps, set_shader_override, set_noise_texture,
    set_noise_scale, set_noise_height, set_noise_fade; cbv zeta;
  first [apply frame_client_set_pixel | fkeeps_auto].

Lemma size_method c : keeps size_rel (method_of c).
Proof.
  destruct c; [apply size_set_region_size|..]; apply size_of_frame; frame_method.
Qed.

Lemma layers_method c : keeps (same_field layers) (method_of c).
Proof. destruct c; frame_method. Qed.

(** [_update_layers] returns only on live layers, and leaves them. *)
Lemma update_layers_live lw a lw' : _update_layers lw = Ok a lw' -> layers_live lw'.
Proof.
  intros E. destruct (forallb (layer_live lw) (layers_of lw)) eqn:Hl.
  - destruct (update_layers_total lw Hl) as (lw2 & E2 & Hl2 & Hm2). rewrite E2 in E. injection E as _ <-.
    unfold layers_live, layer_live. rewrite Hl2, Hm2. exact Hl.
  - unfold _update_layers in E. rewrite bind_get, (bind_crash _ _ _ _ (connect_layers_dead _ _ Hl)) in E. done.
Qed.

Lemma layers_live_same lw lw' : layers_of lw' = layers_of lw -> mats lw' = mats lw -> layers_live lw -> layers_live lw'.
Proof. intros Hl Hm. unfold layers_live, layer_live. by rewrite Hl, Hm. Qed.

Lemma update_tail_live lw lw' :
  (_update_layers ;; lift notify_property_list_changed) lw = Ok tt lw' -> layers_live lw'.
Proof.
  intros (a & lw1 & E1 & E2)%bind_inv. apply lift_inv in E2 as (w' & E2 & ->).
  apply (layers_live_same lw1); [|done|exact (update_layers_live _ _ _ E1)].
  unfold layers_of. cbn. unfold notify_property_list_changed, engine_do in E2. by injection E2 as <-.
Qed.

Ltac lframe_auto := keeps_with ltac:(first [apply frame_lift; solve [fkeeps_auto]
                                          | apply frame_update_layers; solve [eauto with t3d_frame]
                                          | solve [apply on_base_disconnect; try typeclasses eauto; fkeeps_auto]
                                          | apply keeps_crash
                                          | eauto with t3d_onbase]).

(** The layer methods leave the stored fields but the layers. *)
Lemma frame_call_targets {B} (f : Terrain3DStorage -> B) o tgts :
  cache_free f -> keeps (on_base (same_field f)) (call_targets o tgts).
Proof.
  intros Hf. induction tgts as [|[] rest IH]; simpl; unfold call_target, _update_arrays, _update_textures; lframe_auto.
Qed.

#[export] Hint Extern 1 (keeps (on_base _) (call_targets _ _)) => apply frame_call_targets; solve [eauto with t3d_frame] : t3d_onbase.

(** [set_layer] and [set_layers] keep every field the layer list and
    the caches do not make. *)
Lemma frame_set_layer {B} (f : Terrain3DStorage -> B) m i :
  cache_free f -> (forall l s, f (with_layers l s) = f s) -> keeps (on_base (same_field f)) (set_layer m i).
Proof.
  intros Hf Hl. unfold set_layer. cbv zeta.
  keeps_with ltac:(first [apply frame_lift; solve [keeps_with ltac:(first [apply frame_modify, Hl | eauto with t3d_frame])]
                        | apply frame_update_layers; solve [eauto with t3d_frame]
                        | solve [apply on_base_disconnect; try typeclasses eauto; fkeeps_auto]
                        | apply keeps_crash
                        | eauto with t3d_onbase]).
Qed.

Lemma frame_set_layers {B} (f : Terrain3DStorage -> B) l :
  cache_free f -> (forall l s, f (with_layers l s) = f s) -> keeps (on_base (same_field f)) (set_layers l).
Proof.
  intros Hf Hl. unfold set_layers.
  keeps_with ltac:(first [apply frame_lift; solve [keeps_with ltac:(first [apply frame_modify, Hl | eauto with t3d_frame])]
                        | apply frame_update_layers; solve [eauto with t3d_frame]]).
Qed.


Lemma layers_live_grow lw lw' :
  layers_of lw' = layers_of lw -> (forall o, is_Some (mats lw !! o) -> is_Some (mats lw' !! o)) ->
  layers_live lw -> layers_live lw'.
Proof.
  intros Hl Hm H. unfold layers_live in *. rewrite Hl. apply forallb_forall. intros r Hr.
  apply forallb_forall with (x := r) in H; [|done]. destruct r as [o|]; [|done].
  unfold layer_live in *. rewrite bool_decide_eq_true in *. by apply Hm.
Qed.

(** An edit of a layer stores the new value in the layer object; the
    signal reaches no method of the storage. *)
Lemma edit_layer_run o f sig lw lw' :
  edit_layer o f sig lw = Ok tt lw' ->
  storage (base lw') = storage (base lw) /\ exists m, mats lw !! o = Some m /\ mats lw' = <[o := f m]> (mats lw).
Proof.
  unfold edit_layer. rewrite bind_get. destruct (mats lw !! o) as [m|] eqn:Hm; [|done].
  intros (? & lw1 & E1 & E2)%bind_inv. injection E1 as _ <-.
  unfold emit_signal in E2. rewrite bind_get in E2.
  destruct (call_targets_errs o ((fun c => c.2) <$> filter (fun c => c.1 = (o, sig))
             (conns (mkLWorld (base lw) (<[o:=f m]> (mats lw)) (next_mat lw) (conns lw))))
             (mkLWorld (base lw) (<[o:=f m]> (mats lw)) (next_mat lw) (conns lw)))
    as (lw2 & E3 & Hs & _ & Hm2 & _).
  rewrite E3 in E2. injection E2 as <-. split; [exact Hs|]. by exists m.
Qed.

Lemma get_layer_same i lw a lw' : get_layer i lw = Ok a lw' -> lw' = lw.
Proof.
  unfold get_layer, index_read. rewrite bind_get. destruct (lookup_Z _ _); [|done]. by intros [= _ <-].
Qed.

Lemma cache_free_region_size : cache_free region_size.
Proof. intros [] ? ?; reflexivity. Qed.

(** Every call of the program with layers keeps [linv]. *)
Lemma lstep_linv lw lw' : lstep lw lw' -> linv lw -> linv lw'.
Proof.
  intros [c lw0 lw1 Hc] [Hs Hl].
  assert (Hsl : forall l s, region_size (with_layers l s) = region_size s) by done.
  destruct c; cbn [lmethod_of] in Hc.
  - apply lift_inv in Hc as (w' & E & ->). split; [exact (size_method c _ _ _ E Hs)|].
    apply (layers_live_same lw0); [exact (layers_method c _ _ _ E)|done|exact Hl].
  - split.
    + unfold size_ok. rewrite (frame_set_layer region_size _ _ cache_free_region_size Hsl _ _ _ Hc). exact Hs.
    + unfold set_layer in Hc. rewrite bind_get in Hc. cbv zeta in Hc.
      apply bind_inv in Hc as (_ & lw2 & _ & Hc). apply bind_inv in Hc as (_ & lw3 & _ & Hc).
      exact (update_tail_live _ _ Hc).
  - apply bind_inv in Hc as (a & lw2 & E & [= <-]). by rewrite (get_layer_same _ _ _ _ E).
  - split.
    + unfold size_ok. rewrite (frame_set_layers region_size _ cache_free_region_size Hsl _ _ _ Hc). exact Hs.
    + unfold set_layers in Hc. apply bind_inv in Hc as (_ & lw2 & _ & Hc). exact (update_layers_live _ _ _ Hc).
  - apply bind_inv in Hc as (a & lw2 & [= _ <-] & [= <-]). split; [exact Hs|].
    apply (layers_live_grow lw0); [done| |exact Hl]. intros o' Ho'. cbn.
    destruct (decide (o' = next_mat lw0)) as [->|Hne]; [by rewrite lookup_insert_eq|by rewrite lookup_insert_ne].
  - apply edit_layer_run in Hc as (Hst & m & Hm & Hm'). split; [unfold size_ok; by rewrite Hst|].
    apply (layers_live_grow lw0); [unfold layers_of; by rewrite Hst| |exact Hl]. intros o' Ho'. rewrite Hm'.
    destruct (decide (o' = o)) as [->|Hne]; [by rewrite lookup_insert_eq|by rewrite lookup_insert_ne].
  - apply edit_layer_run in Hc as (Hst & m & Hm & Hm'). split; [unfold size_ok; by rewrite Hst|].
    apply (layers_live_grow lw0); [unfold layers_of; by rewrite Hst| |exact Hl]. intros o' Ho'. rewrite Hm'.
    destruct (decide (o' = o)) as [->|Hne]; [by rewrite lookup_insert_eq|by rewrite lookup_insert_ne].
Qed.

Lemma lreachable_linv lw : lreachable lw -> linv lw.
Proof.
  intros Hr. refine (rtc_ind_r linv lworld_init _ _ lw Hr).
  - split; [vm_compute; split; congruence|reflexivity].
  - intros y z _ Hs IH. exact (lstep_linv _ _ Hs IH).
Qed.

(** ** Hints and setters *)

(** The [Variant::Type] of a value. *)
Definition value_type (v : Value) : VariantType :=
  match v with
  | VInt _ => INT | VFloat _ => FLOAT | VImages _ | VOffsets _ | VLayers _ => ARRAY | VObject _ => OBJECT
  end.

(** An [INT] the C++ [int] parameter holds without truncation. *)
Definition fits_int32 (v : Value) : Prop :=
  match v with VInt z => (- 2 ^ 31 <= z < 2 ^ 31)%Z | _ => True end.

(** The [PropertyInfo] of a property. *)
Definition prop_info (c : ClassInfo method) (n : string) : option PropertyInfo :=
  match list_find (fun e => prop_name e = Some n) (props c) with Some (_, PProp i _ _) => Some i | _ => None end.

Lemma acceptable_pkeys lw n v : acceptable lw n v -> n ∈ pkeys.
Proof.
  destruct v; simpl; intros H;
    repeat match type of H with _ \/ _ => destruct H as [H|H] | _ /\ _ => destruct H as [H _] end; subst;
    apply (bool_decide_unpack _); vm_compute; reflexivity.
Qed.

(** ClassDB stores an acceptable value and reads it back. *)
Lemma set_get_property lw n v :
  acceptable lw n v ->
  exists lw', set_property registered_class n v lw = Ok true lw' /\ get_property registered_class n lw' = Some v.
Proof.
  intros Hv. pose proof (acceptable_pkeys _ _ _ Hv) as Hn.
  destruct (set_property_view lw n v Hv) as (lw' & E & Hs & _). exists lw'. split; [exact E|].
  rewrite get_property_sview, Hs, assoc_assoc_set, bool_decide_true by (done || exact Hn).
  destruct (assoc_is_Some n (sview (storage (base lw)))) as [x ->]; [rewrite sview_keys; exact Hn|done].
Qed.

(** ** Claims *)

(** (C11) A storage saved and loaded back has every property's value:
    from every world the program with layers reaches, the list the text
    saver writes (each registered property whose value differs from a
    fresh instance's) loads into a new instance without a crash, and
    every stored property then reads, through ClassDB, the value it had,
    up to [Variant] equality.  Each setter runs on the half-loaded
    object (the map setters run the update pass, [set_noise_texture]
    rebuilds the material) and none of them disturbs a value set
    before. *)
Theorem save_load_roundtrip lw :
  lreachable lw ->
  exists lw', load_resource registered_class (save_resource registered_class lw) (instantiate lw) = Ok tt lw' /\
    forall n, n ∈ stored_props registered_class ->
      get_property registered_class n lw' ≡ get_property registered_class n lw.
Proof. intros [Hs Hl]%lreachable_linv. exact (save_load_view lw Hs Hl). Qed.

Lemma save_load_roundtrip_witness :
  lreachable lworld_built /\
  exists lw', load_resource registered_class (save_resource registered_class lworld_built) (instantiate lworld_built) = Ok tt lw' /\
    forall n, n ∈ stored_props registered_class ->
      get_property registered_class n lw' ≡ get_property registered_class n lworld_built.
Proof. split; [exact lworld_built_reachable|]. exact (save_load_roundtrip lworld_built lworld_built_reachable). Defined.



End Persistence.
